(** * CumulusCI bulk data: data operations and the Snowfakery run loop

    A shallow embedding of
      - [cumulusci/tasks/bulkdata/step.py]: the data operation layer
        (Bulk API jobs, REST collections, backend choice, user filters);
      - [cumulusci/tasks/bulkdata/snowfakery.py]: the status report of the
        run loop.

    Python integers are [Z]; [str] values are [string]s whose characters are
    code points below 256; [None] is the [None] of an [option]; a Python
    exception is the left injection of a sum. *)

From Stdlib Require Import ZArith QArith List String Ascii Lia DecimalString.
From stdpp Require Import base gmap strings list.

Open Scope string_scope.
Open Scope Z_scope.

(** ** Python prelude *)

Module Py.

(** The exceptions the modelled code can raise. *)
Inductive exn : Type :=
| UnboundLocalError (name : string)
| AssertionError (msg : string)
| KeyError (key : string)
| IndexError
| TypeError (msg : string)
| SOQLQueryException (msg : string)
| ValueError (msg : string)
| RuntimeError (msg : string)
| BulkDataException (msg : string).

(** A computation that returns an [A] or raises. *)
Definition Exc (A : Type) : Type := exn + A.

Definition ret {A} (a : A) : Exc A := inr a.
Definition raise {A} (e : exn) : Exc A := inl e.
Definition bind {A B} (c : Exc A) (k : A -> Exc B) : Exc B :=
  match c with
  | inl e => inl e
  | inr a => k a
  end.

(** [str(n)] and the [{n}] of an f-string, for an int. *)
Definition str (n : Z) : string := NilZero.string_of_int (Z.to_int n).

(** [sum(l)] over ints. *)
Definition sum (l : list Z) : Z := fold_left Z.add l 0.

(** [x in l] for a list of strings. *)
Definition contains (x : string) (l : list string) : bool :=
  bool_decide (x ∈ l).

(** [", ".join(l)] and friends. *)
Fixpoint join (sep : string) (l : list string) : string :=
  match l with
  | [] => ""
  | [x] => x
  | x :: rest => x ++ sep ++ join sep rest
  end.

End Py.

Notation "'do' x <- c ; k" := (Py.bind c (fun x => k))
  (at level 10, x name, c at level 100, k at level 200).

(** ** Enumerations and result tuples of step.py *)

Inductive DataOperationType : Type :=
| INSERT | UPDATE | DELETE | HARD_DELETE | QUERY
| UPSERT | ETL_UPSERT | SMART_UPSERT | SELECT.

Inductive DataOperationStatus : Type :=
| SUCCESS | ROW_FAILURE | JOB_FAILURE | IN_PROGRESS | ABORTED.

(** [class DataOperationResult(NamedTuple)].  The declaration says
    [id: str] and [error: str]; a NamedTuple does not enforce it, and the code
    stores [None] in both, hence the options. *)
Record DataOperationResult : Type := mkResult {
  res_id : option string;
  res_success : bool;
  res_error : option string;
  res_created : option bool
}.

Record DataOperationJobResult : Type := mkJobResult {
  status : DataOperationStatus;
  job_errors : list string;
  records_processed : Z;
  total_row_errors : Z
}.

Global Instance DataOperationType_eq_dec : EqDecision DataOperationType.
Proof. solve_decision. Defined.

Global Instance DataOperationStatus_eq_dec : EqDecision DataOperationStatus.
Proof. solve_decision. Defined.

(** [cumulusci.tasks.bulkdata.utils.DataApi] is imported by step.py; only its
    three members are used. *)
Inductive DataApi : Type := BULK | REST | SMART.

(** [cumulusci.tasks.bulkdata.select_utils.SelectStrategy], likewise. *)
Inductive SelectStrategy : Type := STANDARD | SIMILARITY | RANDOM.

(** ** BulkJobMixin._parse_job_state *)

Module BulkJobMixin.

(** What [_parse_job_state] reads from the batch list document: the texts of
    every [state], [stateMessage], [numberRecordsFailed] and
    [numberRecordsProcessed] element, in document order, the two counters
    already through [int]. *)
Record BatchListXml : Type := mkBatchList {
  state_texts : list string;
  stateMessage_texts : list string;
  numberRecordsFailed : list Z;
  numberRecordsProcessed : list Z
}.

Definition _parse_job_state (tree : BatchListXml) : DataOperationJobResult :=
  let statuses := state_texts tree in
  let state_messages := stateMessage_texts tree in
  let record_failure_count := Py.sum (numberRecordsFailed tree) in
  let records_processed_count := Py.sum (numberRecordsProcessed tree) in
  if Py.contains "Not Processed" statuses then
    mkJobResult ABORTED [] records_processed_count record_failure_count
  else if Py.contains "InProgress" statuses || Py.contains "Queued" statuses then
    mkJobResult IN_PROGRESS [] records_processed_count record_failure_count
  else if Py.contains "Failed" statuses then
    mkJobResult JOB_FAILURE state_messages records_processed_count
      record_failure_count
  else if negb (record_failure_count =? 0) then
    mkJobResult ROW_FAILURE [] records_processed_count record_failure_count
  else
    mkJobResult SUCCESS [] records_processed_count record_failure_count.

End BulkJobMixin.

(** ** Backend choice: get_dml_operation and get_query_operation *)

Module Factory.

(** The class the factory instantiates. *)
Inductive DmlClass : Type := BulkApiDmlOperation | RestApiDmlOperation.
Inductive QueryClass : Type := BulkApiQueryOperation | RestApiQueryOperation.

(** [api_version < 42.0], on the value of [float(context.sf.sf_version)]:
    a finite float is a rational and the comparison is exact. *)
Definition below_42 (api_version : Q) : bool :=
  negb (Qle_bool 42 api_version).

(** The first rewrite of [api], shared by both factories. *)
Definition force_bulk_on_old_api (api_version : Q) (api : option DataApi)
  : option DataApi :=
  match api with
  | Some BULK => api
  | _ => if below_42 api_version then Some BULK else api
  end.

Definition get_dml_operation (api_version : Q) (operation : DataOperationType)
    (volume : Z) (api : option DataApi) : Py.Exc DmlClass :=
  let api := force_bulk_on_old_api api_version api in
  let api :=
    match api with
    | Some SMART | None =>
        if (2000 <=? volume) || bool_decide (operation = HARD_DELETE)
        then Some BULK else Some REST
    | _ => api
    end in
  match api with
  | Some BULK => Py.ret BulkApiDmlOperation
  | Some REST => Py.ret RestApiDmlOperation
  | _ => Py.raise (Py.AssertionError "Unknown API")
  end.

(** [record_count] is the [sObjects] list of the answer to
    [limits/recordCount?sObjects=<sobject>]; the dict comprehension keeps
    the last entry of a name. *)
Definition sobject_map_of (record_count : list (string * Z)) : gmap string Z :=
  fold_left (fun m entry => <[entry.1 := entry.2]> m) record_count ∅.

Definition get_query_operation (api_version : Q) (sobject : string)
    (record_count : list (string * Z)) (api : option DataApi)
  : Py.Exc QueryClass :=
  let api := force_bulk_on_old_api api_version api in
  let api :=
    match api with
    | Some SMART | None =>
        let sobject_map := sobject_map_of record_count in
        match sobject_map !! sobject with
        | Some count => if 2000 <=? count then Some BULK else Some REST
        | None => Some REST
        end
    | _ => api
    end in
  match api with
  | Some BULK => Py.ret BulkApiQueryOperation
  | Some REST => Py.ret RestApiQueryOperation
  | _ => Py.raise (Py.AssertionError "Unknown API")
  end.

End Factory.

(** ** Snowfakery._report_status *)

Module Snowfakery.

Definition MIN_PORTION_SIZE : Z := 2000.
Definition MAX_PORTION_SIZE : Z := 250000.
Definition ERROR_THRESHOLD : Z := 0.

Record UploadStatus : Type := mkUploadStatus {
  batch_size : Z;
  sets_being_generated : Z;
  sets_queued_to_be_generated : Z;
  sets_being_loaded : Z;
  sets_queued_for_loading : Z;
  sets_finished : Z;
  target_count : Z;
  min_portion_size : Z;
  max_portion_size : Z;
  user_max_num_loader_workers : Z;
  user_max_num_generator_workers : Z;
  elapsed_seconds : Z;
  sets_failed : Z;
  inprogress_generator_jobs : Z;
  inprogress_loader_jobs : Z;
  data_gen_free_workers : Z;
  shards : Z
}.

Definition total_in_flight (s : UploadStatus) : Z :=
  sets_queued_to_be_generated s + sets_being_generated s
  + sets_queued_for_loading s + sets_being_loaded s.

Definition total_sets_working_on_or_uploaded (s : UploadStatus) : Z :=
  total_in_flight s + sets_finished s.

(** The dict [queue_manager.get_upload_status()] returns: the fields of
    [UploadStatus] that [get_upload_status] does not pass itself. *)
Record QueueManagerStatus : Type := mkQueueStatus {
  q_sets_being_generated : Z;
  q_sets_queued_to_be_generated : Z;
  q_sets_being_loaded : Z;
  q_sets_queued_for_loading : Z;
  q_sets_finished : Z;
  q_user_max_num_loader_workers : Z;
  q_sets_failed : Z;
  q_inprogress_generator_jobs : Z;
  q_inprogress_loader_jobs : Z;
  q_data_gen_free_workers : Z
}.

(** The attributes of the task and of its queue manager that the report
    reads. *)
Record Task : Type := mkTask {
  run_until_gap : Z;
  num_generator_workers : Z;
  seconds_since_start : Z;
  sets_finished_while_generating_template : Z;
  num_shards : Z;
  queue_status : QueueManagerStatus;
  failure_descriptions : list string
}.

(** What the task writes to its logger. *)
Inductive LogLine : Type :=
| ProgressBanner
| StatusDisplay (s : UploadStatus)
| FailureLine (description : string).

Definition get_upload_status (self : Task) (batch_size : Z) : UploadStatus :=
  let q := queue_status self in
  {| batch_size := batch_size;
     sets_being_generated := q_sets_being_generated q;
     sets_queued_to_be_generated := q_sets_queued_to_be_generated q;
     sets_being_loaded := q_sets_being_loaded q;
     sets_queued_for_loading := q_sets_queued_for_loading q;
     sets_finished :=
       q_sets_finished q + sets_finished_while_generating_template self;
     target_count := run_until_gap self;
     min_portion_size := MIN_PORTION_SIZE;
     max_portion_size := MAX_PORTION_SIZE;
     user_max_num_loader_workers := q_user_max_num_loader_workers q;
     user_max_num_generator_workers := num_generator_workers self;
     elapsed_seconds := seconds_since_start self;
     sets_failed := q_sets_failed q;
     inprogress_generator_jobs := q_inprogress_generator_jobs q;
     inprogress_loader_jobs := q_inprogress_loader_jobs q;
     data_gen_free_workers := q_data_gen_free_workers q;
     shards := num_shards self |}.

Definition log_failures (self : Task) : list LogLine :=
  map FailureLine (failure_descriptions self).

(** Returns the lines logged and the outcome. *)
Definition _report_status (self : Task) (batch_size : option Z)
  : list LogLine * Py.Exc UploadStatus :=
  let log := [ProgressBanner] in
  let upload_status := get_upload_status self (default 0 batch_size) in
  let log := (log ++ [StatusDisplay upload_status])%list in
  let log :=
    if negb (sets_failed upload_status =? 0)
    then (log ++ log_failures self)%list else log in
  if ERROR_THRESHOLD <? sets_failed upload_status then
    (log, Py.raise (Py.BulkDataException
       ("Errors exceeded threshold: " ++ Py.str (sets_failed upload_status)
        ++ " vs " ++ Py.str ERROR_THRESHOLD)))
  else
    (log, Py.ret upload_status).

End Snowfakery.

(** ** Text: the character classes and regular expressions of step.py *)

Module Text.

Local Open Scope nat_scope.

Definition code (c : ascii) : nat := nat_of_ascii c.

(** [str.isspace] and the [\s] of [re] agree; below 256 they hold of
    TAB..CR, FS..US, SPACE, NEL and NBSP. *)
Definition is_space (c : ascii) : bool :=
  let n := code c in
  ((9 <=? n) && (n <=? 13)) || ((28 <=? n) && (n <=? 32))
  || (n =? 133) || (n =? 160).

(** [\d]: below 256 the decimal digits are the ASCII ones. *)
Definition is_digit (c : ascii) : bool :=
  let n := code c in (48 <=? n) && (n <=? 57).

(** Case folding of [re.IGNORECASE] for the ASCII letters of a keyword. *)
Definition lower (c : ascii) : ascii :=
  let n := code c in
  if (65 <=? n) && (n <=? 90) then ascii_of_nat (n + 32) else c.

Definition eq_nocase (a b : ascii) : bool :=
  Ascii.eqb (lower a) (lower b).

(** The longest prefix of [s] whose characters satisfy [p], and the rest. *)
Fixpoint span (p : ascii -> bool) (s : string) : string * string :=
  match s with
  | EmptyString => (EmptyString, EmptyString)
  | String c s' =>
      if p c then let '(a, b) := span p s' in (String c a, b)
      else (EmptyString, s)
  end.

(** [s] without its prefix [kw], compared case-insensitively. *)
Fixpoint match_kw (kw s : string) : option string :=
  match kw, s with
  | EmptyString, _ => Some s
  | String k kw', String c s' =>
      if eq_nocase k c then match_kw kw' s' else None
  | String _ _, EmptyString => None
  end.

(** [int(ds)] of a string of ASCII digits. *)
Definition int_of_digits (ds : string) : Z :=
  fold_left (fun acc c => (10 * acc + Z.of_nat (code c - 48))%Z)
    (list_ascii_of_string ds) 0%Z.

(** A match of [KW\s+(\d+)] that starts at the head of [s]: group 1, as
    an int.  The classes are disjoint, so the greedy match is the only
    one. *)
Definition clause_at (kw s : string) : option Z :=
  match match_kw kw s with
  | None => None
  | Some r =>
      let '(ws, r) := span is_space r in
      let '(ds, _) := span is_digit r in
      if (String.length ws =? 0) || (String.length ds =? 0) then None
      else Some (int_of_digits ds)
  end.

(** [re.search(r"KW\s+(\d+)", s, re.IGNORECASE)]: group 1 of the leftmost
    match, as an int. *)
Fixpoint search_clause (kw s : string) : option Z :=
  match clause_at kw s with
  | Some v => Some v
  | None =>
      match s with
      | EmptyString => None
      | String _ s' => search_clause kw s'
      end
  end.

(** The length of a match of [\s+KW\s+\d+\s*] at the head of [s]. *)
Definition padded_clause_at (kw s : string) : option nat :=
  let '(ws0, r) := span is_space s in
  match match_kw kw r with
  | None => None
  | Some r =>
      let '(ws1, r) := span is_space r in
      let '(ds, r) := span is_digit r in
      let '(ws2, _) := span is_space r in
      if (String.length ws0 =? 0) || (String.length ws1 =? 0)
         || (String.length ds =? 0)
      then None
      else Some (String.length ws0 + String.length kw + String.length ws1
                 + String.length ds + String.length ws2)
  end.

(** [re.sub(r"\s+KW\s+\d+\s*", " ", s, flags=re.IGNORECASE)]: scanning from
    the left, every match is replaced by one space and the scan resumes
    behind it; [skip] counts the characters of the current match still to
    drop. *)
Fixpoint sub_clause_from (kw : string) (skip : nat) (s : string) : string :=
  match s with
  | EmptyString => EmptyString
  | String c s' =>
      match skip with
      | S k => sub_clause_from kw k s'
      | O =>
          match padded_clause_at kw s with
          | Some (S k) => String " " (sub_clause_from kw k s')
          | _ => String c (sub_clause_from kw 0 s')
          end
      end
  end.

Definition sub_clause (kw s : string) : string := sub_clause_from kw 0 s.

Fixpoint lstrip (s : string) : string :=
  match s with
  | String c s' => if is_space c then lstrip s' else s
  | EmptyString => EmptyString
  end.

Fixpoint rstrip (s : string) : string :=
  match s with
  | EmptyString => EmptyString
  | String c s' =>
      match rstrip s' with
      | EmptyString => if is_space c then EmptyString else String c EmptyString
      | r => String c r
      end
  end.

(** [s.strip()] *)
Definition strip (s : string) : string := rstrip (lstrip s).

End Text.

(** ** generate_user_filter_query *)

Definition generate_user_filter_query (filter_clause sobject : string)
    (fields : list string) (limit_clause offset_clause : option Z) : string :=
  let existing_limit_match := Text.search_clause "LIMIT" filter_clause in
  let existing_offset_match := Text.search_clause "OFFSET" filter_clause in
  let limit_clause :=
    match existing_limit_match with
    | Some existing_limit =>
        match limit_clause with
        | Some l => Some (Z.min existing_limit l)
        | None => Some existing_limit
        end
    | None => limit_clause
    end in
  let offset_clause :=
    match existing_offset_match with
    | Some existing_offset =>
        match offset_clause with
        | Some o => Some (existing_offset + o)
        | None => Some existing_offset
        end
    | None => offset_clause
    end in
  let filter_clause := Text.strip (Text.sub_clause "OFFSET" filter_clause) in
  let filter_clause := Text.strip (Text.sub_clause "LIMIT" filter_clause) in
  let fields_str := Py.join ", " fields in
  let query := "SELECT " ++ fields_str ++ " FROM " ++ sobject ++ " " ++ filter_clause in
  let query :=
    match limit_clause with
    | Some l => query ++ " LIMIT " ++ Py.str l
    | None => query
    end in
  match offset_clause with
  | Some o => query ++ " OFFSET " ++ Py.str o
  | None => query
  end.

(** ** Records, helpers of other modules, and the remote org *)

(** A row to load: the values of [self.fields], each a [str] or [None]. *)
Abbreviation LoadRecord := (list (option string)).

(** A row read back from the org: strings only. *)
Abbreviation Row := (list string).

(** The argument of [process_bool_arg] at its call sites in step.py. *)
Inductive BoolArg : Type :=
| ArgBool (b : bool)
| ArgStr (s : string).

(** Functions step.py imports from modules that are not part of this
    development; the operations take them as they are. *)
Record Helpers : Type := mkHelpers {
  (** [cumulusci.core.utils.process_bool_arg] *)
  process_bool_arg : BoolArg -> Py.Exc bool;
  (** [SelectOperationExecutor.select_generate_query]: strategy, sobject,
      fields, limit, offset to the query and the fields it asks for *)
  select_generate_query :
    SelectStrategy -> string -> list string -> Z -> option Z -> string * list string;
  (** the similarity engine: the candidate closest to a load record *)
  closest_record : LoadRecord -> list Row -> Row
}.

(** The attributes of a DML operation object after [__init__]. *)
Record DmlOperation : Type := mkDml {
  sobject : string;
  operation : DataOperationType;
  fields : list string;
  api_batch_size : Z;
  update_key : option string;
  selection_strategy : SelectStrategy;
  selection_filter : option string;
  boolean_fields : list string
}.

(** [if self.selection_filter:] *)
Definition truthy (s : option string) : bool :=
  match s with
  | Some (String _ _) => true
  | _ => false
  end.

(** [range(0, stop, step)] *)
Definition range0 (stop step : Z) : Py.Exc (list Z) :=
  if step =? 0 then Py.raise (Py.ValueError "range() arg 3 must not be zero")
  else if (step <? 0) || (stop <=? 0) then Py.ret []
  else Py.ret (map (fun i => i * step) (seqZ 0 ((stop + step - 1) / step))).

(** [row[i]] *)
Definition item (row : Row) (i : nat) : Py.Exc string :=
  match row !! i with
  | Some v => Py.ret v
  | None => Py.raise Py.IndexError
  end.

(** [l.index(x)] *)
Fixpoint index_of (x : string) (l : list string) : Py.Exc nat :=
  match l with
  | [] => Py.raise (Py.ValueError "not in list")
  | y :: l' => if String.eqb x y then Py.ret O
               else do i <- index_of x l'; Py.ret (S i)
  end.

(** At most [fuel] chunks of [n] items of [l], the last one shorter. *)
Fixpoint chunks_upto {A} (fuel : nat) (n : nat) (l : list A) : list (list A) :=
  match fuel, l with
  | S fuel, _ :: _ => take n l :: chunks_upto fuel n (drop n l)
  | _, _ => []
  end.

(** Modelled from the spec: [iterate_in_chunks] of bulkdata/utils.py, which
    is not among the sources: the input cut into chunks of [n] items, the
    last one shorter. *)
Definition iterate_in_chunks {A} (n : Z) (l : list A) : list (list A) :=
  if n <=? 0 then [] else chunks_upto (length l) (Z.to_nat n) l.

(** ** select_utils: the post-processing of a selection *)

Module SelectUtils.

(** One assignment: the dict [{"id": .., "success": .., "created": ..}]. *)
Record Assignment : Type := mkAssignment {
  a_id : string;
  a_success : bool;
  a_created : bool
}.

Definition no_records_message (sobject : string) : string :=
  "No records found for " ++ sobject ++ " in the target org.".

(** The identifier of a candidate is its leading column. *)
Definition assignment_of (candidate : Row) : Assignment :=
  mkAssignment (default "" (head candidate)) true false.

Definition round_robin (query_records : list Row) (num_records : Z)
  : list Assignment :=
  map (fun i => assignment_of
                  (nth (i mod length query_records)%nat query_records []))
      (seq 0 (Z.to_nat num_records)).

(** Modelled from the spec: [select_post_process] of select_utils.py, which
    is not among the sources.  No candidates: no assignment and the message.
    STANDARD and RANDOM: [num_records] assignments, cycling through the
    candidates.  SIMILARITY: for each load record the nearest candidate. *)
Definition select_post_process (h : Helpers) (strategy : SelectStrategy)
    (load_records : list LoadRecord) (query_records : list Row)
    (num_records : Z) (sobject : string)
  : list Assignment * option string :=
  match query_records with
  | [] => ([], Some (no_records_message sobject))
  | _ :: _ =>
      match strategy with
      | STANDARD | RANDOM => (round_robin query_records num_records, None)
      | SIMILARITY =>
          (map (fun r => assignment_of (closest_record h r query_records))
               load_records, None)
      end
  end.

End SelectUtils.

(** ** CSV rows as the Bulk API receives them *)

Module Csv.

Definition dquote : ascii := ascii_of_nat 34.
Definition crlf : string := String (ascii_of_nat 13) (String (ascii_of_nat 10) "").

Fixpoint escape (s : string) : string :=
  match s with
  | EmptyString => EmptyString
  | String c s' =>
      if Ascii.eqb c dquote then String dquote (String dquote (escape s'))
      else String c (escape s')
  end.

(** A field under [csv.QUOTE_ALL]; [None] is written as the empty field. *)
Definition quote_field (v : option string) : string :=
  String dquote (escape (default "" v) ++ String dquote "").

(** [csv.writer(buff, quoting=csv.QUOTE_ALL).writerow(record)] *)
Definition writerow (record : LoadRecord) : string :=
  Py.join "," (map quote_field record) ++ crlf.

(** [s.encode("utf-8")] for code points below 256: one byte below 128, two
    above. *)
Fixpoint encode_utf8 (s : string) : string :=
  match s with
  | EmptyString => EmptyString
  | String c s' =>
      let n := nat_of_ascii c in
      if (n <? 128)%nat then String c (encode_utf8 s')
      else String (ascii_of_nat (192 + n / 64))
             (String (ascii_of_nat (128 + n mod 64)) (encode_utf8 s'))
  end.

End Csv.

(** ** BulkApiDmlOperation *)

Module BulkApiDml.

Import SelectUtils.

Definition DEFAULT_BULK_BATCH_SIZE : Z := 10000.
Definition DEFAULT_CHAR_LIMIT : Z := 10000000.

(** [api_options.get("batch_size") or DEFAULT_BULK_BATCH_SIZE] *)
Definition init_batch_size (requested : option Z) : Z :=
  match requested with
  | Some b => if b =? 0 then DEFAULT_BULK_BATCH_SIZE else b
  | None => DEFAULT_BULK_BATCH_SIZE
  end.

Definition _serialize_csv_record (record : LoadRecord) : string :=
  Csv.encode_utf8 (Csv.writerow record).

Definition len (s : string) : Z := Z.of_nat (String.length s).

(** The loop of [_batch], from the state [(batch, current_chars)]; the
    result lists the batches in the order they are yielded. *)
Fixpoint _batch_loop (serialized_csv_fields : string) (n char_limit : Z)
    (records : list LoadRecord) (batch : list string) (current_chars : Z)
  : list (list string) :=
  let len_csv_fields := len serialized_csv_fields in
  match records with
  | [] => if 1 <? Z.of_nat (length batch) then [batch] else []
  | record :: records =>
      let serialized_record := _serialize_csv_record record in
      let over := char_limit <? len serialized_record + current_chars in
      let yielded := if over then [batch] else [] in
      let batch := if over then [serialized_csv_fields] else batch in
      let current_chars := if over then len_csv_fields else current_chars in
      let batch := (batch ++ [serialized_record])%list in
      let current_chars := current_chars + len serialized_record in
      if Z.of_nat (length batch) - 1 =? n then
        (yielded ++ batch ::
           _batch_loop serialized_csv_fields n char_limit records
             [serialized_csv_fields] len_csv_fields)%list
      else
        (yielded ++
           _batch_loop serialized_csv_fields n char_limit records
             batch current_chars)%list
  end.

Definition _batch (self : DmlOperation) (records : list LoadRecord)
    (n char_limit : Z) : list (list string) :=
  let serialized_csv_fields := _serialize_csv_record (map Some (fields self)) in
  _batch_loop serialized_csv_fields n char_limit records
    [serialized_csv_fields] (len serialized_csv_fields).

(** A generator that raises: what it yielded before, and the exception. *)
Record Generated (A : Type) : Type := mkGenerated {
  yielded : list A;
  raised : option Py.exn
}.
Arguments mkGenerated {A} _ _.
Arguments yielded {A} _.
Arguments raised {A} _.

(** The body of the loop of [_parse_batch_results] for one row of the
    result file. *)
Definition parse_result_row (h : Helpers) (row : Row)
  : Py.Exc DataOperationResult :=
  do r1 <- item row 1;
  do success <- process_bool_arg h (ArgStr r1);
  do r2 <- item row 2;
  do created <- process_bool_arg h (ArgStr r2);
  do id <- (if success then (do r0 <- item row 0; Py.ret (Some r0))
            else Py.ret None);
  do error <- (if negb success then (do r3 <- item row 3; Py.ret (Some r3))
               else Py.ret None);
  Py.ret (mkResult id success error (Some created)).

Fixpoint parse_result_rows (h : Helpers) (rows : list Row)
  : Generated DataOperationResult :=
  match rows with
  | [] => mkGenerated [] None
  | row :: rows =>
      match parse_result_row h row with
      | inl e => mkGenerated [] (Some e)
      | inr r =>
          let g := parse_result_rows h rows in
          mkGenerated (r :: yielded g) (raised g)
      end
  end.

(** [_parse_batch_results]: [file] is the result file as [csv.reader]
    reads it; its first row is the header, which is skipped. *)
Definition _parse_batch_results (h : Helpers) (file : list Row)
  : Generated DataOperationResult :=
  match file with
  | [] => mkGenerated [] (Some (Py.RuntimeError "generator raised StopIteration"))
  | _header :: rows => parse_result_rows h rows
  end.

Definition query_result_row (h : Helpers) (row : Assignment)
  : Py.Exc DataOperationResult :=
  do success <- process_bool_arg h (ArgBool (a_success row));
  do created <- process_bool_arg h (ArgBool (a_created row));
  Py.ret (mkResult (Some (if success then a_id row else "")) success
            (Some "") (Some created)).

(** [_get_query_results] over [self.select_results]. *)
Fixpoint _get_query_results (h : Helpers) (select_results : list Assignment)
  : Generated DataOperationResult :=
  match select_results with
  | [] => mkGenerated [] None
  | row :: rest =>
      match query_result_row h row with
      | inl e => mkGenerated [] (Some e)
      | inr r =>
          let g := _get_query_results h rest in
          mkGenerated (r :: yielded g) (raised g)
      end
  end.

End BulkApiDml.

(** ** Selection: what both backends share *)

Module Selection.

Import SelectUtils.

(** [self.select_results] (Bulk) or [self.results] (REST), and
    [self.job_result], when [select_records] returns. *)
Record Selected : Type := mkSelected {
  select_results : list Assignment;
  select_job_result : DataOperationJobResult
}.

(** [{record[query_fields.index("Id")]: record for record in records}],
    continued from [m]. *)
Fixpoint id_to_record_map (query_fields : list string) (records : list Row)
    (m : gmap string Row) : Py.Exc (gmap string Row) :=
  match records with
  | [] => Py.ret m
  | record :: records =>
      do i <- index_of "Id" query_fields;
      do key <- item record i;
      id_to_record_map query_fields records (<[key := record]> m)
  end.

(** The records of the select query whose id the user query returned, in
    the order of the user query. *)
Definition intersect (query_fields : list string) (user_query_ids : list string)
    (select_query_records : list Row) : Py.Exc (list Row) :=
  do m <- id_to_record_map query_fields select_query_records ∅;
  Py.ret (omap (fun id => m !! id) user_query_ids).

(** [list(record[0] for record in rows)] *)
Fixpoint first_columns (rows : list Row) : Py.Exc (list string) :=
  match rows with
  | [] => Py.ret []
  | record :: rows =>
      do id <- item record 0;
      do ids <- first_columns rows;
      Py.ret (id :: ids)
  end.

(** The end of [select_records], after the loop: post-processing and the
    job result. *)
Definition finish (h : Helpers) (self : DmlOperation)
    (records : list LoadRecord) (query_records : list Row) (num_records : Z)
  : Selected :=
  let '(selected_records, error_message) :=
    select_post_process h (selection_strategy self) records query_records
      num_records (sobject self) in
  let results := if truthy error_message then [] else selected_records in
  mkSelected results
    (mkJobResult
       (if Z.of_nat (length results) =? 0 then JOB_FAILURE else SUCCESS)
       (match error_message with
        | Some (String _ _ as m) => [m]
        | _ => []
        end)
       (Z.of_nat (length results))
       0).

End Selection.

(** ** BulkApiDmlOperation.select_records *)

Module BulkSelect.

Import SelectUtils Selection.

(** One result file of a Bulk query: its header row and its rows. *)
Record ResultFile : Type := mkFile {
  headers : Row;
  rows : list Row
}.

(** The org behind the Bulk API: the result files of a query.  The org may
    change between the rounds of the select loop; the first argument is the
    [offset] of the round. *)
Record BulkOrg : Type := mkBulkOrg {
  bulk_query : Z -> string -> list ResultFile
}.

(** [BulkApiQueryOperation.get_results] *)
Fixpoint get_results (files : list ResultFile) : list Row :=
  match files with
  | [] => []
  | f :: files =>
      if Py.contains "Records not found for this query" (headers f) then []
      else (rows f ++ get_results files)%list
  end.

(** The loop of [_execute_select_query] over the result files. *)
Fixpoint select_rows (width : nat) (files : list ResultFile) : list Row :=
  match files with
  | [] => []
  | f :: files =>
      if Py.contains "Records not found for this query" (headers f) then []
      else (map (take width) (rows f) ++ select_rows width files)%list
  end.

Definition _execute_select_query (org : BulkOrg) (round : Z)
    (select_query : string) (query_fields : list string) : list Row :=
  select_rows (length query_fields) (bulk_query org round select_query).

(** One round of the loop: the new [query_records] and the [num_records]
    the round binds. *)
Definition select_round (h : Helpers) (org : BulkOrg) (self : DmlOperation)
    (total_num_records offset : Z) (query_records : list Row)
  : Py.Exc (list Row * Z) :=
  let num_records := Z.min (api_batch_size self) (total_num_records - offset) in
  let '(select_query, query_fields) :=
    select_generate_query h (selection_strategy self) (sobject self)
      (fields self) num_records None in
  do user_query_ids <-
    (if truthy (selection_filter self) then
       let user_query :=
         generate_user_filter_query (default "" (selection_filter self))
           (sobject self) ["Id"] (Some num_records) None in
       first_columns (get_results (bulk_query org offset user_query))
     else Py.ret []);
  let select_query_records :=
    _execute_select_query org offset select_query query_fields in
  if truthy (selection_filter self) then
    do found <- intersect query_fields user_query_ids select_query_records;
    Py.ret ((query_records ++ found)%list, num_records)
  else
    Py.ret ((query_records ++ select_query_records)%list, num_records).

(** The [for offset in range(...)] loop.  [num_records] is a local of
    [select_records] that only the loop body binds: [None] until then. *)
Fixpoint select_loop (h : Helpers) (org : BulkOrg) (self : DmlOperation)
    (total_num_records : Z) (offsets : list Z)
    (query_records : list Row) (num_records : option Z)
  : Py.Exc (list Row * option Z) :=
  match offsets with
  | [] => Py.ret (query_records, num_records)
  | offset :: offsets =>
      do st <- select_round h org self total_num_records offset query_records;
      select_loop h org self total_num_records offsets st.1 (Some st.2)
  end.

Definition select_records (h : Helpers) (org : BulkOrg) (self : DmlOperation)
    (records : list LoadRecord) : Py.Exc Selected :=
  let total_num_records := Z.of_nat (length records) in
  do offsets <- range0 total_num_records (api_batch_size self);
  do st <- select_loop h org self total_num_records offsets [] None;
  let query_records := st.1 in
  do num_records <-
    match st.2 with
    | Some n => Py.ret n
    | None => Py.raise (Py.UnboundLocalError "num_records")
    end;
  Py.ret (finish h self records query_records num_records).

End BulkSelect.

(** ** RestApiDmlOperation *)

Module RestApiDml.

Import SelectUtils Selection.

Definition DEFAULT_REST_BATCH_SIZE : Z := 200.
Definition MAX_REST_BATCH_SIZE : Z := 200.

(** [min(api_options.get("batch_size") or DEFAULT_REST_BATCH_SIZE,
    MAX_REST_BATCH_SIZE)] *)
Definition init_batch_size (requested : option Z) : Z :=
  Z.min (match requested with
         | Some b => if b =? 0 then DEFAULT_REST_BATCH_SIZE else b
         | None => DEFAULT_REST_BATCH_SIZE
         end) MAX_REST_BATCH_SIZE.

(** A value of a record in a query answer. *)
Inductive QueryVal : Type :=
| QNull
| QStr (s : string)
| QInt (n : Z)
| QBool (b : bool).

(** A value of a record in a request body. *)
Inductive JsonVal : Type :=
| JNull
| JStr (s : string)
| JBool (b : bool)
| JAttributes (type : string).

Global Instance JsonVal_eq_dec : EqDecision JsonVal.
Proof. solve_decision. Defined.

Record SubResponse : Type := mkSub {
  referenceId : string;
  httpStatusCode : Z;
  body_records : list (gmap string QueryVal);
  body_errorCode : string;
  body_message : string
}.

Record RestError : Type := mkRestError {
  statusCode : string;
  message : string;
  error_fields : list string
}.

(** One entry of the answer to a [composite/sobjects] request. *)
Record RestResult : Type := mkRestResult {
  r_id : option string;
  r_success : bool;
  r_errors : list RestError;
  r_created : option bool
}.

Record Request : Type := mkRequest {
  url : string;
  method : string;
  json : option (list (gmap string JsonVal))
}.

(** The org behind the REST API.  The first argument of a query is the
    [offset] of the round of the select loop that sends it, the first
    argument of [composite_sobjects] the number of the chunk. *)
Record RestOrg : Type := mkRestOrg {
  rest_query : Z -> string -> list (gmap string QueryVal);
  composite : Z -> string -> string -> list SubResponse;
  composite_sobjects : nat -> Request -> list RestResult
}.

(** What [select_records] or [load_records] leaves in [self]. *)
Record Loaded : Type := mkLoaded {
  results : list RestResult;
  job_result : DataOperationJobResult
}.

Definition str_of (v : QueryVal) : string :=
  match v with
  | QNull => ""
  | QStr s => s
  | QInt n => Py.str n
  | QBool true => "True"
  | QBool false => "False"
  end.

(** [convert(rec, fields)] *)
Fixpoint convert (rec : gmap string QueryVal) (fields : list string)
  : Py.Exc Row :=
  match fields with
  | [] => Py.ret []
  | f :: fields =>
      match rec !! f with
      | None => Py.raise (Py.KeyError f)
      | Some v => do rest <- convert rec fields; Py.ret (str_of v :: rest)
      end
  end.

Fixpoint convert_all (recs : list (gmap string QueryVal)) (fields : list string)
  : Py.Exc (list Row) :=
  match recs with
  | [] => Py.ret []
  | rec :: recs =>
      do row <- convert rec fields;
      do rows <- convert_all recs fields;
      Py.ret (row :: rows)
  end.

(** The loop of [_execute_composite_query] over the sub-responses; the two
    locals are unbound until a branch binds them. *)
Fixpoint scan_composite (query_fields : list string)
    (subs : list SubResponse)
    (select_query_records user_query_records : option (list Row))
  : Py.Exc (option (list Row) * option (list Row)) :=
  match subs with
  | [] => Py.ret (select_query_records, user_query_records)
  | sub :: subs =>
      if String.eqb (referenceId sub) "select_query"
         && (httpStatusCode sub =? 200) then
        do rows <- convert_all (body_records sub) query_fields;
        scan_composite query_fields subs (Some rows) user_query_records
      else if String.eqb (referenceId sub) "user_query"
              && (httpStatusCode sub =? 200) then
        do rows <- convert_all (body_records sub) ["Id"];
        scan_composite query_fields subs select_query_records (Some rows)
      else
        Py.raise (Py.SOQLQueryException
                    (body_errorCode sub ++ ": " ++ body_message sub))
  end.

Definition _execute_composite_query (org : RestOrg) (round : Z)
    (select_query user_query : string) (query_fields : list string)
  : Py.Exc (list Row) :=
  do st <- scan_composite query_fields
             (composite org round select_query user_query) None None;
  do user_query_records <-
    match st.2 with
    | Some r => Py.ret r
    | None => Py.raise (Py.UnboundLocalError "user_query_records")
    end;
  do user_query_ids <- first_columns user_query_records;
  do select_query_records <-
    match st.1 with
    | Some r => Py.ret r
    | None => Py.raise (Py.UnboundLocalError "select_query_records")
    end;
  intersect query_fields user_query_ids select_query_records.

Definition select_round (h : Helpers) (org : RestOrg) (self : DmlOperation)
    (total_num_records offset : Z) (query_records : list Row)
  : Py.Exc (list Row) :=
  let num_records := Z.min (api_batch_size self) (total_num_records - offset) in
  let '(select_query, query_fields) :=
    select_generate_query h (selection_strategy self) (sobject self)
      (fields self) num_records (Some offset) in
  if truthy (selection_filter self) then
    let user_query :=
      generate_user_filter_query (default "" (selection_filter self))
        (sobject self) ["Id"] (Some num_records) (Some offset) in
    do found <- _execute_composite_query org offset select_query user_query
                  query_fields;
    Py.ret (query_records ++ found)%list
  else
    do rows <- convert_all (rest_query org offset select_query) query_fields;
    Py.ret (query_records ++ rows)%list.

Fixpoint select_loop (h : Helpers) (org : RestOrg) (self : DmlOperation)
    (total_num_records : Z) (offsets : list Z) (query_records : list Row)
  : Py.Exc (list Row) :=
  match offsets with
  | [] => Py.ret query_records
  | offset :: offsets =>
      do query_records <-
        select_round h org self total_num_records offset query_records;
      select_loop h org self total_num_records offsets query_records
  end.

Definition select_records (h : Helpers) (org : RestOrg) (self : DmlOperation)
    (records : list LoadRecord) : Py.Exc Selected :=
  let total_num_records := Z.of_nat (length records) in
  do offsets <- range0 total_num_records (api_batch_size self);
  do query_records <- select_loop h org self total_num_records offsets [];
  Py.ret (finish h self records query_records total_num_records).

(** [dict(zip(self.fields, rec))]: a later pair replaces an earlier one. *)
Definition zip_dict (fields : list string) (rec : LoadRecord)
  : gmap string JsonVal :=
  fold_left
    (fun m kv => <[kv.1 := match kv.2 with Some s => JStr s | None => JNull end]> m)
    (zip fields rec) ∅.

(** [result[boolean_field] or False], as the argument of
    [process_bool_arg]. *)
Definition or_False (v : JsonVal) : BoolArg :=
  match v with
  | JStr (String _ _ as s) => ArgStr s
  | JBool b => ArgBool b
  | _ => ArgBool false
  end.

Fixpoint convert_booleans (h : Helpers) (boolean_fields : list string)
    (result : gmap string JsonVal) : Py.Exc (gmap string JsonVal) :=
  match boolean_fields with
  | [] => Py.ret result
  | boolean_field :: rest =>
      match result !! boolean_field with
      | None => Py.raise (Py.KeyError boolean_field)
      | Some v =>
          match process_bool_arg h (or_False v) with
          | inl (Py.TypeError msg) => Py.raise (Py.BulkDataException msg)
          | inl e => Py.raise e
          | inr b => convert_booleans h rest (<[boolean_field := JBool b]> result)
          end
      end
  end.

Definition _record_to_json (h : Helpers) (self : DmlOperation) (rec : LoadRecord)
  : Py.Exc (gmap string JsonVal) :=
  let result := zip_dict (fields self) rec in
  do result <- convert_booleans h (boolean_fields self) result;
  let result :=
    match operation self with
    | INSERT => filter (fun kv => kv.2 ≠ JNull ∧ kv.2 ≠ JStr "") result
    | UPDATE | UPSERT =>
        (fun v => if decide (v = JStr "") then JNull else v) <$> result
    | _ => result
    end in
  Py.ret (<["attributes" := JAttributes (sobject self)]> result).

Fixpoint records_to_json (h : Helpers) (self : DmlOperation)
    (chunk : list LoadRecord) : Py.Exc (list (gmap string JsonVal)) :=
  match chunk with
  | [] => Py.ret []
  | rec :: chunk =>
      do j <- _record_to_json h self rec;
      do js <- records_to_json h self chunk;
      Py.ret (j :: js)
  end.

(** [self._record_to_json(rec)["Id"] for rec in chunk], as [",".join]
    takes it: strings only. *)
Fixpoint ids_of (h : Helpers) (self : DmlOperation) (chunk : list LoadRecord)
  : Py.Exc (list string) :=
  match chunk with
  | [] => Py.ret []
  | rec :: chunk =>
      do j <- _record_to_json h self rec;
      do id <- match j !! "Id" with
               | None => Py.raise (Py.KeyError "Id")
               | Some (JStr s) => Py.ret s
               | Some _ => Py.raise (Py.TypeError "sequence item: expected str instance")
               end;
      do ids <- ids_of h self chunk;
      Py.ret (id :: ids)
  end.

(** The [method] table of [load_records]. *)
Definition method_of (op : DataOperationType) : Py.Exc string :=
  match op with
  | INSERT => Py.ret "POST"
  | UPDATE => Py.ret "PATCH"
  | DELETE => Py.ret "DELETE"
  | UPSERT => Py.ret "PATCH"
  | _ => Py.raise (Py.KeyError "operation")
  end.

(** The request [load_records] sends for one chunk. *)
Definition request_of (h : Helpers) (self : DmlOperation) (method : string)
    (chunk : list LoadRecord) : Py.Exc Request :=
  if bool_decide (operation self = DELETE) then
    do ids <- ids_of h self chunk;
    Py.ret (mkRequest ("composite/sobjects" ++ "?ids=" ++ Py.join "," ids)
              method None)
  else
    do url_string <-
      (match update_key self with
       | Some (String _ _ as key) =>
           if bool_decide (operation self = UPSERT)
           then Py.ret ("/" ++ sobject self ++ "/" ++ key)
           else Py.raise (Py.AssertionError "")
       | _ => Py.ret ""
       end);
    do recs <- records_to_json h self chunk;
    Py.ret (mkRequest ("composite/sobjects" ++ url_string) method (Some recs)).

(** The loop of [load_records] over the chunks: [self.results] grows by the
    answer to each request. *)
Fixpoint load_chunks (h : Helpers) (org : RestOrg) (self : DmlOperation)
    (method : string) (k : nat) (chunks : list (list LoadRecord))
    (results : list RestResult) : Py.Exc (list RestResult) :=
  match chunks with
  | [] => Py.ret results
  | chunk :: chunks =>
      do req <- request_of h self method chunk;
      load_chunks h org self method (S k) chunks
        (results ++ composite_sobjects org k req)%list
  end.

Definition load_records (h : Helpers) (org : RestOrg) (self : DmlOperation)
    (records : list LoadRecord) : Py.Exc Loaded :=
  do method <- method_of (operation self);
  do results <-
    load_chunks h org self method 0
      (iterate_in_chunks (api_batch_size self) records) [];
  let row_errors :=
    Z.of_nat (length (filter (fun res => r_success res = false) results)) in
  Py.ret (mkLoaded results
            (mkJobResult (if row_errors =? 0 then SUCCESS else ROW_FAILURE)
               [] (Z.of_nat (length results)) row_errors)).

(** [_convert] of [get_results]. *)
Definition _convert (self : DmlOperation) (res : RestResult)
  : DataOperationResult :=
  let errors :=
    Py.join (String (ascii_of_nat 10) "")
      (map (fun e => statusCode e ++ ": " ++ message e ++ " ("
                     ++ Py.join "," (error_fields e) ++ ")")
           (r_errors res)) in
  let created :=
    match operation self with
    | INSERT => Some true
    | UPDATE => Some false
    | _ => r_created res
    end in
  mkResult (r_id res) (r_success res) (Some errors) created.

Definition get_results (self : DmlOperation) (loaded : Loaded)
  : list DataOperationResult :=
  map (_convert self) (results loaded).

End RestApiDml.

(** ** Notions the statements below use *)

(** The serialized size of a batch: the bytes of all its rows, the header
    row included. *)
Definition batch_chars (batch : list string) : Z :=
  foldr (fun row acc => BulkApiDml.len row + acc) 0 batch.

(** The data rows of a batch: all rows but the header. *)
Definition data_rows (batch : list string) : list string := tail batch.

(** A batch as the batching promises it: the header row, then between one
    and [n] data rows, all within the character limit. *)
Definition well_sized (hdr : string) (n char_limit : Z) (batch : list string)
  : Prop :=
  exists data, batch = hdr :: data /\ data <> []
               /\ Z.of_nat (length data) <= n
               /\ batch_chars batch <= char_limit.

(** The requests [load_records] sends, one per chunk, in order. *)
Fixpoint requests_of (h : Helpers) (self : DmlOperation) (method : string)
    (chunks : list (list LoadRecord)) : Py.Exc (list RestApiDml.Request) :=
  match chunks with
  | [] => Py.ret []
  | chunk :: chunks =>
      do req <- RestApiDml.request_of h self method chunk;
      do reqs <- requests_of h self method chunks;
      Py.ret (req :: reqs)
  end.

(** The answers of the org to the requests, numbered from [k], one after the
    other. *)
Fixpoint answers_from (org : RestApiDml.RestOrg) (k : nat)
    (reqs : list RestApiDml.Request) : list RestApiDml.RestResult :=
  match reqs with
  | [] => []
  | req :: reqs =>
      (RestApiDml.composite_sobjects org k req ++ answers_from org (S k) reqs)%list
  end.

(** Every character of [s] satisfies [p]. *)
Fixpoint all_chars (p : ascii -> bool) (s : string) : bool :=
  match s with
  | EmptyString => true
  | String c s' => p c && all_chars p s'
  end.

(** [s] starts with a character that satisfies [p]. *)
Definition starts_with (p : ascii -> bool) (s : string) : bool :=
  match s with
  | EmptyString => false
  | String c _ => p c
  end.

(** A character a keyword is made of: neither whitespace nor a digit. *)
Definition plain (c : ascii) : bool :=
  negb (Text.is_space c) && negb (Text.is_digit c).

(** No nonempty suffix of [p], continued by [r], starts a match. *)
Definition quiet (at_head : string -> bool) (p r : string) : Prop :=
  forall a b, p = a ++ b -> b <> "" -> at_head (b ++ r) = false.

(** A match of [KW\s+(\d+)] starts at the head of [s]. *)
Definition search_head (kw s : string) : bool :=
  bool_decide (Text.clause_at kw s <> None).

(** A match of [\s+KW\s+\d+\s*] starts at the head of [s]. *)
Definition sub_head (kw s : string) : bool :=
  bool_decide (Text.padded_clause_at kw s <> None).

(** The characters of [s] differ from [k0], the letter case ignored. *)
Definition foreign (k0 : ascii) (s : string) : Prop :=
  all_chars (fun c => negb (Text.eq_nocase k0 c)) s = true.

(** A [LIMIT n] or [OFFSET n] clause as a user writes it in a filter:
    whitespace, the word, whitespace, the digits. *)
Record Clause : Type := mkClause {
  lead : string;
  word : string;
  gap : string;
  digits : string
}.

Definition clause_text (c : Clause) : string :=
  lead c ++ word c ++ gap c ++ digits c.

Definition clause_value (c : Clause) : Z := Text.int_of_digits (digits c).

Definition is_clause (kw : string) (c : Clause) : Prop :=
  all_chars Text.is_space (lead c) = true /\ lead c <> ""
  /\ Text.match_kw kw (word c) = Some ""
  /\ all_chars Text.is_space (gap c) = true /\ gap c <> ""
  /\ all_chars Text.is_digit (digits c) = true /\ digits c <> "".

Definition optional_clause (kw : string) (c : option Clause) : Prop :=
  match c with
  | Some c => is_clause kw c
  | None => True
  end.

Definition optional_text (c : option Clause) : string :=
  match c with
  | Some c => clause_text c
  | None => ""
  end.

(** The condition of a filter: not empty, no whitespace at its ends, and
    nowhere in it the word LIMIT or OFFSET followed by whitespace and a
    digit: the condition holds no clause that [re.search] would read. *)
Definition is_condition (body : string) : Prop :=
  body <> "" /\ Text.lstrip body = body /\ Text.rstrip body = body
  /\ Text.search_clause "LIMIT" body = None
  /\ Text.search_clause "OFFSET" body = None.

(** The clauses of a filter, in the order they are written. *)
Definition clauses_text (offset_first : bool) (l o : option Clause) : string :=
  if offset_first then optional_text o ++ optional_text l
  else optional_text l ++ optional_text o.

(** The limit of the merged query: the smaller of the two, or the one there
    is. *)
Definition merged_limit (existing requested : option Z) : option Z :=
  match existing, requested with
  | Some e, Some l => Some (Z.min e l)
  | Some e, None => Some e
  | None, _ => requested
  end.

(** The offset of the merged query: the sum of the two, or the one there
    is. *)
Definition merged_offset (existing requested : option Z) : option Z :=
  match existing, requested with
  | Some e, Some o => Some (e + o)
  | Some e, None => Some e
  | None, _ => requested
  end.

(** The normalized clause the merged query ends with. *)
Definition clause_suffix (kw : string) (v : option Z) : string :=
  match v with
  | Some v => " " ++ kw ++ " " ++ Py.str v
  | None => ""
  end.

(** The candidate set a Bulk selection retrieves: the [query_records] at the
    end of the loop of [select_records]. *)
Definition bulk_candidates (h : Helpers) (org : BulkSelect.BulkOrg)
    (self : DmlOperation) (records : list LoadRecord) : Py.Exc (list Row) :=
  let total_num_records := Z.of_nat (length records) in
  do offsets <- range0 total_num_records (api_batch_size self);
  do st <- BulkSelect.select_loop h org self total_num_records offsets [] None;
  Py.ret st.1.

(** The candidate set a REST selection retrieves. *)
Definition rest_candidates (h : Helpers) (org : RestApiDml.RestOrg)
    (self : DmlOperation) (records : list LoadRecord) : Py.Exc (list Row) :=
  let total_num_records := Z.of_nat (length records) in
  do offsets <- range0 total_num_records (api_batch_size self);
  RestApiDml.select_loop h org self total_num_records offsets [].

(** The number of records the last round of the select loop asks for, of
    [total] records in rounds of [batch_size]. *)
Definition last_round_size (total batch_size : Z) : Z :=
  (total - 1) mod batch_size + 1.

(** No two whitespace characters in a row. *)
Fixpoint collapsed (s : string) : bool :=
  match s with
  | String a (String b _ as s') =>
      negb (Text.is_space a && Text.is_space b) && collapsed s'
  | _ => true
  end.

(** ** An org and helpers to run the operations on *)

Module Sample.

(** A stand-in for [process_bool_arg]: the bool itself, the usual
    spellings of a bool, a [TypeError] for the rest. *)
Definition bool_arg (a : BoolArg) : Py.Exc bool :=
  match a with
  | ArgBool b => Py.ret b
  | ArgStr s =>
      if Py.contains s ["true"; "True"; "1"] then Py.ret true
      else if Py.contains s ["false"; "False"; "0"] then Py.ret false
      else Py.raise (Py.TypeError "Cannot interpret as boolean")
  end.

(** A stand-in for [select_generate_query]: the identifier only. *)
Definition generate_query (strategy : SelectStrategy) (sobject : string)
    (fields : list string) (limit : Z) (offset : option Z)
  : string * list string :=
  ("SELECT Id FROM " ++ sobject ++ " LIMIT " ++ Py.str limit
   ++ match offset with Some o => " OFFSET " ++ Py.str o | None => "" end,
   ["Id"]).

Definition helpers : Helpers :=
  mkHelpers bool_arg generate_query (fun _ candidates => nth 0 candidates []).

(** A Contact operation as [__init__] leaves it. *)
Definition contact (op : DataOperationType) (batch_size : Z) : DmlOperation :=
  mkDml "Contact" op ["LastName"; "Email"] batch_size None STANDARD None [].

(** A Bulk org with one Contact, whatever the query. *)
Definition one_contact : BulkSelect.BulkOrg :=
  BulkSelect.mkBulkOrg (fun _ _ => [BulkSelect.mkFile ["Id"] [["003A"]]]).

(** A REST org with one Contact, whatever the query; it inserts the
    records that have a [LastName] and rejects the others. *)
Definition insert_answer (k i : nat) (rec : gmap string RestApiDml.JsonVal)
  : RestApiDml.RestResult :=
  match rec !! "LastName" with
  | Some (RestApiDml.JStr _) =>
      RestApiDml.mkRestResult (Some ("003" ++ Py.str (Z.of_nat (k + i)))) true []
        (Some true)
  | _ =>
      RestApiDml.mkRestResult None false
        [RestApiDml.mkRestError "REQUIRED_FIELD_MISSING"
           "Required fields are missing: [LastName]" ["LastName"]]
        None
  end.

Definition rest_org : RestApiDml.RestOrg :=
  RestApiDml.mkRestOrg
    (fun _ _ => [ {["Id" := RestApiDml.QStr "003A"]} ])
    (fun _ _ _ => [])
    (fun k req => imap (insert_answer k) (default [] (RestApiDml.json req))).

(** Orgs without a Contact. *)
Definition empty_bulk_org : BulkSelect.BulkOrg :=
  BulkSelect.mkBulkOrg
    (fun _ _ => [BulkSelect.mkFile ["Records not found for this query"] []]).

Definition empty_rest_org : RestApiDml.RestOrg :=
  RestApiDml.mkRestOrg (fun _ _ => []) (fun _ _ _ => []) (fun _ _ => []).

Definition three_records : list LoadRecord :=
  [[Some "Ada"; None]; [Some "Bob"; None]; [Some "Cy"; None]].

(** Five Contacts; the third has no last name. *)
Definition five_records : list LoadRecord :=
  [[Some "Ada"; Some "a@example.com"]; [Some "Bob"; None];
   [Some ""; Some "c@example.com"]; [Some "Dee"; None]; [Some "Eve"; None]].

(** A batch list document: two batches done, seven rows, two of them
    failed. *)
Definition two_batches : BulkJobMixin.BatchListXml :=
  BulkJobMixin.mkBatchList ["Completed"; "Completed"] [] [2; 0] [4; 3].

(** A result file of a Bulk insert: one row created, one rejected. *)
Definition result_file : list Row :=
  [["Id"; "Success"; "Created"; "Error"];
   ["003A"; "true"; "true"; ""];
   [""; "false"; "false"; "REQUIRED_FIELD_MISSING:LastName"]].

Definition idle_queue (failed : Z) : Snowfakery.QueueManagerStatus :=
  Snowfakery.mkQueueStatus 0 0 0 0 3 4 failed 0 0 4.

Definition task (failed : Z) : Snowfakery.Task :=
  Snowfakery.mkTask 10 4 60 1 1 (idle_queue failed) ["boom"].

End Sample.

(** The JSON value of a cell of a load record. *)
Definition json_of (x : option string) : RestApiDml.JsonVal :=
  match x with Some s => RestApiDml.JStr s | None => RestApiDml.JNull end.

(** What follows the first field of a row of [csv.writer]: the end of the
    line, or the comma and the fields left. *)
Definition after_field (rest : LoadRecord) : string :=
  match rest with
  | [] => Csv.crlf
  | _ :: _ => "," ++ Csv.writerow rest
  end.

(** ** Further sample operations and orgs *)

Module Scenario.

(** A Lead operation with a boolean field, as [RestApiDmlOperation.__init__]
    leaves it. *)
Definition lead (op : DataOperationType) : DmlOperation :=
  mkDml "Lead" op ["Id"; "LastName"; "Email"; "DoNotCall"] 200 None STANDARD
    None ["DoNotCall"].

(** A REST org that answers both queries of a filtered selection. *)
Definition filtered_org : RestApiDml.RestOrg :=
  RestApiDml.mkRestOrg
    (fun _ _ => [])
    (fun _ _ _ =>
       [RestApiDml.mkSub "select_query" 200
          [ {["Id" := RestApiDml.QStr "003A"]};
            {["Id" := RestApiDml.QStr "003B"]} ] "" "";
        RestApiDml.mkSub "user_query" 200
          [ {["Id" := RestApiDml.QStr "003B"]} ] "" ""])
    (fun _ _ => []).

End Scenario.

(** ** BulkJobMixin._wait_for_job and BulkApiDmlOperation.end *)

Module BulkJob.

Import BulkJobMixin.

(** The loop of [_wait_for_job].  [polls k] is the batch list document the
    org gives at the [k]-th request; between two requests the task sleeps
    ten seconds.  The loop has no bound of its own: [fuel] bounds the
    number of requests, and [None] says it was not enough.  The result comes
    with the number of sleeps. *)
Fixpoint _wait_for_job (fuel : nat) (polls : nat -> BatchListXml) (k : nat)
  : option (DataOperationJobResult * nat) :=
  match fuel with
  | O => None
  | S fuel =>
      let result := _parse_job_state (polls k) in
      if bool_decide (status result = IN_PROGRESS)
      then _wait_for_job fuel polls (S k)
      else Some (result, k)
  end.

(** [BulkApiDmlOperation.end]: the job result afterwards.  A job result is a
    tuple of four, never falsy: [not self.job_result] holds for [None]
    only. *)
Definition end_ (fuel : nat) (polls : nat -> BatchListXml)
    (job_result : option DataOperationJobResult)
  : option DataOperationJobResult :=
  match job_result with
  | Some result => Some result
  | None => fst <$> _wait_for_job fuel polls 0
  end.

End BulkJob.

(** ** BulkApiDmlOperation._get_batch_results *)

Module BulkResults.

Import BulkApiDml.

(** A batch of the job: its id and what [download_file] gives for its
    result file, the rows as [csv.reader] reads them or the exception of
    the download. *)
Record Batch : Type := mkBatch {
  batch_id : string;
  download : Py.Exc (list Row)
}.

Definition failed_to_download (exn_text : Py.exn -> string) (b : Batch)
    (e : Py.exn) : Py.exn :=
  Py.BulkDataException
    ("Failed to download results for batch " ++ batch_id b
     ++ " (" ++ exn_text e ++ ")").

(** [exn_text] is [str] on exceptions. *)
Fixpoint _get_batch_results (h : Helpers) (exn_text : Py.exn -> string)
    (batches : list Batch) : Generated DataOperationResult :=
  match batches with
  | [] => mkGenerated [] None
  | b :: batches =>
      match download b with
      | inl e => mkGenerated [] (Some (failed_to_download exn_text b e))
      | inr file =>
          let g := _parse_batch_results h file in
          match raised g with
          | Some e =>
              mkGenerated (yielded g) (Some (failed_to_download exn_text b e))
          | None =>
              let rest := _get_batch_results h exn_text batches in
              mkGenerated (yielded g ++ yielded rest)%list (raised rest)
          end
      end
  end.

(** What one batch gives by itself. *)
Definition batch_outcome (h : Helpers) (b : Batch)
  : Generated DataOperationResult :=
  match download b with
  | inl e => mkGenerated [] (Some e)
  | inr file => _parse_batch_results h file
  end.

End BulkResults.

(** ** RestApiQueryOperation *)

Module RestApiQuery.

Import RestApiDml BulkApiDml.

(** An answer of [sf.query] or [sf.query_more]. *)
Record Response : Type := mkResponse {
  totalSize : Z;
  records : list (gmap string QueryVal);
  done : bool;
  nextRecordsUrl : option string
}.

(** [query]: the job result it sets. *)
Definition query (response : Response) : DataOperationJobResult :=
  mkJobResult SUCCESS [] (totalSize response) 0.

(** [yield from (convert(rec) for rec in records)] *)
Fixpoint convert_each (recs : list (gmap string QueryVal))
    (fields : list string) : Generated Row :=
  match recs with
  | [] => mkGenerated [] None
  | rec :: recs =>
      match convert rec fields with
      | inl e => mkGenerated [] (Some e)
      | inr row =>
          let g := convert_each recs fields in
          mkGenerated (row :: yielded g) (raised g)
      end
  end.

(** [get_results], from [self.response].  The loop ends with the answer
    that says [done]; [fuel] bounds the number of answers read, and [None]
    says it was not enough. *)
Fixpoint get_results (fuel : nat) (query_more : string -> Response)
    (fields : list string) (response : Response) : option (Generated Row) :=
  match fuel with
  | O => None
  | S fuel =>
      let g := convert_each (records response) fields in
      match raised g with
      | Some e => Some g
      | None =>
          if done response then Some g
          else
            match nextRecordsUrl response with
            | None =>
                Some (mkGenerated (yielded g)
                        (Some (Py.KeyError "nextRecordsUrl")))
            | Some next =>
                match get_results fuel query_more fields (query_more next) with
                | None => None
                | Some rest =>
                    Some (mkGenerated (yielded g ++ yielded rest)%list
                            (raised rest))
                end
            end
      end
  end.

(** The answers [pages] follow each other from [response]: each but the
    last is not done and names the next. *)
Fixpoint chained (query_more : string -> Response) (response : Response)
    (pages : list Response) : Prop :=
  match pages with
  | [] => done response = true
  | page :: pages =>
      done response = false
      /\ (exists next, nextRecordsUrl response = Some next
                       /\ query_more next = page)
      /\ chained query_more page pages
  end.

(** The row of a record that has every field. *)
Definition row_of (fields : list string) (rec : gmap string QueryVal) : Row :=
  map (fun f => str_of (default QNull (rec !! f))) fields.

Definition complete (fields : list string) (response : Response) : Prop :=
  Forall (fun rec => Forall (fun f => is_Some (rec !! f)) fields)
    (records response).

End RestApiQuery.

(** ** snowfakery.py: the running totals *)

Module Totals.

(** [class RunningTotals] *)
Record RunningTotals : Type := mkTotals {
  errors : Z;
  successes : Z
}.

(** One value of [results["step_results"]]. *)
Record StepResult : Type := mkStep {
  step_sobject : string;
  step_records_processed : Z;
  step_total_row_errors : Z
}.

(** A message of the results queue: the step results under its [results]
    key, if it has the key, and whether it has an [error] key. *)
Record Report : Type := mkReport {
  report_results : option (list StepResult);
  report_error : bool
}.

Inductive Warning : Type :=
| ErrorInLoad (report : Report)
| UnexpectedMessage (report : Report).

(** [self.sobject_counts[name]] reads a [defaultdict(RunningTotals)]. *)
Definition totals_of (sobject_counts : gmap string RunningTotals)
    (name : string) : RunningTotals :=
  default (mkTotals 0 0) (sobject_counts !! name).

Definition update_running_totals_from_load_step_results
    (sobject_counts : gmap string RunningTotals)
    (step_results : list StepResult) : gmap string RunningTotals :=
  fold_left
    (fun counts result =>
       let sobject_name := step_sobject result in
       let totals := totals_of counts sobject_name in
       <[sobject_name :=
           mkTotals (errors totals + step_total_row_errors result)
             (successes totals
              + (step_records_processed result - step_total_row_errors result))]>
         counts)
    step_results sobject_counts.

(** [update_running_totals], over the messages in the queue until it is
    empty: the counts and the warnings logged. *)
Fixpoint update_running_totals (sobject_counts : gmap string RunningTotals)
    (queue : list Report) : gmap string RunningTotals * list Warning :=
  match queue with
  | [] => (sobject_counts, [])
  | results :: queue =>
      match report_results results with
      | Some step_results =>
          update_running_totals
            (update_running_totals_from_load_step_results sobject_counts
               step_results) queue
      | None =>
          let '(counts, warnings) := update_running_totals sobject_counts queue in
          (counts,
           (if report_error results then ErrorInLoad results
            else UnexpectedMessage results) :: warnings)
      end
  end.

(** The step results of a queue that are about [name]. *)
Definition steps_of (name : string) (queue : list Report) : list StepResult :=
  filter (fun result => step_sobject result = name)
    (concat (omap report_results queue)).

End Totals.

(** ** snowfakery.py: read_sharding_declarations *)

Module Sharding.

Section Declarations.

(** [ShardDeclaration] comes from snowfakery; a rules file is known by its
    path. *)
Variable ShardDeclaration : Type.

Inductive TaskOptionsError : Type :=
| MultipleShardDeclarations
    (files : list (string * list ShardDeclaration)).

(** [list(dict.fromkeys(l))]: the first occurrence of each item, in
    order. *)
Fixpoint uniqify (seen : list string) (l : list string) : list string :=
  match l with
  | [] => []
  | x :: l =>
      if bool_decide (x ∈ seen) then uniqify seen l
      else x :: uniqify (x :: seen) l
  end.

(** [implicit_rules_file] is [infer_load_file_path(recipe)], [file_exists]
    the file system, [shard_declarations] the [shard_declarations] of the
    parsed file. *)
Definition read_sharding_declarations
    (implicit_rules_file : option string) (file_exists : string -> bool)
    (shard_declarations : string -> option (list ShardDeclaration))
    (loading_rules_files : list string)
  : TaskOptionsError + list ShardDeclaration :=
  let loading_rules_files :=
    match implicit_rules_file with
    | Some file =>
        if file_exists file then (loading_rules_files ++ [file])%list
        else loading_rules_files
    | None => loading_rules_files
    end in
  let loading_rules_files := uniqify [] loading_rules_files in
  let rules_lists :=
    map (fun file => (file, default [] (shard_declarations file)))
      loading_rules_files in
  let rules_lists :=
    filter (fun rules_list => rules_list.2 <> []) rules_lists in
  match rules_lists with
  | _ :: _ :: _ => inl (MultipleShardDeclarations rules_lists)
  | [rules_list] => inr rules_list.2
  | [] => inr []
  end.

End Declarations.

Arguments MultipleShardDeclarations {ShardDeclaration} _.
Arguments read_sharding_declarations {ShardDeclaration} _ _ _ _.

End Sharding.

(** ** snowfakery.py: the wait of finish *)

Module FinishLoop.

Import Snowfakery.

Definition waiting_message (status : QueueManagerStatus) : string :=
  "Waiting for " ++ Py.str (q_sets_being_generated status)
  ++ " data generators, " ++ Py.str (q_sets_being_loaded status)
  ++ " uploads to finish".

(** The loop of [finish], one turn for each answer of
    [queue_manager.get_upload_status()] while the queue manager is not
    finished: turn by turn, the message logged, if any. *)
Fixpoint finish_loop (statuses : list QueueManagerStatus)
    (old_message : option string) (cooldown : Z) : list (option string) :=
  match statuses with
  | [] => []
  | status :: statuses =>
      let msg := waiting_message status in
      if negb (bool_decide (old_message = Some msg)) || (cooldown <? 1) then
        Some msg :: finish_loop statuses (Some msg) 5
      else
        None :: finish_loop statuses old_message (cooldown - 1)
  end.

(** The message last logged after the turns [log], [old_message] before
    them. *)
Definition last_logged (old_message : option string)
    (log : list (option string)) : option string :=
  match last (omap id log) with
  | Some msg => Some msg
  | None => old_message
  end.

End FinishLoop.

(** * Properties *)

(** ** Python prelude *)

Lemma sum_from (l : list Z) (a : Z) : fold_left Z.add l a = a + foldr Z.add 0 l.
Proof.
  revert a; induction l as [|x l IH]; intros a; simpl.
  - lia.
  - rewrite IH. lia.
Qed.

Lemma sum_foldr (l : list Z) : Py.sum l = foldr Z.add 0 l.
Proof. unfold Py.sum. rewrite sum_from. lia. Qed.

Lemma sum_nonneg (l : list Z) : Forall (fun n => 0 <= n) l -> 0 <= foldr Z.add 0 l.
Proof. induction 1; simpl; lia. Qed.

Lemma contains_true (x : string) (l : list string) :
  Py.contains x l = true <-> x ∈ l.
Proof. unfold Py.contains. apply bool_decide_eq_true. Qed.

Lemma contains_false (x : string) (l : list string) :
  Py.contains x l = false <-> x ∉ l.
Proof. unfold Py.contains. apply bool_decide_eq_false. Qed.

(** ** The status of a Bulk job *)

Section JobState.

Import BulkJobMixin.

Variable tree : BatchListXml.

Let failed := foldr Z.add 0 (numberRecordsFailed tree).
Let processed := foldr Z.add 0 (numberRecordsProcessed tree).

Lemma parse_job_state_counts :
  records_processed (_parse_job_state tree) = processed
  /\ total_row_errors (_parse_job_state tree) = failed.
Proof.
  unfold _parse_job_state, failed, processed. rewrite !sum_foldr.
  repeat case_match; simpl; auto.
Qed.

(** The status depends on which states occur, not on their order or
    number. *)
Lemma parse_job_state_status_same_states (tree' : BatchListXml) :
  (forall s, s ∈ state_texts tree <-> s ∈ state_texts tree') ->
  numberRecordsFailed tree = numberRecordsFailed tree' ->
  status (_parse_job_state tree) = status (_parse_job_state tree').
Proof.
  intros Hs Hf. unfold _parse_job_state. rewrite <- Hf.
  assert (Hc : forall x, Py.contains x (state_texts tree)
                         = Py.contains x (state_texts tree')).
  { intros x. unfold Py.contains. apply bool_decide_ext, Hs. }
  rewrite <- !Hc. repeat case_match; reflexivity.
Qed.

End JobState.

(** C4: whatever batch states a job reports (with failed-record counts that
    are not negative), the job result sums the processed and the failed
    records of all batches, and its status follows the precedence: a batch
    "Not Processed" makes it aborted; else a batch "InProgress" or "Queued",
    in progress; else a batch "Failed", a job failure (with the state
    messages); else a failed-record count above zero, a row failure; else
    success. *)
Theorem parse_job_state_precedence (tree : BulkJobMixin.BatchListXml) :
  Forall (fun n => 0 <= n) (BulkJobMixin.numberRecordsFailed tree) ->
  let r := BulkJobMixin._parse_job_state tree in
  let states := BulkJobMixin.state_texts tree in
  let failed := foldr Z.add 0 (BulkJobMixin.numberRecordsFailed tree) in
  records_processed r = foldr Z.add 0 (BulkJobMixin.numberRecordsProcessed tree)
  /\ total_row_errors r = failed
  /\ ("Not Processed" ∈ states -> status r = ABORTED)
  /\ ("Not Processed" ∉ states -> "InProgress" ∈ states \/ "Queued" ∈ states ->
      status r = IN_PROGRESS)
  /\ ("Not Processed" ∉ states -> "InProgress" ∉ states -> "Queued" ∉ states ->
      "Failed" ∈ states ->
      status r = JOB_FAILURE
      /\ job_errors r = BulkJobMixin.stateMessage_texts tree)
  /\ ("Not Processed" ∉ states -> "InProgress" ∉ states -> "Queued" ∉ states ->
      "Failed" ∉ states -> 0 < failed -> status r = ROW_FAILURE)
  /\ ("Not Processed" ∉ states -> "InProgress" ∉ states -> "Queued" ∉ states ->
      "Failed" ∉ states -> ~ 0 < failed -> status r = SUCCESS).
Proof.
  intros Hpos r states failed.
  pose proof (sum_nonneg _ Hpos) as Hge. fold failed in Hge.
  destruct (parse_job_state_counts tree) as [Hp Hf].
  split; [exact Hp|]. split; [exact Hf|].
  subst r. unfold BulkJobMixin._parse_job_state. rewrite !sum_foldr.
  fold failed. fold states.
  repeat split.
  - intros H. apply contains_true in H. rewrite H. reflexivity.
  - intros Hn H. apply contains_false in Hn. rewrite Hn.
    destruct H as [H|H]; apply contains_true in H; rewrite H;
      [|rewrite orb_true_r]; reflexivity.
  - apply contains_false in H, H0, H1. apply contains_true in H2.
    rewrite H, H0, H1, H2. reflexivity.
  - apply contains_false in H, H0, H1. apply contains_true in H2.
    rewrite H, H0, H1, H2. reflexivity.
  - intros H1 H2 H3 H4 Hlt.
    apply contains_false in H1, H2, H3, H4. rewrite H1, H2, H3, H4. simpl.
    destruct (failed =? 0) eqn:E; [lia|reflexivity].
  - intros H1 H2 H3 H4 Hlt.
    apply contains_false in H1, H2, H3, H4. rewrite H1, H2, H3, H4. simpl.
    destruct (failed =? 0) eqn:E; [reflexivity|lia].
Qed.

Lemma parse_job_state_precedence_witness :
  Forall (fun n => 0 <= n) (BulkJobMixin.numberRecordsFailed Sample.two_batches)
  /\ status (BulkJobMixin._parse_job_state Sample.two_batches) = ROW_FAILURE
  /\ records_processed (BulkJobMixin._parse_job_state Sample.two_batches) = 7
  /\ total_row_errors (BulkJobMixin._parse_job_state Sample.two_batches) = 2.
Proof.
  assert (H : Forall (fun n => 0 <= n)
                (BulkJobMixin.numberRecordsFailed Sample.two_batches)).
  { simpl. repeat constructor; lia. }
  destruct (parse_job_state_precedence Sample.two_batches H)
    as (Hp & Hf & _ & _ & _ & Hrow & _).
  split; [exact H|]. split; [|split].
  - apply Hrow; try (intros Hin; apply contains_true in Hin; discriminate).
    simpl. lia.
  - rewrite Hp. reflexivity.
  - rewrite Hf. reflexivity.
Defined.

(** ** The choice of the backend *)

Section Backend.

Import Factory.

Lemma below_42_true (v : Q) : below_42 v = true <-> (v < 42)%Q.
Proof.
  unfold below_42. rewrite negb_true_iff. split.
  - intros H. apply Qnot_le_lt. intros Hle.
    apply Qle_bool_iff in Hle. congruence.
  - intros H. destruct (Qle_bool 42 v) eqn:E; [|reflexivity].
    apply Qle_bool_iff in E. exfalso. apply (Qlt_not_le _ _ H E).
Qed.

Lemma below_42_false (v : Q) : below_42 v = false <-> (42 <= v)%Q.
Proof.
  unfold below_42. rewrite negb_false_iff. apply Qle_bool_iff.
Qed.

(** Whatever the arguments, the factory finds a class: the assertion at its
    end cannot fail. *)
Lemma get_dml_operation_total v op volume api :
  exists c, get_dml_operation v op volume api = inr c.
Proof.
  unfold get_dml_operation, force_bulk_on_old_api.
  destruct api as [[]|]; repeat case_match; eauto; discriminate.
Qed.

(** The query factory decides the same way, on the record count the org
    reports for the sobject. *)
Lemma get_query_operation_smart v sobject record_count api :
  api = None \/ api = Some SMART ->
  get_query_operation v sobject record_count api = inr BulkApiQueryOperation
  <-> (v < 42)%Q
      \/ exists n, sobject_map_of record_count !! sobject = Some n /\ 2000 <= n.
Proof.
  intros Hapi. unfold get_query_operation, force_bulk_on_old_api.
  destruct (below_42 v) eqn:Ev.
  - apply below_42_true in Ev.
    destruct Hapi as [-> | ->]; simpl; intuition.
  - apply below_42_false in Ev.
    assert (Hn : ~ (v < 42)%Q) by (intros H; apply (Qlt_not_le _ _ H Ev)).
    destruct Hapi as [-> | ->]; simpl;
      destruct (sobject_map_of record_count !! sobject) as [n|] eqn:En;
      try destruct (2000 <=? n) eqn:E2; simpl; split;
      try discriminate; try tauto; intros H.
    all: try (right; exists n; split; [reflexivity|lia]).
    all: destruct H as [H|(m & Hm & Hle)]; try tauto;
      try discriminate; try (injection Hm as <-; lia).
Qed.

End Backend.

(** C3, as the code has it: left to itself ([SMART] or no api), the factory
    takes the Bulk class exactly when the volume is at least 2000, or the
    operation is a hard delete, or the API version is below 42.0, and the REST
    class otherwise.  A caller who forces Bulk gets Bulk.  A caller who forces
    REST gets REST from API version 42.0 on, and Bulk below it. *)
Theorem get_dml_operation_choice
    (v : Q) (op : DataOperationType) (volume : Z) (api : option DataApi) :
  let chosen := Factory.get_dml_operation v op volume api in
  let bulk_case := 2000 <= volume \/ op = HARD_DELETE \/ (v < 42)%Q in
  ((api = None \/ api = Some SMART) ->
     (chosen = inr Factory.BulkApiDmlOperation <-> bulk_case)
     /\ (chosen = inr Factory.RestApiDmlOperation <-> ~ bulk_case))
  /\ (api = Some BULK -> chosen = inr Factory.BulkApiDmlOperation)
  /\ (api = Some REST ->
        ((42 <= v)%Q -> chosen = inr Factory.RestApiDmlOperation)
        /\ ((v < 42)%Q -> chosen = inr Factory.BulkApiDmlOperation)).
Proof.
  intros chosen bulk_case. subst chosen bulk_case.
  unfold Factory.get_dml_operation, Factory.force_bulk_on_old_api.
  split; [|split].
  - intros Hapi.
    destruct (Factory.below_42 v) eqn:Ev.
    + apply below_42_true in Ev.
      destruct Hapi as [-> | ->]; simpl; rewrite ?Ev; split; split;
        intros H; try discriminate; tauto.
    + apply below_42_false in Ev.
      assert (Hn : ~ (v < 42)%Q) by (intros H; apply (Qlt_not_le _ _ H Ev)).
      assert (Hb : (2000 <=? volume) || bool_decide (op = HARD_DELETE) = true
                   <-> 2000 <= volume \/ op = HARD_DELETE).
      { rewrite orb_true_iff, Z.leb_le, bool_decide_eq_true. tauto. }
      destruct ((2000 <=? volume) || bool_decide (op = HARD_DELETE)) eqn:E;
        destruct Hapi as [-> | ->]; simpl; rewrite ?E; split; split;
        intros H; try discriminate; try reflexivity; try tauto.
      all: try (exfalso; destruct Hb as [Hb1 Hb2];
                first [ apply H; apply Hb1 in E; tauto
                      | assert (false = true) by tauto; discriminate
                      | tauto ]).
      all: try (intros Hc; assert (false = true) by tauto; discriminate).
  - intros ->. reflexivity.
  - intros ->. split; intros H.
    + apply below_42_false in H. rewrite H. reflexivity.
    + apply below_42_true in H. rewrite H. reflexivity.
Qed.

(** C3, as the claim has it, fails: on an org at API version 41.0 a caller
    who forces the REST backend gets the Bulk one. *)
Lemma forced_rest_on_old_api_gets_bulk :
  Factory.get_dml_operation 41 INSERT 10 (Some REST)
    = inr Factory.BulkApiDmlOperation
  /\ Factory.get_dml_operation 41 INSERT 10 (Some REST)
     <> inr Factory.RestApiDmlOperation.
Proof. split; [reflexivity|discriminate]. Qed.

(** ** The status report of the run loop *)

Lemma report_status_logs_failures (self : Snowfakery.Task) (bs : option Z) :
  Snowfakery.q_sets_failed (Snowfakery.queue_status self) <> 0 ->
  forall d, d ∈ Snowfakery.failure_descriptions self ->
    Snowfakery.FailureLine d ∈ (Snowfakery._report_status self bs).1.
Proof.
  intros Hne d Hd. unfold Snowfakery._report_status. simpl.
  apply Z.eqb_neq in Hne. rewrite Hne. simpl.
  assert (Hin : Snowfakery.FailureLine d
                ∈ Snowfakery.ProgressBanner
                  :: Snowfakery.StatusDisplay
                       (Snowfakery.get_upload_status self (default 0 bs))
                  :: Snowfakery.log_failures self).
  { do 2 apply list_elem_of_further. unfold Snowfakery.log_failures.
    apply list_elem_of_fmap. exists d. auto. }
  case_match; exact Hin.
Qed.

(** C9: the error threshold is zero, and the status report raises the
    exception that names the failed-set count and the threshold exactly when
    [sets_failed] is above the threshold; otherwise it returns the status. *)
Theorem report_status_raises_iff_over_threshold
    (self : Snowfakery.Task) (batch_size : option Z) :
  let upload_status := Snowfakery.get_upload_status self (default 0 batch_size) in
  let outcome := (Snowfakery._report_status self batch_size).2 in
  Snowfakery.ERROR_THRESHOLD = 0
  /\ (outcome
      = inl (Py.BulkDataException
               ("Errors exceeded threshold: "
                ++ Py.str (Snowfakery.sets_failed upload_status) ++ " vs 0"))
      <-> Snowfakery.ERROR_THRESHOLD < Snowfakery.sets_failed upload_status)
  /\ (outcome = inr upload_status
      <-> Snowfakery.sets_failed upload_status <= Snowfakery.ERROR_THRESHOLD)
  /\ ((exists e, outcome = inl e)
      <-> Snowfakery.ERROR_THRESHOLD < Snowfakery.sets_failed upload_status).
Proof.
  intros upload_status outcome.
  assert (Hout : outcome
    = if Snowfakery.ERROR_THRESHOLD <? Snowfakery.sets_failed upload_status
      then inl (Py.BulkDataException
                  ("Errors exceeded threshold: "
                   ++ Py.str (Snowfakery.sets_failed upload_status) ++ " vs 0"))
      else inr upload_status).
  { subst outcome. unfold Snowfakery._report_status. fold upload_status.
    destruct (Snowfakery.ERROR_THRESHOLD <? Snowfakery.sets_failed upload_status);
      reflexivity. }
  rewrite Hout. clear Hout outcome.
  generalize (Snowfakery.sets_failed upload_status) as failed. intros failed.
  split; [reflexivity|].
  destruct (Snowfakery.ERROR_THRESHOLD <? failed) eqn:E.
  - apply Z.ltb_lt in E. split; [|split]; split; intros H;
      try discriminate; try assumption; try reflexivity; try lia.
    eexists; reflexivity.
  - apply Z.ltb_ge in E. split; [|split]; split; intros H;
      try discriminate; try assumption; try reflexivity; try lia.
    destruct H as [e He]. discriminate.
Qed.

(** Two failed sets end the run; none lets it go on. *)
Example report_status_two_failed_sets :
  (Snowfakery._report_status (Sample.task 2) None).2
  = inl (Py.BulkDataException "Errors exceeded threshold: 2 vs 0").
Proof. vm_compute. reflexivity. Qed.

Example report_status_no_failed_set :
  exists upload_status,
    (Snowfakery._report_status (Sample.task 0) (Some 2000)).2 = inr upload_status
    /\ Snowfakery.sets_failed upload_status = 0
    /\ Snowfakery.total_sets_working_on_or_uploaded upload_status = 4.
Proof. eexists. repeat split. Qed.

(** ** The identifier of a row outcome *)

(** The selection results of the Bulk backend carry a string: the id, or the
    empty string for a row that failed. *)
Lemma query_result_row_id_is_str (h : Helpers) row r :
  BulkApiDml.query_result_row h row = inr r ->
  exists s, res_id r = Some s /\ (res_success r = false -> s = "").
Proof.
  unfold BulkApiDml.query_result_row, Py.bind, Py.ret.
  destruct (process_bool_arg h (ArgBool (SelectUtils.a_success row)))
    as [e|success]; [discriminate|].
  destruct (process_bool_arg h (ArgBool (SelectUtils.a_created row)))
    as [e|created]; [discriminate|].
  intros [= <-]. simpl. eexists. split; [reflexivity|].
  intros ->. reflexivity.
Qed.

(** The REST backend hands on the id of the answer, null or not. *)
Lemma rest_convert_id (self : DmlOperation) (res : RestApiDml.RestResult) :
  res_id (RestApiDml._convert self res) = RestApiDml.r_id res.
Proof. reflexivity. Qed.

(** A row of a Bulk result file: the id column when the row succeeded,
    [None] when it failed, whatever the id column holds. *)
Lemma parse_result_row_id (h : Helpers) (row : Row) (r : DataOperationResult) :
  BulkApiDml.parse_result_row h row = inr r ->
  if res_success r
  then exists s, row !! 0%nat = Some s /\ res_id r = Some s
  else res_id r = None.
Proof.
  unfold BulkApiDml.parse_result_row, Py.bind, Py.ret.
  destruct (item row 1) as [e|r1]; [discriminate|].
  destruct (process_bool_arg h (ArgStr r1)) as [e|success]; [discriminate|].
  destruct (item row 2) as [e|r2]; [discriminate|].
  destruct (process_bool_arg h (ArgStr r2)) as [e|created]; [discriminate|].
  destruct success; simpl.
  - unfold item. destruct (row !! 0%nat) as [r0|] eqn:E0; [|discriminate].
    cbn. intros [= <-]. cbn. eauto.
  - destruct (item row 3); [discriminate|]. intros [= <-]. reflexivity.
Qed.

(** C5, as the code has it.  The identifier of a row outcome read from the
    result file of a Bulk batch is the id column of the row, a string, when
    the row succeeded, and [None], not a string, when it failed.  On the
    Bulk select path it is a string, the empty one for a row that failed;
    and the REST backend hands on the id of the answer of the org, [None]
    when the answer has none. *)
Theorem row_outcome_identifier (h : Helpers) :
  (forall file,
     Forall (fun r => if res_success r
                      then exists s, res_id r = Some s
                      else res_id r = None)
       (BulkApiDml.yielded (BulkApiDml._parse_batch_results h file)))
  /\ (forall row r,
        BulkApiDml.parse_result_row h row = inr r ->
        if res_success r
        then exists s, row !! 0%nat = Some s /\ res_id r = Some s
        else res_id r = None)
  /\ (forall select_results,
        Forall (fun r => exists s, res_id r = Some s
                                   /\ (res_success r = false -> s = ""))
          (BulkApiDml.yielded (BulkApiDml._get_query_results h select_results)))
  /\ (forall self loaded,
        map res_id (RestApiDml.get_results self loaded)
        = map RestApiDml.r_id (RestApiDml.results loaded)).
Proof.
  split; [|split; [|split]].
  - intros [|header rows]; cbn [BulkApiDml._parse_batch_results];
      [constructor|].
    induction rows as [|row rows IH]; cbn [BulkApiDml.parse_result_rows];
      [constructor|].
    destruct (BulkApiDml.parse_result_row h row) as [e|r] eqn:Er;
      cbn [BulkApiDml.yielded]; [constructor|].
    constructor; [|exact IH].
    pose proof (parse_result_row_id h row r Er) as Hid.
    destruct (res_success r); [|exact Hid].
    destruct Hid as (s & _ & Hs). eauto.
  - apply parse_result_row_id.
  - induction select_results as [|row rest IH];
      cbn [BulkApiDml._get_query_results]; [constructor|].
    destruct (BulkApiDml.query_result_row h row) as [e|r] eqn:Er;
      cbn [BulkApiDml.yielded]; [constructor|].
    constructor; [|exact IH]. exact (query_result_row_id_is_str h row r Er).
  - intros self loaded. unfold RestApiDml.get_results.
    induction (RestApiDml.results loaded) as [|res l IH]; [reflexivity|].
    cbn [map]. rewrite IH, rest_convert_id. reflexivity.
Qed.

Lemma row_outcome_identifier_witness :
  Forall (fun r => if res_success r
                   then exists s, res_id r = Some s
                   else res_id r = None)
    (BulkApiDml.yielded
       (BulkApiDml._parse_batch_results Sample.helpers Sample.result_file)).
Proof.
  exact (proj1 (row_outcome_identifier Sample.helpers) Sample.result_file).
Defined.

(** C5, as the claim has it, fails: the identifier of the failed row of this
    result file is [None], so not every identifier is a string. *)
Lemma failed_row_identifier_is_no_string :
  BulkApiDml.yielded (BulkApiDml._parse_batch_results Sample.helpers Sample.result_file)
  = [ mkResult (Some "003A") true None (Some true);
      mkResult None false (Some "REQUIRED_FIELD_MISSING:LastName") (Some false) ]
  /\ ~ Forall (fun r => exists s, res_id r = Some s)
         (BulkApiDml.yielded
            (BulkApiDml._parse_batch_results Sample.helpers Sample.result_file)).
Proof.
  split; [reflexivity|].
  intros H. apply Forall_cons in H as [_ H]. apply Forall_cons in H as [H _].
  destruct H as [s H]. discriminate H.
Qed.

(** ** Batches of a Bulk upload *)

Section Batches.

Import BulkApiDml.

Variable hdr : string.
Variables n char_limit : Z.

Lemma batch_chars_snoc (batch : list string) (row : string) :
  batch_chars (batch ++ [row]) = batch_chars batch + len row.
Proof.
  unfold batch_chars. induction batch as [|x batch IH]; simpl.
  - lia.
  - rewrite IH. lia.
Qed.

Lemma len_nonneg (s : string) : 0 <= len s.
Proof. unfold len. lia. Qed.

(** The invariant of the loop: the batch under construction is the header
    and fewer than [n] rows, [current_chars] is its size, and the size is
    within the limit as soon as the batch holds a row. *)
Local Ltac rows_done :=
  unfold data_rows; cbn [tail app]; rewrite <- ?List.app_assoc;
  cbn [app]; reflexivity.

Lemma _batch_loop_spec (records : list LoadRecord) :
  1 <= n ->
  Forall (fun r => len hdr + len (_serialize_csv_record r) <= char_limit)
    records ->
  forall (data : list string) (current_chars : Z),
    current_chars = batch_chars (hdr :: data) ->
    Z.of_nat (length data) < n ->
    data = [] \/ current_chars <= char_limit ->
    let out := _batch_loop hdr n char_limit records (hdr :: data) current_chars in
    Forall (well_sized hdr n char_limit) out
    /\ concat (map data_rows out) = (data ++ map _serialize_csv_record records)%list.
Proof.
  intros Hn Hfit. induction Hfit as [|r records Hr Hfit IH];
    intros data cur Hcur Hlen Hlim out; subst out.
  - cbn [_batch_loop map]. rewrite List.app_nil_r.
    destruct data as [|d data].
    + cbn. split; [constructor|reflexivity].
    + replace (1 <? Z.of_nat (length (hdr :: d :: data))) with true
        by (symmetry; apply Z.ltb_lt; cbn [length]; lia).
      split; [|cbn; rewrite List.app_nil_r; reflexivity].
      constructor; [|constructor].
      exists (d :: data). repeat split; try discriminate.
      * lia.
      * destruct Hlim as [Hlim|Hlim]; [discriminate|]. lia.
  - cbn [_batch_loop map].
    set (s := _serialize_csv_record r) in *.
    pose proof (len_nonneg s) as Hs. pose proof (len_nonneg hdr) as Hh.
    assert (Hhdr : batch_chars [hdr] = len hdr).
    { unfold batch_chars. cbn [foldr]. lia. }
    destruct (char_limit <? len s + cur) eqn:Eover.
    + (* the record does not fit: the batch goes out, a new one starts *)
      apply Z.ltb_lt in Eover.
      assert (Hdata : data <> []).
      { intros ->. lia. }
      assert (Hold : well_sized hdr n char_limit (hdr :: data)).
      { exists data. repeat split; auto; try lia.
        destruct Hlim as [Hlim|Hlim]; [contradiction|]. lia. }
      assert (Hnew : batch_chars ([hdr] ++ [s]) = len hdr + len s).
      { rewrite batch_chars_snoc. lia. }
      destruct (Z.of_nat (length ([hdr] ++ [s])%list) - 1 =? n) eqn:En.
      * apply Z.eqb_eq in En. cbn [length app] in En.
        destruct (IH [] (len hdr)) as [Hall Hcat];
          [lia | cbn [length]; lia | left; reflexivity |].
        split.
        -- cbn [app]. constructor; [exact Hold|].
           constructor; [|exact Hall].
           exists [s]. repeat split; try discriminate.
           ++ cbn [length]. lia.
           ++ cbn [app] in Hnew. lia.
        -- cbn [app map concat]. rewrite Hcat. rows_done.
      * apply Z.eqb_neq in En. cbn [length app] in En.
        destruct (IH [s] (len hdr + len s)) as [Hall Hcat];
          [cbn [app] in Hnew; lia | cbn [length]; lia | right; lia |].
        split.
        -- cbn [app]. constructor; [exact Hold|exact Hall].
        -- cbn [app map concat]. cbn [app] in Hcat. rewrite Hcat. rows_done.
    + (* the record fits *)
      apply Z.ltb_ge in Eover.
      assert (Hsize : batch_chars ((hdr :: data) ++ [s]) = cur + len s).
      { rewrite batch_chars_snoc. lia. }
      assert (Hl : Z.of_nat (length ((hdr :: data) ++ [s])%list) - 1
                   = Z.of_nat (length data) + 1).
      { rewrite List.length_app. cbn [length]. lia. }
      rewrite Hl.
      destruct (Z.of_nat (length data) + 1 =? n) eqn:En.
      * apply Z.eqb_eq in En.
        destruct (IH [] (len hdr)) as [Hall Hcat];
          [lia | cbn [length]; lia | left; reflexivity |].
        split.
        -- cbn [app]. constructor; [|exact Hall].
           exists (data ++ [s])%list. repeat split.
           ++ destruct data; discriminate.
           ++ rewrite List.length_app. cbn [length]. lia.
           ++ cbn [app] in Hsize. lia.
        -- cbn [app map concat]. rewrite Hcat. rows_done.
      * apply Z.eqb_neq in En.
        destruct (IH (data ++ [s])%list (cur + len s)) as [Hall Hcat];
          [ cbn [app] in Hsize; lia
          | rewrite List.length_app; cbn [length]; lia
          | right; lia |].
        split; [exact Hall|].
        cbn [app]. rewrite Hcat. rows_done.
Qed.

End Batches.

(** C2, as the code has it: when every record, serialized, fits in the
    character limit together with the header row, and [n] is at least one,
    every batch [_batch] yields is the header row and between one and [n]
    data rows, its serialized size (header included) is at most the limit,
    and the data rows of the batches, in the order yielded, are the
    serialized records: each record is in exactly one batch. *)
Theorem batch_within_limits
    (self : DmlOperation) (records : list LoadRecord) (n char_limit : Z) :
  let hdr := BulkApiDml._serialize_csv_record (map Some (fields self)) in
  1 <= n ->
  Forall (fun r => BulkApiDml.len hdr
                   + BulkApiDml.len (BulkApiDml._serialize_csv_record r)
                   <= char_limit) records ->
  let batches := BulkApiDml._batch self records n char_limit in
  Forall (well_sized hdr n char_limit) batches
  /\ concat (map data_rows batches)
     = map BulkApiDml._serialize_csv_record records.
Proof.
  intros hdr Hn Hfit batches. subst batches. unfold BulkApiDml._batch.
  fold hdr.
  apply (_batch_loop_spec hdr n char_limit records Hn Hfit []).
  - unfold batch_chars. cbn [foldr]. lia.
  - cbn [length]. lia.
  - left. reflexivity.
Qed.

Lemma batch_within_limits_witness :
  let self := Sample.contact INSERT 2 in
  let hdr := BulkApiDml._serialize_csv_record (map Some (fields self)) in
  let batches :=
    BulkApiDml._batch self Sample.three_records 2 BulkApiDml.DEFAULT_CHAR_LIMIT in
  1 <= 2
  /\ Forall (fun r => BulkApiDml.len hdr
                      + BulkApiDml.len (BulkApiDml._serialize_csv_record r)
                      <= BulkApiDml.DEFAULT_CHAR_LIMIT) Sample.three_records
  /\ Forall (well_sized hdr 2 BulkApiDml.DEFAULT_CHAR_LIMIT) batches
  /\ concat (map data_rows batches)
     = map BulkApiDml._serialize_csv_record Sample.three_records.
Proof.
  intros self hdr batches.
  assert (H1 : 1 <= 2) by lia.
  assert (H2 : Forall (fun r => BulkApiDml.len hdr
                      + BulkApiDml.len (BulkApiDml._serialize_csv_record r)
                      <= BulkApiDml.DEFAULT_CHAR_LIMIT) Sample.three_records).
  { repeat constructor; apply Z.leb_le; vm_compute; reflexivity. }
  split; [exact H1|]. split; [exact H2|].
  exact (batch_within_limits self Sample.three_records 2
           BulkApiDml.DEFAULT_CHAR_LIMIT H1 H2).
Defined.

(** C2, as the claim has it, fails.  A record that does not fit in the limit
    with the header row still goes out, in a batch over the limit (behind a
    batch that is the header row alone); and with [n = 0] no batch is ever
    full, so one batch takes all the rows. *)
Lemma batch_breaks_limits :
  map batch_chars
      (BulkApiDml._batch (Sample.contact INSERT 1) [[Some "Ada"; None]] 1 25)
  = [20; 30]
  /\ map (fun b => length (data_rows b))
         (BulkApiDml._batch (Sample.contact INSERT 1) [[Some "Ada"; None]] 1 25)
     = [0%nat; 1%nat]
  /\ map (fun b => length (data_rows b))
         (BulkApiDml._batch (Sample.contact INSERT 0) Sample.three_records 0
            BulkApiDml.DEFAULT_CHAR_LIMIT)
     = [3%nat].
Proof. repeat split; vm_compute; reflexivity. Qed.

(** ** Selection *)

Section SelectionFacts.

Import SelectUtils Selection.

Variable h : Helpers.
Variable self : DmlOperation.

Hypothesis cycling :
  selection_strategy self = STANDARD \/ selection_strategy self = RANDOM.

Lemma round_robin_length (query_records : list Row) (num_records : Z) :
  length (round_robin query_records num_records) = Z.to_nat num_records.
Proof. unfold round_robin. rewrite length_map, length_seq. reflexivity. Qed.

(** Every identifier handed out is the leading column of a candidate. *)
Lemma round_robin_ids (query_records : list Row) (num_records : Z) a :
  query_records <> [] ->
  a ∈ round_robin query_records num_records ->
  exists candidate, candidate ∈ query_records /\ a = assignment_of candidate.
Proof.
  intros Hne Ha. unfold round_robin in Ha.
  apply list_elem_of_fmap in Ha as (i & -> & _).
  eexists. split; [|reflexivity].
  apply list_elem_of_In, nth_In.
  apply Nat.mod_upper_bound. destruct query_records; [contradiction|].
  discriminate.
Qed.

(** With candidates, the selection assigns [num_records] of them. *)
Lemma finish_with_candidates records query_records num_records :
  query_records <> [] -> 0 <= num_records ->
  let sel := finish h self records query_records num_records in
  Z.of_nat (length (select_results sel)) = num_records
  /\ records_processed (select_job_result sel) = num_records
  /\ job_errors (select_job_result sel) = []
  /\ (0 < num_records -> status (select_job_result sel) = SUCCESS).
Proof.
  intros Hne Hpos. unfold finish, select_post_process.
  destruct query_records as [|q qs]; [contradiction|].
  assert (Hlen : Z.of_nat (length (round_robin (q :: qs) num_records))
                 = num_records).
  { rewrite round_robin_length. lia. }
  destruct cycling as [-> | ->]; cbn [truthy select_results select_job_result
    records_processed job_errors status]; rewrite Hlen;
    repeat split; auto; intros Hlt;
    destruct (num_records =? 0) eqn:E; try reflexivity; lia.
Qed.

End SelectionFacts.

(** Without candidates the selection is a job failure with the message, and
    nothing is selected, whatever the strategy. *)
Lemma finish_without_candidates (h : Helpers) (self : DmlOperation) records n :
  Selection.finish h self records [] n
  = Selection.mkSelected []
      (mkJobResult JOB_FAILURE
         ["No records found for " ++ sobject self ++ " in the target org."] 0 0).
Proof. reflexivity. Qed.

(** *** The rounds of the loop *)

Lemma range0_positive (stop step : Z) :
  0 < stop -> 0 < step ->
  range0 stop step
  = inr (map (fun i => i * step) (seqZ 0 ((stop - 1) / step + 1))).
Proof.
  intros Hstop Hstep. unfold range0.
  replace (step =? 0) with false by (symmetry; apply Z.eqb_neq; lia).
  replace (step <? 0) with false by (symmetry; apply Z.ltb_ge; lia).
  replace (stop <=? 0) with false by (symmetry; apply Z.leb_gt; lia).
  cbn [orb]. unfold Py.ret. do 3 f_equal.
  replace (stop + step - 1) with (stop - 1 + 1 * step) by lia.
  rewrite Z.div_add by lia. reflexivity.
Qed.

Lemma range0_empty (step : Z) : step <> 0 -> range0 0 step = inr [].
Proof.
  intros Hstep. unfold range0.
  replace (step =? 0) with false by (symmetry; apply Z.eqb_neq; lia).
  rewrite orb_true_r. reflexivity.
Qed.

Lemma range0_last (stop step : Z) :
  0 < stop -> 0 < step ->
  exists offsets,
    range0 stop step = inr (offsets ++ [((stop - 1) / step) * step])%list.
Proof.
  intros Hstop Hstep. rewrite range0_positive by assumption.
  assert (Hq : 0 <= (stop - 1) / step) by (apply Z.div_pos; lia).
  replace ((stop - 1) / step + 1)
    with (Z.of_nat (S (Z.to_nat ((stop - 1) / step)))) by lia.
  unfold seqZ. rewrite Nat2Z.id, seq_S, !map_app. cbn [map].
  eexists. do 3 f_equal. lia.
Qed.

Lemma last_round_size_min (total batch_size : Z) :
  0 < total -> 0 < batch_size ->
  Z.min batch_size (total - (total - 1) / batch_size * batch_size)
  = last_round_size total batch_size.
Proof.
  intros Ht Hb. unfold last_round_size.
  pose proof (Z.mod_pos_bound (total - 1) batch_size Hb) as Hm.
  pose proof (Z.div_mod (total - 1) batch_size ltac:(lia)) as Hd.
  lia.
Qed.

Lemma last_round_size_bounds (total batch_size : Z) :
  0 < total -> 0 < batch_size ->
  0 < last_round_size total batch_size <= batch_size
  /\ (total <= batch_size -> last_round_size total batch_size = total)
  /\ (batch_size < total -> last_round_size total batch_size < total).
Proof.
  intros Ht Hb. unfold last_round_size.
  pose proof (Z.mod_pos_bound (total - 1) batch_size Hb) as Hm.
  repeat split; try lia.
  intros Hle. rewrite Z.mod_small by lia. lia.
Qed.

Section BulkRounds.

Import BulkSelect.

Variable h : Helpers.
Variable org : BulkOrg.
Variable self : DmlOperation.
Variable total : Z.

Lemma select_round_num_records offset query_records st :
  select_round h org self total offset query_records = inr st ->
  st.2 = Z.min (api_batch_size self) (total - offset).
Proof.
  unfold select_round.
  destruct (select_generate_query h _ _ _ _ _) as [select_query query_fields].
  unfold Py.bind, Py.ret.
  repeat case_match; intros [= <-]; reflexivity.
Qed.

(** After the loop [num_records] is what the last round bound, or what it
    was when there was no round. *)
Lemma select_loop_num_records offsets query_records num_records st :
  select_loop h org self total offsets query_records num_records = inr st ->
  st.2 = match last offsets with
         | Some offset => Some (Z.min (api_batch_size self) (total - offset))
         | None => num_records
         end.
Proof.
  revert query_records num_records.
  induction offsets as [|offset offsets IH]; intros qs nr; cbn [select_loop].
  - intros [= <-]. reflexivity.
  - unfold Py.bind at 1.
    destruct (select_round h org self total offset qs) as [e|st1] eqn:E;
      [discriminate|].
    intros Hloop. apply IH in Hloop. rewrite Hloop.
    apply select_round_num_records in E. rewrite E.
    destruct offsets as [|z offsets]; [reflexivity|].
    change (last (offset :: z :: offsets)) with (last (z :: offsets)).
    destruct (last (z :: offsets)) eqn:El; [reflexivity|].
    apply last_None in El. discriminate.
Qed.

End BulkRounds.

(** *** BulkApiDmlOperation.select_records *)

Section BulkSelection.

Import SelectUtils Selection BulkSelect.

Variable h : Helpers.
Variable org : BulkOrg.
Variable self : DmlOperation.

(** With a record to select for, the loop runs, [num_records] is bound, and
    the selection ends with what the last round asked for. *)
Lemma bulk_select_returns (records : list LoadRecord) (query_records : list Row) :
  0 < api_batch_size self -> records <> [] ->
  bulk_candidates h org self records = inr query_records ->
  select_records h org self records
  = inr (finish h self records query_records
           (last_round_size (Z.of_nat (length records)) (api_batch_size self))).
Proof.
  intros Hbs Hne. unfold bulk_candidates, select_records.
  set (total := Z.of_nat (length records)).
  assert (Htotal : 0 < total).
  { subst total. destruct records; [contradiction|]. cbn [length]. lia. }
  destruct (range0_last total (api_batch_size self) Htotal Hbs)
    as [offsets ->].
  cbn [Py.bind].
  destruct (select_loop h org self total _ [] None) as [e|st] eqn:Eloop;
    cbn [Py.bind]; [discriminate|].
  apply select_loop_num_records in Eloop. rewrite last_snoc in Eloop.
  rewrite last_round_size_min in Eloop by assumption.
  intros [= <-]. rewrite Eloop. reflexivity.
Qed.

(** Without a user filter no round raises: the candidates are there. *)
Lemma bulk_candidates_without_filter (records : list LoadRecord) :
  api_batch_size self <> 0 -> truthy (selection_filter self) = false ->
  exists query_records, bulk_candidates h org self records = inr query_records.
Proof.
  intros Hbs Hf. unfold bulk_candidates.
  destruct (range0 _ _) as [e|offsets] eqn:Er.
  { unfold range0, Py.ret in Er. apply Z.eqb_neq in Hbs. rewrite Hbs in Er.
    repeat case_match; discriminate. }
  cbn [Py.bind]. clear Er.
  assert (Hloop : forall qs nr, exists st,
    select_loop h org self (Z.of_nat (length records)) offsets qs nr = inr st).
  { induction offsets as [|o offsets IH]; intros qs nr; cbn [select_loop].
    - eexists; reflexivity.
    - unfold select_round. rewrite Hf.
      destruct (select_generate_query h _ _ _ _ _) as [q fs].
      cbn [Py.bind Py.ret fst snd]. apply IH. }
  destruct (Hloop [] None) as [st ->]. eexists; reflexivity.
Qed.

Lemma bulk_select_no_candidates (records : list LoadRecord) :
  0 < api_batch_size self -> records <> [] ->
  bulk_candidates h org self records = inr [] ->
  select_records h org self records
  = inr (mkSelected []
           (mkJobResult JOB_FAILURE
              ["No records found for " ++ sobject self ++ " in the target org."]
              0 0)).
Proof.
  intros Hbs Hne Hc. rewrite (bulk_select_returns records [] Hbs Hne Hc).
  reflexivity.
Qed.

End BulkSelection.

(** *** RestApiDmlOperation.select_records *)

Section RestSelection.

Import SelectUtils Selection RestApiDml.

Variable h : Helpers.
Variable org : RestOrg.
Variable self : DmlOperation.

Lemma rest_select_returns (records : list LoadRecord) (query_records : list Row) :
  rest_candidates h org self records = inr query_records ->
  select_records h org self records
  = inr (finish h self records query_records (Z.of_nat (length records))).
Proof.
  unfold rest_candidates, select_records.
  destruct (range0 _ _) as [e|offsets]; cbn [Py.bind]; [discriminate|].
  intros ->. reflexivity.
Qed.

(** The REST backend assigns one candidate to every input record. *)
Lemma rest_select_one_per_record (records : list LoadRecord) query_records :
  selection_strategy self = STANDARD \/ selection_strategy self = RANDOM ->
  rest_candidates h org self records = inr query_records ->
  query_records <> [] ->
  exists sel,
    select_records h org self records = inr sel
    /\ length (select_results sel) = length records
    /\ records_processed (select_job_result sel) = Z.of_nat (length records).
Proof.
  intros Hs Hc Hne. rewrite (rest_select_returns records query_records Hc).
  eexists. split; [reflexivity|].
  destruct (finish_with_candidates h self Hs records query_records
              (Z.of_nat (length records)) Hne ltac:(lia)) as (Hl & Hp & _).
  split; [lia|exact Hp].
Qed.

(** Without candidates the REST backend reports a job failure, whatever the
    input, the empty one included. *)
Lemma rest_select_no_candidates (records : list LoadRecord) :
  rest_candidates h org self records = inr [] ->
  select_records h org self records
  = inr (mkSelected []
           (mkJobResult JOB_FAILURE
              ["No records found for " ++ sobject self ++ " in the target org."]
              0 0)).
Proof. intros Hc. rewrite (rest_select_returns records [] Hc). reflexivity. Qed.

Lemma rest_candidates_of_no_input :
  api_batch_size self <> 0 -> rest_candidates h org self [] = inr [].
Proof.
  intros Hbs. unfold rest_candidates. cbn [length].
  rewrite range0_empty by assumption. reflexivity.
Qed.

End RestSelection.

(** C1: the Bulk backend does not assign one candidate per input record.
    With at least one input record, candidates, and the STANDARD or RANDOM
    strategy, [select_records] of the Bulk backend returns, and the number of
    assignments and [records_processed] are the number of records of the LAST
    round of its loop; with more records than the batch size that is fewer
    than the input records. *)
Theorem bulk_select_counts_last_round_only
    (h : Helpers) (org : BulkSelect.BulkOrg) (self : DmlOperation)
    (records : list LoadRecord) (query_records : list Row) :
  selection_strategy self = STANDARD \/ selection_strategy self = RANDOM ->
  0 < api_batch_size self ->
  records <> [] ->
  bulk_candidates h org self records = inr query_records ->
  query_records <> [] ->
  let total := Z.of_nat (length records) in
  exists sel,
    BulkSelect.select_records h org self records = inr sel
    /\ Z.of_nat (length (Selection.select_results sel))
       = last_round_size total (api_batch_size self)
    /\ records_processed (Selection.select_job_result sel)
       = last_round_size total (api_batch_size self)
    /\ (total <= api_batch_size self ->
        records_processed (Selection.select_job_result sel) = total)
    /\ (api_batch_size self < total ->
        records_processed (Selection.select_job_result sel) < total).
Proof.
  intros Hs Hbs Hne Hc Hq total.
  rewrite (bulk_select_returns h org self records query_records Hbs Hne Hc).
  fold total.
  assert (Htotal : 0 < total).
  { subst total. destruct records; [contradiction|]. cbn [length]. lia. }
  destruct (last_round_size_bounds total (api_batch_size self) Htotal Hbs)
    as (Hb & Hle & Hlt).
  destruct (finish_with_candidates h self Hs records query_records
              (last_round_size total (api_batch_size self)) Hq ltac:(lia))
    as (Hl & Hp & _).
  eexists. split; [reflexivity|]. split; [exact Hl|]. split; [exact Hp|].
  split; intros Hover; rewrite Hp; auto.
Qed.

Lemma bulk_select_counts_last_round_only_witness :
  let self := Sample.contact QUERY 2 in
  (selection_strategy self = STANDARD \/ selection_strategy self = RANDOM)
  /\ 0 < api_batch_size self
  /\ Sample.three_records <> []
  /\ bulk_candidates Sample.helpers Sample.one_contact self Sample.three_records
     = inr [["003A"]; ["003A"]]
  /\ exists sel,
       BulkSelect.select_records Sample.helpers Sample.one_contact self
         Sample.three_records = inr sel
       /\ Z.of_nat (length (Selection.select_results sel)) = 1
       /\ records_processed (Selection.select_job_result sel) = 1
       /\ (3 <= 2 -> records_processed (Selection.select_job_result sel) = 3)
       /\ (2 < 3 -> records_processed (Selection.select_job_result sel) < 3).
Proof.
  intros self.
  assert (H1 : selection_strategy self = STANDARD
               \/ selection_strategy self = RANDOM) by (left; reflexivity).
  assert (H2 : 0 < api_batch_size self) by (cbn; lia).
  assert (H3 : Sample.three_records <> []) by discriminate.
  assert (H4 : bulk_candidates Sample.helpers Sample.one_contact self
                 Sample.three_records = inr [["003A"]; ["003A"]])
    by (vm_compute; reflexivity).
  assert (H5 : [["003A"]; ["003A"]] <> ([] : list Row)) by discriminate.
  repeat (split; [assumption|]).
  exact (bulk_select_counts_last_round_only Sample.helpers Sample.one_contact
           self Sample.three_records _ H1 H2 H3 H4 H5).
Defined.

(** The same selection through the REST backend: three assignments. *)
Example rest_select_three_records :
  RestApiDml.select_records Sample.helpers Sample.rest_org
    (Sample.contact QUERY 2) Sample.three_records
  = inr (Selection.mkSelected
           (repeat (SelectUtils.mkAssignment "003A" true false) 3)
           (mkJobResult SUCCESS [] 3 0)).
Proof. vm_compute. reflexivity. Qed.

(** C7: a selection without candidates is a job failure with the message on
    the REST backend, but on the Bulk backend it raises when there is no
    input record either: [num_records] is read unbound. *)
Theorem select_no_candidates_no_input :
  RestApiDml.select_records Sample.helpers Sample.empty_rest_org
    (Sample.contact QUERY 2) []
  = inr (Selection.mkSelected []
           (mkJobResult JOB_FAILURE
              ["No records found for Contact in the target org."] 0 0))
  /\ bulk_candidates Sample.helpers Sample.empty_bulk_org
       (Sample.contact QUERY 2) [] = inr []
  /\ BulkSelect.select_records Sample.helpers Sample.empty_bulk_org
       (Sample.contact QUERY 2) []
     = inl (Py.UnboundLocalError "num_records").
Proof. repeat split; vm_compute; reflexivity. Qed.

(** C10: called without an input record, [select_records] of the Bulk backend
    reaches the post-processing with [num_records] unbound and raises; with
    an input record (and a batch size above zero) it returns a job result
    whenever its queries do. *)
Theorem bulk_select_needs_an_input_record
    (h : Helpers) (org : BulkSelect.BulkOrg) (self : DmlOperation) :
  0 < api_batch_size self ->
  BulkSelect.select_records h org self []
  = inl (Py.UnboundLocalError "num_records")
  /\ forall records query_records,
       records <> [] ->
       bulk_candidates h org self records = inr query_records ->
       exists sel, BulkSelect.select_records h org self records = inr sel.
Proof.
  intros Hbs. split.
  - unfold BulkSelect.select_records. cbn [length].
    rewrite range0_empty by lia. reflexivity.
  - intros records query_records Hne Hc.
    rewrite (bulk_select_returns h org self records query_records Hbs Hne Hc).
    eexists; reflexivity.
Qed.

Lemma bulk_select_needs_an_input_record_witness :
  0 < api_batch_size (Sample.contact QUERY 2)
  /\ BulkSelect.select_records Sample.helpers Sample.one_contact
       (Sample.contact QUERY 2) []
     = inl (Py.UnboundLocalError "num_records").
Proof.
  assert (H : 0 < api_batch_size (Sample.contact QUERY 2)) by (cbn; lia).
  split; [exact H|].
  exact (proj1 (bulk_select_needs_an_input_record Sample.helpers
                  Sample.one_contact (Sample.contact QUERY 2) H)).
Defined.

(** ** RestApiDmlOperation.load_records *)

Lemma chunks_upto_concat {A} (fuel n : nat) (l : list A) :
  (0 < n)%nat -> (length l <= fuel)%nat -> concat (chunks_upto fuel n l) = l.
Proof.
  intros Hn. revert l. induction fuel as [|fuel IH]; intros l Hl.
  - destruct l; [reflexivity|cbn [length] in Hl; lia].
  - destruct l as [|x l]; [reflexivity|].
    change (chunks_upto (S fuel) n (x :: l))
      with (take n (x :: l) :: chunks_upto fuel n (drop n (x :: l))).
    cbn [concat]. rewrite IH.
    + apply take_drop.
    + rewrite length_drop. cbn [length] in *. lia.
Qed.

(** The chunks are the input, cut. *)
Lemma iterate_in_chunks_concat {A} (n : Z) (l : list A) :
  0 < n -> concat (iterate_in_chunks n l) = l.
Proof.
  intros Hn. unfold iterate_in_chunks.
  replace (n <=? 0) with false by (symmetry; apply Z.leb_gt; lia).
  apply chunks_upto_concat; lia.
Qed.

Section RestLoad.

Import RestApiDml.

Variable h : Helpers.
Variable org : RestOrg.
Variable self : DmlOperation.

(** The loop sends the requests of the chunks one after the other and
    appends the answers. *)
Lemma load_chunks_answers method chunks k results :
  load_chunks h org self method k chunks results
  = (do reqs <- requests_of h self method chunks;
     Py.ret (results ++ answers_from org k reqs)%list).
Proof.
  revert k results. induction chunks as [|chunk chunks IH]; intros k results.
  - cbn. rewrite List.app_nil_r. reflexivity.
  - cbn [load_chunks requests_of]. unfold Py.bind at 1 3.
    destruct (request_of h self method chunk) as [e|req]; [reflexivity|].
    rewrite IH. unfold Py.bind, Py.ret.
    destruct (requests_of h self method chunks) as [e|reqs]; [reflexivity|].
    cbn [answers_from]. rewrite <- List.app_assoc. reflexivity.
Qed.

(** An insert without boolean fields and without an update key builds
    every request: [load_records] returns. *)
Lemma requests_of_insert chunks :
  operation self = INSERT -> boolean_fields self = [] ->
  update_key self = None ->
  exists reqs, requests_of h self "POST" chunks = inr reqs
               /\ length reqs = length chunks.
Proof.
  intros Hop Hb Hk.
  assert (Hrec : forall chunk, exists js, records_to_json h self chunk = inr js).
  { induction chunk as [|rec chunk [js IH]]; cbn [records_to_json].
    - eexists; reflexivity.
    - unfold _record_to_json. rewrite Hb, Hop. cbn [convert_booleans Py.bind Py.ret].
      rewrite IH. eexists; reflexivity. }
  induction chunks as [|chunk chunks (reqs & IH & Hlen)]; cbn [requests_of].
  - exists []. split; reflexivity.
  - unfold request_of. rewrite Hop, Hk.
    replace (bool_decide (INSERT = DELETE)) with false by reflexivity.
    cbn [Py.bind Py.ret]. destruct (Hrec chunk) as [js ->].
    cbn [Py.bind Py.ret]. rewrite IH. eexists. split; [reflexivity|].
    cbn [length]. lia.
Qed.

End RestLoad.

Section OneAnswerPerRecord.

Import RestApiDml.

Variable h : Helpers.
Variable org : RestOrg.
Variable self : DmlOperation.

Hypothesis inserting : operation self = INSERT.
Hypothesis no_booleans : boolean_fields self = [].
Hypothesis no_update_key : update_key self = None.

(** The org answers a request with one entry per record of its body. *)
Hypothesis one_entry_per_record :
  forall k req recs, json req = Some recs ->
    length (composite_sobjects org k req) = length recs.

Lemma records_to_json_length chunk js :
  records_to_json h self chunk = inr js -> length js = length chunk.
Proof.
  revert js. induction chunk as [|rec chunk IH]; intros js; cbn [records_to_json].
  - intros [= <-]. reflexivity.
  - unfold Py.bind, Py.ret.
    destruct (_record_to_json h self rec); [discriminate|].
    destruct (records_to_json h self chunk) as [e|js']; [discriminate|].
    intros [= <-]. cbn [length]. f_equal. apply IH. reflexivity.
Qed.

Lemma answers_length chunks reqs k :
  requests_of h self "POST" chunks = inr reqs ->
  length (answers_from org k reqs) = length (concat chunks).
Proof.
  revert reqs k. induction chunks as [|chunk chunks IH]; intros reqs k;
    cbn [requests_of].
  - intros [= <-]. reflexivity.
  - unfold Py.bind at 1.
    destruct (request_of h self "POST" chunk) as [e|req] eqn:Ereq; [discriminate|].
    unfold Py.bind, Py.ret.
    destruct (requests_of h self "POST" chunks) as [e|reqs'] eqn:Ereqs;
      [discriminate|].
    intros [= <-]. cbn [answers_from concat]. rewrite !List.length_app.
    rewrite (IH reqs' (S k) eq_refl). f_equal.
    unfold request_of in Ereq. rewrite inserting, no_update_key in Ereq.
    replace (bool_decide (INSERT = DELETE)) with false in Ereq by reflexivity.
    cbn [Py.bind Py.ret] in Ereq.
    destruct (records_to_json h self chunk) as [e|js] eqn:Ejs; [discriminate|].
    cbn [Py.bind Py.ret] in Ereq. injection Ereq as <-.
    rewrite (one_entry_per_record k (mkRequest _ _ (Some js)) js eq_refl).
    apply records_to_json_length, Ejs.
Qed.

(** Then an insert processes as many records as it was given. *)
Lemma rest_insert_processes_every_record (records : list LoadRecord) :
  0 < api_batch_size self ->
  exists loaded,
    load_records h org self records = inr loaded
    /\ records_processed (job_result loaded) = Z.of_nat (length records).
Proof.
  intros Hbs.
  destruct (requests_of_insert h self
              (iterate_in_chunks (api_batch_size self) records)
              inserting no_booleans no_update_key) as (reqs & Hreqs & _).
  unfold load_records. rewrite inserting. cbn [method_of Py.bind Py.ret].
  rewrite load_chunks_answers, Hreqs. cbn [Py.bind Py.ret app].
  eexists. split; [reflexivity|]. cbn [job_result records_processed].
  rewrite (answers_length _ _ _ Hreqs), iterate_in_chunks_concat by assumption.
  reflexivity.
Qed.

End OneAnswerPerRecord.

(** C8: when the requests of the chunks can be built, [load_records] of the
    REST backend returns one job result for the whole load, computed from the
    answers to all the requests, one after the other: [records_processed] is
    their number, [total_row_errors] the number of those without success, and
    the status is a row failure exactly when one of them is without success,
    success otherwise. *)
Theorem rest_load_records_one_job_result
    (h : Helpers) (org : RestApiDml.RestOrg) (self : DmlOperation)
    (records : list LoadRecord) (method : string)
    (reqs : list RestApiDml.Request) :
  RestApiDml.method_of (operation self) = inr method ->
  requests_of h self method (iterate_in_chunks (api_batch_size self) records)
  = inr reqs ->
  let answers := answers_from org 0 reqs in
  let failed := filter (fun res => RestApiDml.r_success res = false) answers in
  exists job,
    RestApiDml.load_records h org self records
    = inr (RestApiDml.mkLoaded answers job)
    /\ records_processed job = Z.of_nat (length answers)
    /\ total_row_errors job = Z.of_nat (length failed)
    /\ job_errors job = []
    /\ (status job = ROW_FAILURE
        <-> exists res, res ∈ answers /\ RestApiDml.r_success res = false)
    /\ (status job = SUCCESS
        <-> forall res, res ∈ answers -> RestApiDml.r_success res = true)
    /\ (length answers = 5%nat -> length failed = 1%nat ->
        job = mkJobResult ROW_FAILURE [] 5 1).
Proof.
  intros Hm Hreqs answers failed.
  unfold RestApiDml.load_records. rewrite Hm. cbn [Py.bind].
  rewrite load_chunks_answers, Hreqs. cbn [Py.bind Py.ret app].
  fold answers. fold failed.
  eexists. split; [reflexivity|].
  cbn [records_processed total_row_errors job_errors status].
  repeat split; try reflexivity.
  - intros Hs. destruct failed as [|res failed'] eqn:Ef; [discriminate|].
    exists res.
    assert (Hin : res ∈ failed) by (rewrite Ef; apply list_elem_of_here).
    apply list_elem_of_filter in Hin. tauto.
  - intros (res & Hin & Hres).
    assert (Hf : res ∈ failed) by (apply list_elem_of_filter; auto).
    destruct failed; [inversion Hf|reflexivity].
  - intros Hs res Hin.
    destruct (RestApiDml.r_success res) eqn:Er; [reflexivity|].
    assert (Hf : res ∈ failed) by (apply list_elem_of_filter; auto).
    destruct failed; [inversion Hf|discriminate].
  - intros Hall. destruct failed as [|res failed'] eqn:Ef; [reflexivity|].
    assert (Hin : res ∈ failed) by (rewrite Ef; apply list_elem_of_here).
    apply list_elem_of_filter in Hin. destruct Hin as [Hres Hin].
    rewrite (Hall res Hin) in Hres. discriminate.
  - intros H5 H1. rewrite H5, H1. reflexivity.
Qed.

Lemma rest_load_records_one_job_result_witness :
  let self := Sample.contact INSERT 200 in
  RestApiDml.method_of (operation self) = inr "POST"
  /\ (exists reqs,
        requests_of Sample.helpers self "POST"
          (iterate_in_chunks (api_batch_size self) Sample.five_records)
        = inr reqs)
  /\ exists loaded,
       RestApiDml.load_records Sample.helpers Sample.rest_org self
         Sample.five_records = inr loaded
       /\ RestApiDml.job_result loaded = mkJobResult ROW_FAILURE [] 5 1.
Proof.
  intros self.
  assert (Hm : RestApiDml.method_of (operation self) = inr "POST")
    by reflexivity.
  destruct (requests_of_insert Sample.helpers self
              (iterate_in_chunks (api_batch_size self) Sample.five_records)
              eq_refl eq_refl eq_refl) as (reqs & Hreqs & _).
  split; [exact Hm|]. split; [exists reqs; exact Hreqs|].
  destruct (rest_load_records_one_job_result Sample.helpers Sample.rest_org
              self Sample.five_records "POST" reqs Hm Hreqs)
    as (job & Hload & _).
  eexists. split; [exact Hload|].
  assert (Hrun : match RestApiDml.load_records Sample.helpers Sample.rest_org
                         self Sample.five_records with
                 | inr loaded => Some (RestApiDml.job_result loaded)
                 | inl _ => None
                 end = Some (mkJobResult ROW_FAILURE [] 5 1))
    by (vm_compute; reflexivity).
  rewrite Hload in Hrun. injection Hrun as ->. reflexivity.
Defined.

(** ** The user filter *)

(** *** Characters *)

Lemma lower_is_space (c : ascii) : Text.is_space (Text.lower c) = Text.is_space c.
Proof. destruct c as [[] [] [] [] [] [] [] []]; reflexivity. Qed.

Lemma lower_is_digit (c : ascii) : Text.is_digit (Text.lower c) = Text.is_digit c.
Proof. destruct c as [[] [] [] [] [] [] [] []]; reflexivity. Qed.

Lemma space_not_digit (c : ascii) :
  Text.is_space c = true -> Text.is_digit c = false.
Proof. destruct c as [[] [] [] [] [] [] [] []]; intros H; try reflexivity; discriminate H. Qed.

Lemma digit_not_space (c : ascii) :
  Text.is_digit c = true -> Text.is_space c = false.
Proof.
  intros H. destruct (Text.is_space c) eqn:E; [|reflexivity].
  apply space_not_digit in E. congruence.
Qed.

Lemma eq_nocase_lower (k c : ascii) :
  Text.eq_nocase k c = true <-> Text.lower k = Text.lower c.
Proof. unfold Text.eq_nocase. apply Ascii.eqb_eq. Qed.

(** Letters that differ only in case are in the same classes. *)
Lemma eq_nocase_class (k c : ascii) :
  Text.eq_nocase k c = true ->
  Text.is_space k = Text.is_space c /\ Text.is_digit k = Text.is_digit c.
Proof.
  intros H. apply eq_nocase_lower in H. split.
  - rewrite <- (lower_is_space k), H. apply lower_is_space.
  - rewrite <- (lower_is_digit k), H. apply lower_is_digit.
Qed.

Lemma eq_nocase_other (k0 k c : ascii) :
  Text.eq_nocase k c = true -> Text.eq_nocase k0 k = false ->
  Text.eq_nocase k0 c = false.
Proof.
  intros H H0. apply eq_nocase_lower in H. unfold Text.eq_nocase in *.
  rewrite <- H. exact H0.
Qed.

(** *** Strings *)

Lemma sapp_cons (x : ascii) (a b : string) : String x a ++ b = String x (a ++ b).
Proof. reflexivity. Qed.

Lemma sapp_nil_l (b : string) : "" ++ b = b.
Proof. reflexivity. Qed.

Ltac sapp := rewrite ?sapp_cons, ?sapp_nil_l in *.

Lemma sapp_assoc (a b c : string) : (a ++ b) ++ c = a ++ b ++ c.
Proof. induction a as [|x a IH]; sapp; simpl; [reflexivity|]. rewrite IH. reflexivity. Qed.

Lemma sapp_nil_r (a : string) : a ++ "" = a.
Proof. induction a as [|x a IH]; sapp; simpl; [reflexivity|]. rewrite IH. reflexivity. Qed.

Lemma slength_app (a b : string) :
  String.length (a ++ b) = (String.length a + String.length b)%nat.
Proof. induction a as [|x a IH]; sapp; simpl; [reflexivity|]. rewrite IH. reflexivity. Qed.

Lemma all_chars_app (p : ascii -> bool) (a b : string) :
  all_chars p (a ++ b) = all_chars p a && all_chars p b.
Proof.
  induction a as [|x a IH]; sapp; simpl; [reflexivity|].
  rewrite IH. apply andb_assoc.
Qed.

Lemma all_chars_impl (p q : ascii -> bool) (s : string) :
  (forall c, p c = true -> q c = true) ->
  all_chars p s = true -> all_chars q s = true.
Proof.
  intros Hpq. induction s as [|x s IH]; sapp; simpl; [reflexivity|].
  intros H. apply andb_true_iff in H as [Hx Hs].
  rewrite (Hpq x Hx), (IH Hs). reflexivity.
Qed.

Lemma starts_with_app (p : ascii -> bool) (a b : string) :
  a <> "" -> starts_with p (a ++ b) = starts_with p a.
Proof. destruct a; [contradiction|reflexivity]. Qed.

Lemma all_chars_starts (p : ascii -> bool) (a : string) :
  all_chars p a = true -> a <> "" -> starts_with p a = true.
Proof.
  destruct a as [|x a]; [contradiction|]. sapp; simpl.
  intros H _. apply andb_true_iff in H. tauto.
Qed.

(** *** span, lstrip, rstrip *)

Lemma span_none (p : ascii -> bool) (s : string) :
  starts_with p s = false -> Text.span p s = ("", s).
Proof. destruct s as [|x s]; sapp; simpl; [reflexivity|]. intros ->. reflexivity. Qed.

Lemma span_all (p : ascii -> bool) (a r : string) :
  all_chars p a = true -> starts_with p r = false ->
  Text.span p (a ++ r) = (a, r).
Proof.
  intros Ha Hr. induction a as [|x a IH]; sapp.
  - apply span_none, Hr.
  - simpl in Ha. apply andb_true_iff in Ha as [Hx Ha].
    simpl. rewrite Hx, (IH Ha). reflexivity.
Qed.

Lemma span_all_end (p : ascii -> bool) (a : string) :
  all_chars p a = true -> Text.span p a = (a, "").
Proof.
  intros Ha. rewrite <- (sapp_nil_r a) at 1. apply span_all; auto.
Qed.

Lemma span_space_rest (s : string) :
  snd (Text.span Text.is_space s) = Text.lstrip s.
Proof.
  induction s as [|x s IH]; sapp; simpl; [reflexivity|].
  destruct (Text.is_space x); [|reflexivity].
  destruct (Text.span Text.is_space s). exact IH.
Qed.

Lemma lstrip_spaces (ws r : string) :
  all_chars Text.is_space ws = true -> Text.lstrip (ws ++ r) = Text.lstrip r.
Proof.
  induction ws as [|x ws IH]; sapp; simpl; [reflexivity|].
  intros H. apply andb_true_iff in H as [Hx Hws]. rewrite Hx. auto.
Qed.

Lemma lstrip_fixed (s : string) :
  starts_with Text.is_space s = false -> Text.lstrip s = s.
Proof. destruct s as [|x s]; sapp; simpl; [reflexivity|]. intros ->. reflexivity. Qed.

Lemma lstrip_fixed_inv (s : string) :
  Text.lstrip s = s -> starts_with Text.is_space s = false.
Proof.
  destruct s as [|x s]; sapp; simpl; [reflexivity|].
  destruct (Text.is_space x); [|reflexivity].
  intros H. exfalso.
  assert (Hlen : forall t, (String.length (Text.lstrip t) <= String.length t)%nat).
  { induction t as [|y t IHt]; sapp; simpl; [lia|]. destruct (Text.is_space y); sapp; simpl; lia. }
  pose proof (Hlen s) as Hs. rewrite H in Hs. sapp; simpl in Hs. lia.
Qed.

(** [lstrip] drops a prefix. *)
Lemma lstrip_suffix (s : string) : exists w, s = w ++ Text.lstrip s.
Proof.
  induction s as [|x s [w IH]]; sapp; simpl.
  - exists "". reflexivity.
  - destruct (Text.is_space x).
    + exists (String x w). sapp; simpl. rewrite <- IH. reflexivity.
    + exists "". reflexivity.
Qed.

Lemma rstrip_spaces (ws : string) :
  all_chars Text.is_space ws = true -> Text.rstrip ws = "".
Proof.
  induction ws as [|x ws IH]; sapp; simpl; [reflexivity|].
  intros H. apply andb_true_iff in H as [Hx Hws].
  rewrite (IH Hws), Hx. reflexivity.
Qed.

Lemma rstrip_app_spaces (s ws : string) :
  all_chars Text.is_space ws = true -> Text.rstrip (s ++ ws) = Text.rstrip s.
Proof.
  intros Hws. induction s as [|x s IH]; sapp; simpl.
  - apply rstrip_spaces, Hws.
  - rewrite IH. reflexivity.
Qed.

Lemma rstrip_fixed_tail (x : ascii) (s : string) :
  s <> "" -> Text.rstrip (String x s) = String x s -> Text.rstrip s = s.
Proof.
  intros Hne. sapp; simpl. destruct (Text.rstrip s) eqn:E.
  - destruct (Text.is_space x); intros H; inversion H; subst; contradiction.
  - intros H. inversion H. reflexivity.
Qed.

Lemma rstrip_app_fixed (a b : string) :
  b <> "" -> Text.rstrip b = b -> Text.rstrip (a ++ b) = a ++ b.
Proof.
  intros Hne Hb. induction a as [|x a IH]; sapp; simpl; [exact Hb|].
  rewrite IH. destruct (a ++ b) eqn:E; [|reflexivity].
  destruct a; sapp; simpl in E; [contradiction|discriminate].
Qed.

(** A suffix of a string without trailing whitespace has none either. *)
Lemma rstrip_fixed_suffix (a b : string) :
  b <> "" -> Text.rstrip (a ++ b) = a ++ b -> Text.rstrip b = b.
Proof.
  intros Hne. induction a as [|x a IH]; sapp; [auto|].
  intros H. apply IH. apply (rstrip_fixed_tail x); [|exact H].
  destruct a; sapp; simpl; [exact Hne|discriminate].
Qed.

Lemma rstrip_fixed_nonspace (s : string) :
  all_chars (fun c => negb (Text.is_space c)) s = true -> Text.rstrip s = s.
Proof.
  induction s as [|x s IH]; sapp; simpl; [reflexivity|].
  intros H. apply andb_true_iff in H as [Hx Hs]. rewrite (IH Hs).
  destruct s; [|reflexivity].
  apply negb_true_iff in Hx. rewrite Hx. reflexivity.
Qed.

(** A string without trailing whitespace is not made of whitespace. *)
Lemma rstrip_fixed_lstrip (b r : string) :
  b <> "" -> Text.rstrip b = b ->
  Text.lstrip b <> "" /\ Text.lstrip (b ++ r) = Text.lstrip b ++ r.
Proof.
  intros Hne. induction b as [|x b IH]; [contradiction|].
  intros Hb. sapp; simpl.
  destruct (Text.is_space x) eqn:Ex.
  - destruct b as [|y b].
    + sapp; simpl in Hb. rewrite Ex in Hb. discriminate.
    + apply IH; [discriminate|].
      apply (rstrip_fixed_tail x); [discriminate|exact Hb].
  - split; [discriminate|reflexivity].
Qed.

(** *** Keywords *)

Lemma plain_no_space (k c : ascii) :
  plain k = true -> Text.is_space c = true -> Text.eq_nocase k c = false.
Proof.
  intros Hk Hc. destruct (Text.eq_nocase k c) eqn:E; [|reflexivity].
  apply eq_nocase_class in E as [Hs _]. unfold plain in Hk.
  rewrite Hs, Hc in Hk. discriminate.
Qed.

Lemma plain_no_digit (k c : ascii) :
  plain k = true -> Text.is_digit c = true -> Text.eq_nocase k c = false.
Proof.
  intros Hk Hc. destruct (Text.eq_nocase k c) eqn:E; [|reflexivity].
  apply eq_nocase_class in E as [_ Hd]. unfold plain in Hk.
  rewrite Hd, Hc, andb_false_r in Hk. discriminate.
Qed.

Lemma match_kw_exact (kw k r : string) :
  Text.match_kw kw k = Some "" -> Text.match_kw kw (k ++ r) = Some r.
Proof.
  revert k. induction kw as [|x kw IH]; intros k; simpl.
  - intros [= ->]. reflexivity.
  - destruct k as [|y k]; [discriminate|]. sapp.
    destruct (Text.eq_nocase x y); [apply IH|discriminate].
Qed.

Lemma match_kw_length (kw k : string) :
  Text.match_kw kw k = Some "" -> String.length k = String.length kw.
Proof.
  revert k. induction kw as [|x kw IH]; intros k; simpl.
  - intros [= ->]. reflexivity.
  - destruct k as [|y k]; [discriminate|].
    destruct (Text.eq_nocase x y); [|discriminate].
    intros H. simpl. f_equal. apply IH, H.
Qed.

(** The text of a keyword is made of the letters of the keyword. *)
Lemma match_kw_chars (q : ascii -> bool) (kw k : string) :
  (forall x c, Text.eq_nocase x c = true -> q x = true -> q c = true) ->
  Text.match_kw kw k = Some "" -> all_chars q kw = true -> all_chars q k = true.
Proof.
  intros Hq. revert k. induction kw as [|x kw IH]; intros k; simpl.
  - intros [= ->]. reflexivity.
  - destruct k as [|y k]; [discriminate|].
    destruct (Text.eq_nocase x y) eqn:E; [|discriminate].
    intros Hm Hall. apply andb_true_iff in Hall as [Hx Hall]. simpl.
    rewrite (Hq x y E Hx), (IH k Hm Hall). reflexivity.
Qed.

Lemma match_kw_head (k0 : ascii) (kw s : string) :
  starts_with (Text.eq_nocase k0) s = false ->
  Text.match_kw (String k0 kw) s = None.
Proof. destruct s as [|y s]; simpl; [reflexivity|]. intros ->. reflexivity. Qed.

(** A keyword does not reach over whitespace or the end of the text. *)
Lemma match_kw_straddle (kw t r : string) :
  all_chars plain kw = true ->
  r = "" \/ starts_with Text.is_space r = true ->
  Text.match_kw kw t = None -> Text.match_kw kw (t ++ r) = None.
Proof.
  intros Hkw Hr. revert t. induction kw as [|x kw IH]; intros t; simpl.
  - discriminate.
  - simpl in Hkw. apply andb_true_iff in Hkw as [Hx Hkw].
    destruct t as [|y t]; sapp.
    + intros _. destruct Hr as [-> | Hr]; [reflexivity|].
      destruct r as [|c r]; [reflexivity|]. simpl in Hr.
      rewrite (plain_no_space x c Hx Hr). reflexivity.
    + destruct (Text.eq_nocase x y); [apply IH, Hkw|reflexivity].
Qed.

(** *** Skipping what holds no clause *)

Lemma quiet_tail at_head (x : ascii) (p r : string) :
  quiet at_head (String x p) r -> quiet at_head p r.
Proof.
  intros H a b -> Hb. apply (H (String x a) b); [reflexivity|exact Hb].
Qed.

Lemma search_skip (kw p r : string) :
  quiet (fun s => bool_decide (Text.clause_at kw s <> None)) p r ->
  Text.search_clause kw (p ++ r) = Text.search_clause kw r.
Proof.
  induction p as [|x p IH]; intros Hq; sapp; [reflexivity|].
  simpl.
  pose proof (Hq "" (String x p) eq_refl ltac:(discriminate)) as H.
  apply bool_decide_eq_false in H. sapp.
  destruct (Text.clause_at kw (String x (p ++ r))); [exfalso; apply H; discriminate|].
  apply IH. eapply quiet_tail, Hq.
Qed.

Lemma sub_skip (kw p r : string) :
  quiet (fun s => bool_decide (Text.padded_clause_at kw s <> None)) p r ->
  Text.sub_clause_from kw 0 (p ++ r) = p ++ Text.sub_clause_from kw 0 r.
Proof.
  induction p as [|x p IH]; intros Hq; sapp; [reflexivity|].
  simpl.
  pose proof (Hq "" (String x p) eq_refl ltac:(discriminate)) as H.
  apply bool_decide_eq_false in H. sapp.
  destruct (Text.padded_clause_at kw (String x (p ++ r)));
    [exfalso; apply H; discriminate|].
  f_equal. apply IH. eapply quiet_tail, Hq.
Qed.

Lemma sub_drop_all (kw s : string) (k : nat) :
  (String.length s <= k)%nat -> Text.sub_clause_from kw k s = "".
Proof.
  revert k. induction s as [|x s IH]; intros k Hk; simpl; [reflexivity|].
  destruct k as [|k]; [simpl in Hk; lia|]. apply IH. simpl in Hk. lia.
Qed.

(** A match that reaches the end of the text becomes one space. *)
Lemma sub_at_end (kw m : string) :
  Text.padded_clause_at kw m = Some (String.length m) -> m <> "" ->
  Text.sub_clause_from kw 0 m = " ".
Proof.
  destruct m as [|x m]; [contradiction|]. intros H _.
  simpl. rewrite H. simpl. rewrite sub_drop_all by lia. reflexivity.
Qed.

Lemma padded_none_nonspace (kw s : string) :
  starts_with Text.is_space s = false -> Text.padded_clause_at kw s = None.
Proof.
  intros H. unfold Text.padded_clause_at. rewrite (span_none _ _ H).
  destruct (Text.match_kw kw s); [|reflexivity].
  repeat (destruct (Text.span _ _)). reflexivity.
Qed.

Lemma padded_none_lstrip (kw s : string) :
  Text.match_kw kw (Text.lstrip s) = None -> Text.padded_clause_at kw s = None.
Proof.
  intros H. unfold Text.padded_clause_at.
  pose proof (span_space_rest s) as Hs.
  destruct (Text.span Text.is_space s) as [ws0 r]. simpl in Hs. subst r.
  rewrite H. reflexivity.
Qed.

Lemma clause_none (kw s : string) :
  Text.match_kw kw s = None -> Text.clause_at kw s = None.
Proof. intros H. unfold Text.clause_at. rewrite H. reflexivity. Qed.

(** *** The regions of a filter *)

Lemma no_head {A} (x : option A) : x = None -> bool_decide (x <> None) = false.
Proof. intros ->. apply bool_decide_eq_false. intros H. apply H. reflexivity. Qed.

Lemma all_chars_suffix (p : ascii -> bool) (a b : string) :
  all_chars p (a ++ b) = true -> all_chars p b = true.
Proof. rewrite all_chars_app. intros H. apply andb_true_iff in H. tauto. Qed.

Lemma quiet_search_foreign (k0 : ascii) (kw p r : string) :
  foreign k0 p -> quiet (search_head (String k0 kw)) p r.
Proof.
  intros Hp a b -> Hb. apply no_head, clause_none, match_kw_head.
  apply all_chars_suffix in Hp.
  destruct b as [|c b]; [contradiction|]. sapp. simpl in *.
  apply andb_true_iff in Hp as [Hc _]. apply negb_true_iff in Hc. exact Hc.
Qed.

Lemma span_app (p : ascii -> bool) (s r : string) :
  Text.span p (s ++ r)
  = match Text.span p s with
    | (a, "") => let '(a', r') := Text.span p r in (a ++ a', r')
    | (a, q) => (a, q ++ r)
    end.
Proof.
  induction s as [|x s IH]; sapp.
  - cbn [Text.span]. destruct (Text.span p r). reflexivity.
  - cbn [Text.span]. destruct (p x); [|reflexivity].
    rewrite IH. destruct (Text.span p s) as [a q].
    destruct q as [|y q].
    + destruct (Text.span p r). reflexivity.
    + reflexivity.
Qed.

Lemma span_rest_starts (p : ascii -> bool) (s : string) :
  starts_with p (snd (Text.span p s)) = false.
Proof.
  induction s as [|x s IH]; cbn [Text.span]; [reflexivity|].
  destruct (p x) eqn:E.
  - destruct (Text.span p s). exact IH.
  - cbn. exact E.
Qed.

Lemma match_kw_app (kw b rest r : string) :
  Text.match_kw kw b = Some rest -> Text.match_kw kw (b ++ r) = Some (rest ++ r).
Proof.
  revert b. induction kw as [|x kw IH]; intros b; simpl.
  - intros [= ->]. reflexivity.
  - destruct b as [|y b]; [discriminate|]. sapp.
    destruct (Text.eq_nocase x y); [apply IH|discriminate].
Qed.

Lemma lstrip_blank (ws : string) :
  all_chars Text.is_space ws = true -> Text.lstrip ws = "".
Proof.
  intros H. rewrite <- (sapp_nil_r ws). rewrite lstrip_spaces by exact H.
  reflexivity.
Qed.

Lemma lstrip_app (a r : string) :
  Text.lstrip a <> "" -> Text.lstrip (a ++ r) = Text.lstrip a ++ r.
Proof.
  induction a as [|x a IH]; sapp; simpl; [contradiction|].
  destruct (Text.is_space x); [exact IH|reflexivity].
Qed.

(** What follows [r]'s leading whitespace is no number. *)
Lemma no_number_span (r : string) :
  starts_with Text.is_digit (Text.lstrip r) = false ->
  fst (Text.span Text.is_digit (snd (Text.span Text.is_space r))) = "".
Proof.
  rewrite span_space_rest. intros H. rewrite (span_none _ _ H). reflexivity.
Qed.

(** A text in which no clause starts at the head gets none by what follows
    it, when that begins with whitespace or a word. *)
Lemma clause_at_app (kw b r : string) :
  all_chars plain kw = true ->
  Text.clause_at kw b = None ->
  r = "" \/ starts_with Text.is_space r = true ->
  starts_with Text.is_digit (Text.lstrip r) = false ->
  Text.clause_at kw (b ++ r) = None.
Proof.
  intros Hkw Hb Hr Hd. unfold Text.clause_at in *.
  destruct (Text.match_kw kw b) as [rest|] eqn:Em.
  - rewrite (match_kw_app _ _ _ r Em).
    rewrite (span_app Text.is_space rest r).
    pose proof (span_rest_starts Text.is_space rest) as Hq.
    destruct (Text.span Text.is_space rest) as [ws q]. cbn [snd] in Hq.
    destruct q as [|y q].
    + pose proof (no_number_span r Hd) as Hn.
      destruct (Text.span Text.is_space r) as [ws' r']. cbn [snd] in Hn.
      destruct (Text.span Text.is_digit r') as [ds t]. cbn [fst] in Hn.
      subst ds. cbn [String.length Nat.eqb]. rewrite orb_true_r. reflexivity.
    + rewrite (span_app Text.is_digit (String y q) r).
      pose proof (span_rest_starts Text.is_digit (String y q)) as Ht.
      destruct (Text.span Text.is_digit (String y q)) as [ds t] eqn:Ed.
      cbn [snd] in Ht.
      destruct t as [|z t].
      * assert (Hrd : Text.span Text.is_digit r = ("", r)).
        { apply span_none. destruct Hr as [-> | Hr]; [reflexivity|].
          destruct r as [|c r]; [reflexivity|]. cbn in *.
          apply space_not_digit, Hr. }
        rewrite Hrd, sapp_nil_r. exact Hb.
      * exact Hb.
  - rewrite (match_kw_straddle kw b r Hkw Hr Em). reflexivity.
Qed.

Lemma search_none_head (kw s : string) :
  Text.search_clause kw s = None -> Text.clause_at kw s = None.
Proof.
  destruct s; cbn [Text.search_clause]; destruct (Text.clause_at kw _);
    congruence.
Qed.

Lemma search_none_suffix (kw a b : string) :
  Text.search_clause kw (a ++ b) = None -> Text.search_clause kw b = None.
Proof.
  induction a as [|x a IH]; sapp; [auto|].
  cbn [Text.search_clause].
  destruct (Text.clause_at kw (String x (a ++ b))); [discriminate|]. exact IH.
Qed.

Lemma quiet_search_body (kw body r : string) :
  all_chars plain kw = true -> Text.search_clause kw body = None ->
  r = "" \/ starts_with Text.is_space r = true ->
  starts_with Text.is_digit (Text.lstrip r) = false ->
  quiet (search_head kw) body r.
Proof.
  intros Hkw Hfree Hr Hd a b -> Hb. apply no_head, clause_at_app; auto.
  apply search_none_head. eapply search_none_suffix, Hfree.
Qed.

Lemma quiet_sub_nonspace (kw p r : string) :
  all_chars (fun c => negb (Text.is_space c)) p = true ->
  quiet (sub_head kw) p r.
Proof.
  intros Hp a b -> Hb. apply no_head, padded_none_nonspace.
  apply all_chars_suffix in Hp.
  destruct b as [|c b]; [contradiction|]. sapp. simpl in *.
  apply andb_true_iff in Hp as [Hc _]. apply negb_true_iff in Hc. exact Hc.
Qed.

Lemma quiet_sub_space (kw ws r : string) :
  all_chars Text.is_space ws = true ->
  Text.match_kw kw (Text.lstrip r) = None ->
  quiet (sub_head kw) ws r.
Proof.
  intros Hws Hr a b -> Hb. apply no_head, padded_none_lstrip.
  apply all_chars_suffix in Hws. rewrite lstrip_spaces by exact Hws. exact Hr.
Qed.

Lemma padded_none_clause (kw s : string) :
  Text.clause_at kw (Text.lstrip s) = None -> Text.padded_clause_at kw s = None.
Proof.
  unfold Text.clause_at, Text.padded_clause_at.
  pose proof (span_space_rest s) as Hs.
  destruct (Text.span Text.is_space s) as [ws0 r]. cbn [snd] in Hs. subst r.
  destruct (Text.match_kw kw (Text.lstrip s)) as [rest|]; [|reflexivity].
  destruct (Text.span Text.is_space rest) as [ws1 q].
  destruct (Text.span Text.is_digit q) as [ds t].
  destruct (Text.span Text.is_space t) as [ws2 u].
  destruct ((String.length ws1 =? 0)%nat || (String.length ds =? 0)%nat) eqn:E;
    [|discriminate].
  intros _. rewrite <- orb_assoc, E, orb_true_r. reflexivity.
Qed.

Lemma quiet_sub_blank (kw ws r : string) :
  all_chars Text.is_space ws = true ->
  Text.clause_at kw (Text.lstrip r) = None ->
  quiet (sub_head kw) ws r.
Proof.
  intros Hws Hr a b -> Hb. apply no_head, padded_none_clause.
  apply all_chars_suffix in Hws. rewrite lstrip_spaces by exact Hws. exact Hr.
Qed.

Lemma quiet_sub_body (kw body r : string) :
  all_chars plain kw = true -> Text.search_clause kw body = None ->
  Text.rstrip body = body ->
  r = "" \/ starts_with Text.is_space r = true ->
  starts_with Text.is_digit (Text.lstrip r) = false ->
  quiet (sub_head kw) body r.
Proof.
  intros Hkw Hfree Hfix Hr Hd a b -> Hb. apply no_head, padded_none_clause.
  assert (Hbfix : Text.rstrip b = b) by (eapply rstrip_fixed_suffix; eauto).
  destruct (rstrip_fixed_lstrip b r Hb Hbfix) as [_ ->].
  apply clause_at_app; auto. apply search_none_head.
  destruct (lstrip_suffix b) as [w Hw].
  rewrite Hw, <- sapp_assoc in Hfree. eapply search_none_suffix, Hfree.
Qed.

Lemma sub_drop (kw a r : string) :
  Text.sub_clause_from kw (String.length a) (a ++ r)
  = Text.sub_clause_from kw 0 r.
Proof.
  induction a as [|x a IH]; sapp; [reflexivity|]. exact IH.
Qed.

(** A match at the head of the text becomes one space, and the scan goes on
    behind it. *)
Lemma sub_at_head (kw m r : string) :
  Text.padded_clause_at kw (m ++ r) = Some (String.length m) -> m <> "" ->
  Text.sub_clause_from kw 0 (m ++ r) = " " ++ Text.sub_clause_from kw 0 r.
Proof.
  destruct m as [|x m]; [contradiction|]. intros H _. sapp.
  cbn [Text.sub_clause_from]. sapp. rewrite H. cbn [String.length].
  rewrite sub_drop. reflexivity.
Qed.

(** *** Clauses *)

Section Clauses.

Variable kw : string.
Variable c : Clause.
Hypothesis kw_plain : all_chars plain kw = true.
Hypothesis kw_word : kw <> "".
Hypothesis c_clause : is_clause kw c.

Lemma clause_word_nonspace :
  all_chars (fun x => negb (Text.is_space x)) (word c) = true /\ word c <> "".
Proof.
  destruct c_clause as (_ & _ & Hw & _). split.
  - apply (match_kw_chars _ kw); auto.
    + intros x y E Hx. apply eq_nocase_class in E as [<- _]. exact Hx.
    + eapply all_chars_impl, kw_plain. unfold plain. intros x Hx.
      apply andb_true_iff in Hx. tauto.
  - apply match_kw_length in Hw. destruct (word c); [|discriminate].
    destruct kw; [contradiction|discriminate].
Qed.

Lemma starts_digit_no_space (s r : string) :
  all_chars Text.is_digit s = true -> s <> "" ->
  starts_with Text.is_space (s ++ r) = false.
Proof.
  destruct s as [|x s]; [contradiction|]. sapp. simpl.
  intros H _. apply andb_true_iff in H as [Hx _]. apply digit_not_space, Hx.
Qed.

Lemma starts_space_no_digit (ws : string) :
  ws = "" \/ starts_with Text.is_space ws = true ->
  starts_with Text.is_digit ws = false.
Proof.
  intros [-> | H]; [reflexivity|]. destruct ws as [|x ws]; [reflexivity|].
  simpl in *. apply space_not_digit, H.
Qed.

Lemma nonzero_length (s : string) : s <> "" -> (String.length s =? 0)%nat = false.
Proof. destruct s; [contradiction|reflexivity]. Qed.

Lemma clause_at_clause (r : string) :
  r = "" \/ starts_with Text.is_space r = true ->
  Text.clause_at kw (word c ++ gap c ++ digits c ++ r) = Some (clause_value c).
Proof.
  intros Hr. destruct c_clause as (_ & _ & Hw & Hg & Hg0 & Hd & Hd0).
  unfold Text.clause_at. rewrite (match_kw_exact _ _ _ Hw).
  rewrite (span_all _ _ _ Hg (starts_digit_no_space _ _ Hd Hd0)).
  rewrite (span_all _ _ _ Hd (starts_space_no_digit _ Hr)).
  rewrite (nonzero_length _ Hg0), (nonzero_length _ Hd0). reflexivity.
Qed.

Lemma search_found (s : string) (v : Z) :
  Text.clause_at kw s = Some v -> Text.search_clause kw s = Some v.
Proof. intros H. destruct s; simpl; rewrite H; reflexivity. Qed.

Lemma all_space_starts (ws : string) :
  all_chars Text.is_space ws = true ->
  ws = "" \/ starts_with Text.is_space ws = true.
Proof.
  destruct ws as [|x ws]; [left; reflexivity|]. simpl. intros H.
  apply andb_true_iff in H. right. tauto.
Qed.

Lemma padded_at_clause (ws : string) :
  all_chars Text.is_space ws = true ->
  Text.padded_clause_at kw (clause_text c ++ ws)
  = Some (String.length (clause_text c ++ ws)).
Proof.
  intros Hws. destruct c_clause as (Hl & Hl0 & Hw & Hg & Hg0 & Hd & Hd0).
  destruct clause_word_nonspace as [Hwn Hw0].
  unfold clause_text. rewrite !sapp_assoc.
  unfold Text.padded_clause_at.
  rewrite (span_all _ (lead c) _ Hl).
  2:{ rewrite starts_with_app by exact Hw0. destruct (word c) as [|x w];
        [contradiction|]. simpl in *. apply andb_true_iff in Hwn as [Hx _].
      apply negb_true_iff in Hx. exact Hx. }
  rewrite (match_kw_exact _ _ _ Hw).
  rewrite (span_all _ _ _ Hg (starts_digit_no_space _ _ Hd Hd0)).
  rewrite (span_all _ _ _ Hd (starts_space_no_digit _ (all_space_starts _ Hws))).
  rewrite (span_all_end _ _ Hws).
  rewrite (nonzero_length _ Hl0), (nonzero_length _ Hg0), (nonzero_length _ Hd0).
  simpl. rewrite !slength_app, (match_kw_length _ _ Hw). f_equal. lia.
Qed.

Lemma clause_text_starts (r : string) :
  starts_with Text.is_space (clause_text c ++ r) = true.
Proof.
  destruct c_clause as (Hl & Hl0 & _). unfold clause_text.
  rewrite !sapp_assoc, starts_with_app by exact Hl0.
  apply all_chars_starts; assumption.
Qed.

Lemma clause_text_nonempty : clause_text c <> "".
Proof.
  destruct c_clause as (_ & Hl0 & _). unfold clause_text.
  destruct (lead c); [contradiction|discriminate].
Qed.

Lemma clause_text_rstrip : Text.rstrip (clause_text c) = clause_text c.
Proof.
  destruct c_clause as (_ & _ & _ & _ & _ & Hd & Hd0). unfold clause_text.
  rewrite <- !sapp_assoc. apply rstrip_app_fixed; [exact Hd0|].
  apply rstrip_fixed_nonspace. eapply all_chars_impl, Hd.
  intros x Hx. rewrite (digit_not_space x Hx). reflexivity.
Qed.

(** A clause of the keyword [kw] holds no letter of another keyword that
    starts with [k0], and no clause of it. *)
Lemma clause_foreign (k0 : ascii) :
  plain k0 = true ->
  all_chars (fun x => negb (Text.eq_nocase k0 x)) kw = true ->
  foreign k0 (clause_text c).
Proof.
  intros Hk0 Hkw. destruct c_clause as (Hl & _ & Hw & Hg & _ & Hd & _).
  unfold foreign, clause_text. rewrite !all_chars_app.
  repeat (apply andb_true_iff; split).
  - eapply all_chars_impl, Hl. intros x Hx.
    rewrite (plain_no_space k0 x Hk0 Hx). reflexivity.
  - apply (match_kw_chars _ kw); auto.
    intros x y E Hx. apply negb_true_iff in Hx. apply negb_true_iff.
    eapply eq_nocase_other; eauto.
  - eapply all_chars_impl, Hg. intros x Hx.
    rewrite (plain_no_space k0 x Hk0 Hx). reflexivity.
  - eapply all_chars_impl, Hd. intros x Hx.
    rewrite (plain_no_digit k0 x Hk0 Hx). reflexivity.
Qed.

Lemma sub_skip_clause (k0 : ascii) (kw' r : string) :
  plain k0 = true ->
  all_chars (fun x => negb (Text.eq_nocase k0 x)) kw = true ->
  Text.sub_clause_from (String k0 kw') 0 (clause_text c ++ r)
  = clause_text c ++ Text.sub_clause_from (String k0 kw') 0 r.
Proof.
  intros Hk0 Hkw. pose proof (clause_foreign k0 Hk0 Hkw) as Hf.
  destruct c_clause as (Hl & Hl0 & Hw & Hg & Hg0 & Hd & Hd0).
  destruct clause_word_nonspace as [Hwn Hw0].
  unfold foreign, clause_text in Hf. rewrite !all_chars_app in Hf.
  apply andb_true_iff in Hf as [_ Hf]. apply andb_true_iff in Hf as [Hfw Hf].
  apply andb_true_iff in Hf as [_ Hfd].
  unfold clause_text. rewrite !sapp_assoc.
  rewrite sub_skip. 2:{ apply quiet_sub_space; [exact Hl|].
    rewrite lstrip_fixed.
    - apply match_kw_head. rewrite starts_with_app by exact Hw0.
      destruct (word c); [contradiction|]. simpl in *.
      apply andb_true_iff in Hfw as [Hx _]. apply negb_true_iff, Hx.
    - rewrite starts_with_app by exact Hw0.
      destruct (word c); [contradiction|]. simpl in *.
      apply andb_true_iff in Hwn as [Hx _]. apply negb_true_iff, Hx. }
  rewrite sub_skip by (apply quiet_sub_nonspace; exact Hwn).
  rewrite sub_skip. 2:{ apply quiet_sub_space; [exact Hg|].
    rewrite lstrip_fixed by (apply starts_digit_no_space; assumption).
    apply match_kw_head. rewrite starts_with_app by exact Hd0.
    destruct (digits c); [contradiction|]. simpl in *.
    apply andb_true_iff in Hfd as [Hx _]. apply negb_true_iff, Hx. }
  rewrite sub_skip. 2:{ apply quiet_sub_nonspace. eapply all_chars_impl, Hd.
    intros x Hx. rewrite (digit_not_space x Hx). reflexivity. }
  reflexivity.
Qed.

End Clauses.

(** *** More on clauses *)

Section MoreClauses.

Variable kw : string.
Variable c : Clause.
Hypothesis kw_plain : all_chars plain kw = true.
Hypothesis kw_word : kw <> "".
Hypothesis c_clause : is_clause kw c.

Lemma clause_word_plain : all_chars plain (word c) = true.
Proof.
  destruct c_clause as (_ & _ & Hw & _).
  apply (match_kw_chars _ kw); auto.
  intros x y E Hx. apply eq_nocase_class in E as [Hs Hd]. unfold plain in *.
  rewrite <- Hs, <- Hd. exact Hx.
Qed.

Lemma clause_word_starts (r : string) :
  starts_with Text.is_space (word c ++ r) = false
  /\ starts_with Text.is_digit (word c ++ r) = false.
Proof.
  pose proof clause_word_plain as Hp.
  destruct (clause_word_nonspace kw c kw_plain kw_word c_clause) as [_ Hw0].
  destruct (word c) as [|x w]; [contradiction|]. sapp. cbn in *.
  apply andb_true_iff in Hp as [Hx _]. unfold plain in Hx.
  apply andb_true_iff in Hx as [Hs Hd].
  apply negb_true_iff in Hs, Hd. auto.
Qed.

Lemma clause_lstrip (r : string) :
  Text.lstrip (clause_text c ++ r) = word c ++ gap c ++ digits c ++ r.
Proof.
  destruct c_clause as (Hl & _). unfold clause_text. rewrite !sapp_assoc.
  rewrite lstrip_spaces by exact Hl. apply lstrip_fixed.
  apply clause_word_starts.
Qed.

Lemma clause_no_number (r : string) :
  starts_with Text.is_digit (Text.lstrip (clause_text c ++ r)) = false.
Proof. rewrite clause_lstrip. apply clause_word_starts. Qed.

Lemma clause_alone :
  clause_text c = "" \/ starts_with Text.is_space (clause_text c) = true.
Proof.
  right. rewrite <- (sapp_nil_r (clause_text c)).
  apply (clause_text_starts kw c c_clause).
Qed.

Lemma clause_alone_no_number :
  clause_text c = ""
  \/ (Text.lstrip (clause_text c) <> ""
      /\ starts_with Text.is_digit (Text.lstrip (clause_text c)) = false).
Proof.
  right. pose proof (clause_lstrip "") as Hl. rewrite sapp_nil_r in Hl.
  rewrite Hl. split.
  - destruct (clause_word_nonspace kw c kw_plain kw_word c_clause) as [_ Hw0].
    destruct (word c); [contradiction|discriminate].
  - apply clause_word_starts.
Qed.

(** The words of a clause hold no clause of a keyword with another first
    letter. *)
Lemma sub_skip_words (k0 : ascii) (kw' r : string) :
  plain k0 = true ->
  all_chars (fun x => negb (Text.eq_nocase k0 x)) kw = true ->
  Text.sub_clause_from (String k0 kw') 0 (word c ++ gap c ++ digits c ++ r)
  = word c ++ gap c ++ digits c ++ Text.sub_clause_from (String k0 kw') 0 r.
Proof.
  intros Hk0 Hkw.
  pose proof (clause_foreign kw c c_clause k0 Hk0 Hkw) as Hf.
  destruct c_clause as (Hl & Hl0 & Hw & Hg & Hg0 & Hd & Hd0).
  destruct (clause_word_nonspace kw c kw_plain kw_word c_clause) as [Hwn Hw0].
  unfold foreign, clause_text in Hf. rewrite !all_chars_app in Hf.
  apply andb_true_iff in Hf as [_ Hf]. apply andb_true_iff in Hf as [Hfw Hf].
  apply andb_true_iff in Hf as [_ Hfd].
  rewrite sub_skip by (apply quiet_sub_nonspace; exact Hwn).
  rewrite sub_skip. 2:{ apply quiet_sub_space; [exact Hg|].
    rewrite lstrip_fixed by (apply starts_digit_no_space; assumption).
    apply match_kw_head. rewrite starts_with_app by exact Hd0.
    destruct (digits c); [contradiction|]. simpl in *.
    apply andb_true_iff in Hfd as [Hx _]. apply negb_true_iff, Hx. }
  rewrite sub_skip. 2:{ apply quiet_sub_nonspace. eapply all_chars_impl, Hd.
    intros x Hx. rewrite (digit_not_space x Hx). reflexivity. }
  reflexivity.
Qed.

(** The match of a clause takes the whitespace behind it along. *)
Lemma padded_at_clause_then (ws r : string) :
  all_chars Text.is_space ws = true -> ws <> "" ->
  starts_with Text.is_space r = false ->
  Text.padded_clause_at kw ((clause_text c ++ ws) ++ r)
  = Some (String.length (clause_text c ++ ws)).
Proof.
  intros Hws Hws0 Hr. destruct c_clause as (Hl & Hl0 & Hw & Hg & Hg0 & Hd & Hd0).
  destruct (clause_word_nonspace kw c kw_plain kw_word c_clause) as [Hwn Hw0].
  unfold clause_text. rewrite !sapp_assoc.
  unfold Text.padded_clause_at.
  rewrite (span_all _ (lead c) _ Hl).
  2:{ rewrite starts_with_app by exact Hw0. destruct (word c) as [|x w];
        [contradiction|]. simpl in *. apply andb_true_iff in Hwn as [Hx _].
      apply negb_true_iff in Hx. exact Hx. }
  rewrite (match_kw_exact _ _ _ Hw).
  rewrite (span_all _ _ _ Hg (starts_digit_no_space _ _ Hd Hd0)).
  rewrite (span_all _ (digits c) _ Hd).
  2:{ apply starts_space_no_digit. right. rewrite starts_with_app by exact Hws0.
      apply all_chars_starts; assumption. }
  rewrite (span_all _ ws r Hws Hr).
  rewrite (nonzero_length _ Hl0), (nonzero_length _ Hg0), (nonzero_length _ Hd0).
  simpl. rewrite !slength_app, (match_kw_length _ _ Hw). f_equal. lia.
Qed.

End MoreClauses.

(** *** A filter: condition, LIMIT and OFFSET clauses *)

Lemma optional_text_starts (kw : string) (own : option Clause) (post : string) :
  optional_clause kw own ->
  post = "" \/ starts_with Text.is_space post = true ->
  optional_text own ++ post = ""
  \/ starts_with Text.is_space (optional_text own ++ post) = true.
Proof.
  intros Hown Hpost. destruct own as [c|]; simpl.
  - right. apply (clause_text_starts kw c Hown).
  - sapp. exact Hpost.
Qed.

Lemma optional_text_no_number (kw : string) (own : option Clause)
    (post : string) :
  all_chars plain kw = true -> kw <> "" ->
  optional_clause kw own ->
  starts_with Text.is_digit (Text.lstrip post) = false ->
  starts_with Text.is_digit (Text.lstrip (optional_text own ++ post)) = false.
Proof.
  intros Hkw Hkw0 Hown Hpost. destruct own as [c|]; simpl.
  - apply (clause_no_number kw c Hkw Hkw0 Hown).
  - sapp. exact Hpost.
Qed.

Lemma blank_no_number (ws : string) :
  all_chars Text.is_space ws = true ->
  starts_with Text.is_digit (Text.lstrip ws) = false.
Proof. intros H. rewrite lstrip_blank by exact H. reflexivity. Qed.

Lemma spaces_foreign (k0 : ascii) (ws : string) :
  plain k0 = true -> all_chars Text.is_space ws = true -> foreign k0 ws.
Proof.
  intros Hk0 Hws. unfold foreign. eapply all_chars_impl, Hws.
  intros x Hx. rewrite (plain_no_space k0 x Hk0 Hx). reflexivity.
Qed.

Section Filter.

Variable k0 : ascii.
Variable kw' : string.
Let kw := String k0 kw'.

Hypothesis kw_plain : all_chars plain kw = true.

Variables pre body post : string.
Variable own : option Clause.

Hypothesis pre_blank : all_chars Text.is_space pre = true.
Hypothesis body_there : body <> "".
Hypothesis body_left : Text.lstrip body = body.
Hypothesis body_right : Text.rstrip body = body.
Hypothesis body_free : Text.search_clause kw body = None.
Hypothesis own_clause : optional_clause kw own.

Lemma k0_plain : plain k0 = true.
Proof. unfold kw in kw_plain. simpl in kw_plain. apply andb_true_iff in kw_plain. tauto. Qed.

Lemma kw_word : kw <> "".
Proof. discriminate. Qed.

(** The condition, continued by whitespace or by clauses, holds no clause
    of its own. *)
Lemma body_then (r : string) :
  r = "" \/ starts_with Text.is_space r = true ->
  starts_with Text.is_digit (Text.lstrip r) = false ->
  Text.clause_at kw (Text.lstrip (body ++ r)) = None.
Proof.
  intros Hr Hd. rewrite lstrip_fixed.
  - apply clause_at_app; auto. apply search_none_head, body_free.
  - rewrite starts_with_app by exact body_there.
    apply lstrip_fixed_inv, body_left.
Qed.

(** The first clause of the keyword is the filter's own, behind the
    condition and what [mid] holds of other keywords. *)
Lemma search_filter (mid : string) :
  foreign k0 mid -> mid = "" \/ starts_with Text.is_space mid = true ->
  mid = "" \/ (Text.lstrip mid <> ""
               /\ starts_with Text.is_digit (Text.lstrip mid) = false) ->
  foreign k0 post -> post = "" \/ starts_with Text.is_space post = true ->
  starts_with Text.is_digit (Text.lstrip post) = false ->
  Text.search_clause kw (pre ++ body ++ mid ++ optional_text own ++ post)
  = clause_value <$> own.
Proof.
  intros Hmid Hmid0 Hmidd Hpost Hpost0 Hpostd.
  rewrite search_skip
    by (apply quiet_search_foreign, spaces_foreign; [apply k0_plain|exact pre_blank]).
  rewrite search_skip.
  2:{ apply quiet_search_body; auto.
      - destruct Hmid0 as [-> | Hmid0].
        + sapp. apply (optional_text_starts kw); assumption.
        + right. destruct mid; [discriminate|exact Hmid0].
      - destruct Hmidd as [-> | [Hne Hd]].
        + sapp. apply (optional_text_no_number kw); auto; apply kw_word.
        + rewrite lstrip_app by exact Hne.
          rewrite starts_with_app by exact Hne. exact Hd. }
  rewrite search_skip by (apply quiet_search_foreign; exact Hmid).
  destruct own as [c|]; simpl.
  - unfold clause_text. rewrite !sapp_assoc.
    pose proof own_clause as (Hl & _).
    rewrite search_skip
      by (apply quiet_search_foreign, spaces_foreign; [apply k0_plain|exact Hl]).
    rewrite (search_found kw _ (clause_value c)); [reflexivity|].
    apply clause_at_clause; assumption.
  - sapp. rewrite <- (sapp_nil_r post).
    rewrite search_skip by (apply quiet_search_foreign; exact Hpost).
    reflexivity.
Qed.

(** The substitution drops the filter's own clause, at the end of the
    filter, for one space, and leaves the rest as it is: the clause [mid] of
    the other keyword [kwm] too. *)
Lemma sub_filter (kwm : string) (mid : option Clause) :
  all_chars plain kwm = true -> kwm <> "" ->
  all_chars (fun x => negb (Text.eq_nocase k0 x)) kwm = true ->
  optional_clause kwm mid ->
  all_chars Text.is_space post = true ->
  Text.sub_clause kw (pre ++ body ++ optional_text mid ++ optional_text own ++ post)
  = pre ++ body ++ optional_text mid
    ++ match own with Some _ => " " | None => post end.
Proof.
  intros Hkwm Hkwm0 Hfor Hmid Hpost. unfold Text.sub_clause.
  assert (Hrest : forall r,
            r = optional_text mid ++ optional_text own ++ post ->
            r = "" \/ starts_with Text.is_space r = true).
  { intros r ->. destruct mid as [m|]; simpl.
    - right. apply (clause_text_starts kwm m Hmid).
    - sapp. apply (optional_text_starts kw); [assumption|].
      apply all_space_starts, Hpost. }
  assert (Hrestd : forall r,
            r = optional_text mid ++ optional_text own ++ post ->
            starts_with Text.is_digit (Text.lstrip r) = false).
  { intros r ->. apply (optional_text_no_number kwm); auto.
    apply (optional_text_no_number kw); auto; try apply kw_word.
    apply blank_no_number, Hpost. }
  rewrite sub_skip.
  2:{ apply quiet_sub_blank; [exact pre_blank|].
      apply body_then; [eapply Hrest|eapply Hrestd]; reflexivity. }
  rewrite sub_skip
    by (apply quiet_sub_body;
        [exact kw_plain|exact body_free|exact body_right
        |eapply Hrest; reflexivity|eapply Hrestd; reflexivity]).
  do 2 f_equal.
  assert (Hown : Text.sub_clause_from kw 0 (optional_text own ++ post)
                 = match own with Some _ => " " | None => post end).
  { destruct own as [c|]; simpl.
    - apply sub_at_end.
      + apply padded_at_clause; auto; apply kw_word.
      + pose proof (clause_text_nonempty kw c own_clause) as Hne.
        destruct (clause_text c); [contradiction|discriminate].
    - sapp. rewrite <- (sapp_nil_r post) at 1.
      rewrite sub_skip by (apply quiet_sub_space; [exact Hpost|reflexivity]).
      simpl. apply sapp_nil_r. }
  destruct mid as [m|]; simpl.
  - unfold kw. rewrite (sub_skip_clause kwm m Hkwm Hkwm0 Hmid k0 kw');
      [|apply k0_plain|exact Hfor].
    f_equal. exact Hown.
  - sapp. exact Hown.
Qed.

(** The substitution drops a clause that another clause follows together
    with the whitespace between the two, for one space. *)
Lemma sub_filter_inner (kwm : string) (c next : Clause) :
  is_clause kw c ->
  all_chars plain kwm = true -> kwm <> "" ->
  all_chars (fun x => negb (Text.eq_nocase k0 x)) kwm = true ->
  is_clause kwm next ->
  all_chars Text.is_space post = true ->
  Text.sub_clause kw (pre ++ body ++ clause_text c ++ clause_text next ++ post)
  = pre ++ body ++ " " ++ word next ++ gap next ++ digits next ++ post.
Proof.
  intros Hc Hkwm Hkwm0 Hfor Hnext Hpost. unfold Text.sub_clause.
  assert (Hr : starts_with Text.is_space
                 (clause_text c ++ clause_text next ++ post) = true)
    by apply (clause_text_starts kw c Hc).
  assert (Hd : starts_with Text.is_digit
                 (Text.lstrip (clause_text c ++ clause_text next ++ post))
               = false)
    by (apply (clause_no_number kw c kw_plain kw_word Hc)).
  rewrite sub_skip
    by (apply quiet_sub_blank; [exact pre_blank|apply body_then; auto]).
  rewrite sub_skip by (apply quiet_sub_body; auto).
  do 2 f_equal.
  pose proof Hnext as (Hl & Hl0 & _).
  unfold clause_text at 2. rewrite !sapp_assoc.
  rewrite <- (sapp_assoc (clause_text c) (lead next)).
  rewrite sub_at_head.
  - f_equal. unfold kw.
    rewrite (sub_skip_words kwm next Hkwm Hkwm0 Hnext k0 kw');
      [|apply k0_plain|exact Hfor].
    do 3 f_equal.
    rewrite <- (sapp_nil_r post) at 1.
    rewrite sub_skip by (apply quiet_sub_space; [exact Hpost|reflexivity]).
    simpl. apply sapp_nil_r.
  - apply padded_at_clause_then; auto; try apply kw_word.
    apply (clause_word_starts kwm next Hkwm Hkwm0 Hnext).
  - pose proof (clause_text_nonempty kw c Hc) as Hne.
    destruct (clause_text c); [contradiction|discriminate].
Qed.

End Filter.

Lemma strip_trim (pre x post : string) :
  all_chars Text.is_space pre = true -> all_chars Text.is_space post = true ->
  x <> "" -> Text.lstrip x = x -> Text.rstrip x = x ->
  Text.strip (pre ++ x ++ post) = x.
Proof.
  intros Hpre Hpost Hx Hl Hr. unfold Text.strip.
  rewrite lstrip_spaces by exact Hpre.
  rewrite lstrip_fixed.
  - rewrite rstrip_app_spaces by exact Hpost. exact Hr.
  - rewrite starts_with_app by exact Hx. apply lstrip_fixed_inv, Hl.
Qed.

(** The condition with a clause behind it has no whitespace at its ends. *)
Lemma condition_then_clause (body : string) (l : option Clause) :
  body <> "" -> Text.lstrip body = body -> Text.rstrip body = body ->
  optional_clause "LIMIT" l ->
  body ++ optional_text l <> ""
  /\ Text.lstrip (body ++ optional_text l) = body ++ optional_text l
  /\ Text.rstrip (body ++ optional_text l) = body ++ optional_text l.
Proof.
  intros Hbody Hleft Hright Hl. split; [|split].
  - destruct body; [contradiction|discriminate].
  - apply lstrip_fixed. rewrite starts_with_app by exact Hbody.
    apply lstrip_fixed_inv, Hleft.
  - destruct l as [c|]; simpl.
    + apply rstrip_app_fixed.
      * apply (clause_text_nonempty "LIMIT" c Hl).
      * apply (clause_text_rstrip "LIMIT" c Hl).
    + rewrite sapp_nil_r. exact Hright.
Qed.

(** Once the OFFSET clause is gone, the LIMIT clause goes. *)
Lemma limit_clause_goes (body : string) (l : option Clause) :
  is_condition body -> optional_clause "LIMIT" l ->
  Text.strip (Text.sub_clause "LIMIT" (body ++ optional_text l)) = body.
Proof.
  intros (Hbody & Hleft & Hright & HfreeL & HfreeO) Hl.
  pose proof (sub_filter "L" "IMIT" eq_refl "" body "" l eq_refl Hbody Hleft
                Hright HfreeL Hl "OFFSET" None eq_refl ltac:(discriminate)
                eq_refl I eq_refl) as Hsub.
  simpl optional_text in Hsub. rewrite !sapp_nil_l, sapp_nil_r in Hsub.
  rewrite Hsub.
  rewrite <- (sapp_nil_l (body ++ _)). apply strip_trim; auto.
  destruct l; reflexivity.
Qed.

(** The merged query, from what the code reads and what it strips. *)
Lemma merged_query (filter body sobject : string) (fields : list string)
    (l o limit offset : option Z) :
  Text.search_clause "LIMIT" filter = l ->
  Text.search_clause "OFFSET" filter = o ->
  Text.strip
    (Text.sub_clause "LIMIT" (Text.strip (Text.sub_clause "OFFSET" filter)))
  = body ->
  generate_user_filter_query filter sobject fields limit offset
  = "SELECT " ++ Py.join ", " fields ++ " FROM " ++ sobject ++ " " ++ body
    ++ clause_suffix "LIMIT" (merged_limit l limit)
    ++ clause_suffix "OFFSET" (merged_offset o offset).
Proof.
  intros HsearchL HsearchO Hsub. unfold generate_user_filter_query.
  rewrite HsearchL, HsearchO, Hsub.
  destruct l, o, limit, offset;
    simpl; rewrite ?sapp_assoc, ?sapp_nil_r; reflexivity.
Qed.

(** The filter with the LIMIT clause before the OFFSET clause. *)
Lemma user_filter_limit_first
    (ws0 body ws5 : string) (l o : option Clause)
    (sobject : string) (fields : list string) (limit offset : option Z) :
  all_chars Text.is_space ws0 = true ->
  all_chars Text.is_space ws5 = true ->
  is_condition body ->
  optional_clause "LIMIT" l ->
  optional_clause "OFFSET" o ->
  generate_user_filter_query
    (ws0 ++ body ++ optional_text l ++ optional_text o ++ ws5)
    sobject fields limit offset
  = "SELECT " ++ Py.join ", " fields ++ " FROM " ++ sobject ++ " " ++ body
    ++ clause_suffix "LIMIT" (merged_limit (clause_value <$> l) limit)
    ++ clause_suffix "OFFSET" (merged_offset (clause_value <$> o) offset).
Proof.
  intros Hws0 Hws5 Hcond Hl Ho.
  pose proof Hcond as (Hbody & Hleft & Hright & HfreeL & HfreeO).
  set (filter := ws0 ++ body ++ optional_text l ++ optional_text o ++ ws5).
  assert (Hpost : ws5 = "" \/ starts_with Text.is_space ws5 = true)
    by (apply all_space_starts, Hws5).
  apply merged_query.
  - (* the existing limit *)
    change filter
      with (ws0 ++ body ++ "" ++ optional_text l ++ optional_text o ++ ws5).
    apply search_filter; auto.
    + reflexivity.
    + unfold foreign. rewrite all_chars_app. apply andb_true_iff. split.
      * destruct o as [c|]; [|reflexivity].
        apply (clause_foreign "OFFSET" c); [exact Ho|reflexivity|reflexivity].
      * apply spaces_foreign; [reflexivity|exact Hws5].
    + apply (optional_text_starts "OFFSET"); assumption.
    + apply (optional_text_no_number "OFFSET"); auto; try discriminate.
      apply blank_no_number, Hws5.
  - (* the existing offset *)
    apply search_filter; auto.
    + destruct l as [c|]; [|reflexivity].
      apply (clause_foreign "LIMIT" c); [exact Hl|reflexivity|reflexivity].
    + destruct l as [c|]; [|left; reflexivity].
      apply (clause_alone "LIMIT" c Hl).
    + destruct l as [c|]; [|left; reflexivity].
      apply (clause_alone_no_number "LIMIT" c); auto; discriminate.
    + apply spaces_foreign; [reflexivity|exact Hws5].
    + apply blank_no_number, Hws5.
  - (* the clauses go *)
    assert (HsubO : Text.strip (Text.sub_clause "OFFSET" filter)
                    = body ++ optional_text l).
    { subst filter.
      rewrite (sub_filter "O" "FFSET" eq_refl ws0 body ws5 o Hws0 Hbody Hleft
                 Hright HfreeO Ho "LIMIT" l eq_refl ltac:(discriminate) eq_refl
                 Hl Hws5).
      rewrite <- (sapp_assoc body).
      destruct (condition_then_clause body l Hbody Hleft Hright Hl)
        as (H1 & H2 & H3).
      apply strip_trim; auto.
      destruct o; [reflexivity|exact Hws5]. }
    rewrite HsubO. apply limit_clause_goes; assumption.
Qed.

(** The filter with the OFFSET clause before the LIMIT clause. *)
Lemma user_filter_offset_first
    (ws0 body ws5 : string) (cl co : Clause)
    (sobject : string) (fields : list string) (limit offset : option Z) :
  all_chars Text.is_space ws0 = true ->
  all_chars Text.is_space ws5 = true ->
  is_condition body ->
  is_clause "LIMIT" cl ->
  is_clause "OFFSET" co ->
  generate_user_filter_query
    (ws0 ++ body ++ clause_text co ++ clause_text cl ++ ws5)
    sobject fields limit offset
  = "SELECT " ++ Py.join ", " fields ++ " FROM " ++ sobject ++ " " ++ body
    ++ clause_suffix "LIMIT" (merged_limit (Some (clause_value cl)) limit)
    ++ clause_suffix "OFFSET" (merged_offset (Some (clause_value co)) offset).
Proof.
  intros Hws0 Hws5 Hcond Hl Ho.
  pose proof Hcond as (Hbody & Hleft & Hright & HfreeL & HfreeO).
  set (filter := ws0 ++ body ++ clause_text co ++ clause_text cl ++ ws5).
  apply merged_query.
  - (* the existing limit, behind the OFFSET clause *)
    apply (search_filter "L" "IMIT" eq_refl ws0 body ws5 (Some cl) Hws0 HfreeL
             Hl (clause_text co)).
    + apply (clause_foreign "OFFSET" co); [exact Ho|reflexivity|reflexivity].
    + apply (clause_alone "OFFSET" co Ho).
    + apply (clause_alone_no_number "OFFSET" co); auto; discriminate.
    + apply spaces_foreign; [reflexivity|exact Hws5].
    + apply all_space_starts, Hws5.
    + apply blank_no_number, Hws5.
  - (* the existing offset, before the LIMIT clause *)
    change filter
      with (ws0 ++ body ++ "" ++ optional_text (Some co)
            ++ (clause_text cl ++ ws5)).
    apply (search_filter "O" "FFSET" eq_refl ws0 body (clause_text cl ++ ws5)
             (Some co) Hws0 HfreeO Ho "").
    + reflexivity.
    + left. reflexivity.
    + left. reflexivity.
    + unfold foreign. rewrite all_chars_app. apply andb_true_iff. split.
      * apply (clause_foreign "LIMIT" cl); [exact Hl|reflexivity|reflexivity].
      * apply spaces_foreign; [reflexivity|exact Hws5].
    + right. apply (clause_text_starts "LIMIT" cl Hl).
    + apply (clause_no_number "LIMIT" cl); auto; discriminate.
  - (* the clauses go: the OFFSET clause with the whitespace behind it *)
    set (cl' := mkClause " " (word cl) (gap cl) (digits cl)).
    assert (Hl' : optional_clause "LIMIT" (Some cl')).
    { destruct Hl as (_ & _ & Hrest). split; [reflexivity|].
      split; [discriminate|exact Hrest]. }
    assert (HsubO : Text.strip (Text.sub_clause "OFFSET" filter)
                    = body ++ optional_text (Some cl')).
    { subst filter.
      rewrite (sub_filter_inner "O" "FFSET" eq_refl ws0 body ws5 Hws0 Hbody
                 Hleft Hright HfreeO "LIMIT" co cl Ho eq_refl
                 ltac:(discriminate) eq_refl Hl Hws5).
      assert (E : ws0 ++ body ++ " " ++ word cl ++ gap cl ++ digits cl ++ ws5
                  = ws0 ++ (body ++ optional_text (Some cl')) ++ ws5).
      { unfold optional_text, clause_text, cl'. cbn [lead word gap digits].
        rewrite !sapp_assoc. reflexivity. }
      rewrite E.
      destruct (condition_then_clause body (Some cl') Hbody Hleft Hright Hl')
        as (H1 & H2 & H3).
      apply strip_trim; auto. }
    rewrite HsubO. apply limit_clause_goes; assumption.
Qed.

(** C6, as the code has it, on text of code points below 256.  For a filter
    made of a condition (not empty, without whitespace at its ends, and with
    no LIMIT or OFFSET in it that whitespace and a digit follow), then at
    most one [LIMIT n] clause and at most one [OFFSET m] clause, in either
    order, in any letter case and with whitespace before, between and behind,
    the query is [SELECT fields FROM sobject], the condition as it is,
    [LIMIT] with the smaller of [n] and the requested limit, and [OFFSET]
    with the sum of [m] and the requested offset (of an existing and a
    requested value the one there is, and no clause when there is none): the
    clauses of the filter are gone, and the whitespace around them with
    them. *)
Theorem user_filter_merge
    (ws0 body ws5 : string) (l o : option Clause) (offset_first : bool)
    (sobject : string) (fields : list string) (limit offset : option Z) :
  all_chars Text.is_space ws0 = true ->
  all_chars Text.is_space ws5 = true ->
  is_condition body ->
  optional_clause "LIMIT" l ->
  optional_clause "OFFSET" o ->
  generate_user_filter_query
    (ws0 ++ body ++ clauses_text offset_first l o ++ ws5)
    sobject fields limit offset
  = "SELECT " ++ Py.join ", " fields ++ " FROM " ++ sobject ++ " " ++ body
    ++ clause_suffix "LIMIT" (merged_limit (clause_value <$> l) limit)
    ++ clause_suffix "OFFSET" (merged_offset (clause_value <$> o) offset).
Proof.
  intros Hws0 Hws5 Hcond Hl Ho.
  assert (Hfirst : generate_user_filter_query
            (ws0 ++ body ++ (optional_text l ++ optional_text o) ++ ws5)
            sobject fields limit offset
          = "SELECT " ++ Py.join ", " fields ++ " FROM " ++ sobject ++ " "
            ++ body
            ++ clause_suffix "LIMIT" (merged_limit (clause_value <$> l) limit)
            ++ clause_suffix "OFFSET"
                 (merged_offset (clause_value <$> o) offset)).
  { rewrite sapp_assoc. apply user_filter_limit_first; assumption. }
  destruct offset_first; cbn [clauses_text]; [|exact Hfirst].
  destruct l as [cl|], o as [co|].
  - cbn [optional_text]. rewrite sapp_assoc.
    apply user_filter_offset_first; assumption.
  - cbn [optional_text] in *. sapp. rewrite sapp_nil_r in Hfirst. exact Hfirst.
  - cbn [optional_text] in *. sapp. rewrite sapp_nil_r. exact Hfirst.
  - exact Hfirst.
Qed.

Lemma user_filter_merge_witness :
  let l := mkClause " " "LIMIT" " " "100" in
  let o := mkClause " " "OFFSET" " " "20" in
  all_chars Text.is_space "" = true
  /\ is_condition "SELECT * FROM users"
  /\ is_condition "WHERE Credit_Limit__c > 5"
  /\ optional_clause "LIMIT" (Some l)
  /\ optional_clause "OFFSET" (Some o)
  /\ generate_user_filter_query "SELECT * FROM users LIMIT 100 OFFSET 20"
       "Contact" ["Id"] (Some 50) (Some 10)
     = "SELECT Id FROM Contact SELECT * FROM users LIMIT 50 OFFSET 30"
  /\ generate_user_filter_query "WHERE Credit_Limit__c > 5 OFFSET 20 LIMIT 100"
       "Contact" ["Id"] (Some 50) (Some 10)
     = "SELECT Id FROM Contact WHERE Credit_Limit__c > 5 LIMIT 50 OFFSET 30".
Proof.
  intros l o.
  assert (H0 : all_chars Text.is_space "" = true) by reflexivity.
  assert (Hb : is_condition "SELECT * FROM users").
  { repeat split; try reflexivity. discriminate. }
  assert (Hb' : is_condition "WHERE Credit_Limit__c > 5").
  { repeat split; try reflexivity. discriminate. }
  assert (Hl : optional_clause "LIMIT" (Some l)).
  { repeat split; try reflexivity; discriminate. }
  assert (Ho : optional_clause "OFFSET" (Some o)).
  { repeat split; try reflexivity; discriminate. }
  repeat (split; [assumption|]). split.
  - exact (user_filter_merge "" "SELECT * FROM users" "" (Some l) (Some o) false
             "Contact" ["Id"] (Some 50) (Some 10) H0 H0 Hb Hl Ho).
  - exact (user_filter_merge "" "WHERE Credit_Limit__c > 5" "" (Some l) (Some o)
             true "Contact" ["Id"] (Some 50) (Some 10) H0 H0 Hb' Hl Ho).
Defined.

(** The same filter in mixed case, with more whitespace. *)
Example user_filter_mixed_case :
  generate_user_filter_query "   SELECT * FROM users   LiMiT 100   oFfSeT 20   "
    "Contact" ["Id"] (Some 50) (Some 10)
  = "SELECT Id FROM Contact SELECT * FROM users LIMIT 50 OFFSET 30".
Proof. vm_compute. reflexivity. Qed.

(** Conditions that hold the letters of a keyword, but no clause. *)
Example conditions_with_the_letters :
  is_condition "WHERE Credit_Limit__c > 5"
  /\ is_condition "Name = 'Unlimited'"
  /\ is_condition "WHERE Offset__c = 3 AND Limit__c = 4"
  /\ generate_user_filter_query "Name = 'Unlimited' LIMIT 100" "Contact" ["Id"]
       (Some 50) None
     = "SELECT Id FROM Contact Name = 'Unlimited' LIMIT 50".
Proof.
  repeat split; try discriminate; vm_compute; reflexivity.
Qed.

(** C6, as the claim has it, fails.  Whitespace inside the condition is not
    collapsed; a [LIMIT] clause at the very start of the filter, with no
    whitespace before it, is read but not stripped, and so is one with
    nothing but whitespace before it; of two [LIMIT] clauses the second stays
    in the filter; and a condition that holds the text of a clause loses
    it, the number being taken for the existing limit. *)
Lemma user_filter_not_normalized :
  generate_user_filter_query "WHERE Name = 'a'  AND Age > 3 LIMIT 100"
    "Contact" ["Id"] (Some 50) None
  = "SELECT Id FROM Contact WHERE Name = 'a'  AND Age > 3 LIMIT 50"
  /\ collapsed
       (generate_user_filter_query "WHERE Name = 'a'  AND Age > 3 LIMIT 100"
          "Contact" ["Id"] (Some 50) None) = false
  /\ generate_user_filter_query "LIMIT 100" "Contact" ["Id"] (Some 50) None
     = "SELECT Id FROM Contact LIMIT 100 LIMIT 50"
  /\ generate_user_filter_query " LIMIT 100" "Contact" ["Id"] (Some 50) None
     = "SELECT Id FROM Contact LIMIT 100 LIMIT 50"
  /\ generate_user_filter_query "WHERE a = 1 LIMIT 5 LIMIT 3" "Contact" ["Id"]
       (Some 4) None
     = "SELECT Id FROM Contact WHERE a = 1 LIMIT 3 LIMIT 4"
  /\ generate_user_filter_query "WHERE Limit 7 = x LIMIT 100" "Contact" ["Id"]
       (Some 50) None
     = "SELECT Id FROM Contact WHERE = x LIMIT 7".
Proof. repeat split; vm_compute; reflexivity. Qed.

(** * Further properties of the code *)

(** ** More on the batches of a Bulk upload *)

Section BatchRows.

Import BulkApiDml.

Variable hdr : string.
Variables n char_limit : Z.

(** Whatever the limits, the loop hands on every row it was given and every
    row it serializes, in order, each batch behind the header row. *)
Lemma _batch_loop_rows (records : list LoadRecord) (data : list string) (cur : Z) :
  let out := _batch_loop hdr n char_limit records (hdr :: data) cur in
  Forall (fun batch => head batch = Some hdr) out
  /\ concat (map data_rows out) = (data ++ map _serialize_csv_record records)%list.
Proof.
  revert data cur. induction records as [|r records IH]; intros data cur out;
    subst out; cbn [_batch_loop map].
  - rewrite List.app_nil_r. destruct (1 <? Z.of_nat (length (hdr :: data))) eqn:E.
    + split; [repeat constructor|]. cbn. apply List.app_nil_r.
    + split; [constructor|]. destruct data; [reflexivity|].
      apply Z.ltb_ge in E. cbn [length] in E. lia.
  - set (s := _serialize_csv_record r).
    destruct (char_limit <? len s + cur).
    + destruct (Z.of_nat (length ([hdr] ++ [s])%list) - 1 =? n).
      * destruct (IH [] (len hdr)) as [Hall Hcat]. split.
        -- repeat (constructor; [reflexivity|]). exact Hall.
        -- cbn [app map concat]. rewrite Hcat. unfold data_rows.
           cbn [tail app]. rewrite <- ?List.app_assoc. reflexivity.
      * destruct (IH [s] (len hdr + len s)) as [Hall Hcat]. split.
        -- repeat (constructor; [reflexivity|]). exact Hall.
        -- cbn [app map concat]. cbn [app] in Hcat. rewrite Hcat.
           unfold data_rows. cbn [tail app]. rewrite <- ?List.app_assoc.
           reflexivity.
    + destruct (Z.of_nat (length ((hdr :: data) ++ [s])%list) - 1 =? n).
      * destruct (IH [] (len hdr)) as [Hall Hcat]. split.
        -- repeat (constructor; [reflexivity|]). exact Hall.
        -- cbn [app map concat]. rewrite Hcat. unfold data_rows.
           cbn [tail app]. rewrite <- ?List.app_assoc. reflexivity.
      * destruct (IH (data ++ [s])%list (cur + len s)) as [Hall Hcat]. split.
        -- exact Hall.
        -- cbn [app]. rewrite Hcat. rewrite <- ?List.app_assoc. reflexivity.
Qed.

(** When the character limit is never reached, the loop fills every batch
    but the last with [n] rows. *)
Lemma _batch_loop_full (records : list LoadRecord) :
  1 <= n ->
  forall (data : list string) (cur : Z),
    cur = batch_chars (hdr :: data) ->
    Z.of_nat (length data) < n ->
    cur + foldr (fun r acc => len (_serialize_csv_record r) + acc) 0 records
      <= char_limit ->
    let out := _batch_loop hdr n char_limit records (hdr :: data) cur in
    forall i batch, out !! i = Some batch -> (S i < length out)%nat ->
      Z.of_nat (length (data_rows batch)) = n.
Proof.
  intros Hn. induction records as [|r records IH];
    intros data cur Hcur Hlen Hfit out; subst out; cbn [_batch_loop].
  - intros i batch _ Hi. destruct (1 <? _) in Hi; cbn [length] in Hi; lia.
  - cbn [foldr] in Hfit. set (s := _serialize_csv_record r) in *.
    assert (Hrest : 0 <= foldr (fun r acc => len (_serialize_csv_record r) + acc)
                           0 records).
    { clear. induction records; cbn [foldr]; unfold len in *; lia. }
    assert (Hs : 0 <= len s) by (unfold len; lia).
    assert (Hh : len hdr <= cur).
    { rewrite Hcur. unfold batch_chars. cbn [foldr].
      assert (0 <= foldr (fun row acc => len row + acc) 0 data).
      { clear. induction data; cbn [foldr]; unfold len in *; lia. }
      lia. }
    replace (char_limit <? len s + cur) with false
      by (symmetry; apply Z.ltb_ge; lia).
    assert (Hl : Z.of_nat (length ((hdr :: data) ++ [s])%list) - 1
                 = Z.of_nat (length data) + 1).
    { rewrite List.length_app. cbn [length]. lia. }
    rewrite Hl. cbn [app].
    destruct (Z.of_nat (length data) + 1 =? n) eqn:En.
    + apply Z.eqb_eq in En. intros [|i] batch Hb Hi.
      * injection Hb as <-. unfold data_rows. cbn [tail].
        rewrite List.length_app. cbn [length]. lia.
      * cbn in Hb. cbn [length] in Hi.
        eapply (IH [] (len hdr)); eauto.
        -- unfold batch_chars. cbn [foldr]. lia.
        -- cbn [length]. lia.
        -- lia.
        -- lia.
    + apply Z.eqb_neq in En.
      apply (IH (data ++ [s])%list (cur + len s)).
      * change (hdr :: data ++ [s])%list with ((hdr :: data) ++ [s])%list.
        rewrite batch_chars_snoc. lia.
      * rewrite List.length_app. cbn [length]. lia.
      * lia.
Qed.

End BatchRows.

(** X1: whatever the batch size and the character limit, [_batch] loses,
    repeats and reorders no record: every batch starts with the header row,
    and the data rows of the batches, in the order yielded, are the
    serialized records. *)
Theorem batch_keeps_every_record
    (self : DmlOperation) (records : list LoadRecord) (n char_limit : Z) :
  let hdr := BulkApiDml._serialize_csv_record (map Some (fields self)) in
  let batches := BulkApiDml._batch self records n char_limit in
  Forall (fun batch => head batch = Some hdr) batches
  /\ concat (map data_rows batches)
     = map BulkApiDml._serialize_csv_record records.
Proof.
  intros hdr batches. subst batches. unfold BulkApiDml._batch. fold hdr.
  apply (_batch_loop_rows hdr n char_limit records []).
Qed.

(** X2: when the header row and all the records together stay within the
    character limit, [_batch] cuts by count alone: every batch but the last
    holds exactly [n] data rows. *)
Theorem batch_full_but_last
    (self : DmlOperation) (records : list LoadRecord) (n char_limit : Z) :
  let hdr := BulkApiDml._serialize_csv_record (map Some (fields self)) in
  1 <= n ->
  BulkApiDml.len hdr
  + foldr (fun r acc => BulkApiDml.len (BulkApiDml._serialize_csv_record r) + acc)
      0 records <= char_limit ->
  let batches := BulkApiDml._batch self records n char_limit in
  forall i batch, batches !! i = Some batch -> (S i < length batches)%nat ->
    Z.of_nat (length (data_rows batch)) = n.
Proof.
  intros hdr Hn Hfit batches. subst batches. unfold BulkApiDml._batch. fold hdr.
  apply (_batch_loop_full hdr n char_limit records Hn [] (BulkApiDml.len hdr)).
  - unfold batch_chars. cbn [foldr]. lia.
  - cbn [length]. lia.
  - exact Hfit.
Qed.

Lemma batch_full_but_last_witness :
  let self := Sample.contact INSERT 2 in
  let hdr := BulkApiDml._serialize_csv_record (map Some (fields self)) in
  let batches :=
    BulkApiDml._batch self Sample.three_records 2 BulkApiDml.DEFAULT_CHAR_LIMIT in
  1 <= 2
  /\ BulkApiDml.len hdr
     + foldr (fun r acc => BulkApiDml.len (BulkApiDml._serialize_csv_record r) + acc)
         0 Sample.three_records <= BulkApiDml.DEFAULT_CHAR_LIMIT
  /\ length batches = 2%nat
  /\ forall batch, batches !! 0%nat = Some batch ->
       Z.of_nat (length (data_rows batch)) = 2.
Proof.
  intros self hdr batches.
  assert (H1 : 1 <= 2) by lia.
  assert (H2 : BulkApiDml.len hdr
     + foldr (fun r acc => BulkApiDml.len (BulkApiDml._serialize_csv_record r) + acc)
         0 Sample.three_records <= BulkApiDml.DEFAULT_CHAR_LIMIT)
    by (apply Z.leb_le; vm_compute; reflexivity).
  assert (H3 : length batches = 2%nat) by (vm_compute; reflexivity).
  repeat (split; [assumption|]).
  intros batch Hb.
  apply (batch_full_but_last self Sample.three_records 2
           BulkApiDml.DEFAULT_CHAR_LIMIT H1 H2 0%nat batch Hb).
  fold batches. rewrite H3. lia.
Defined.

(** ** More on the choice of the backend *)

Lemma sobject_map_of_last (record_count : list (string * Z)) (m : gmap string Z)
    (name : string) :
  fold_left (fun m entry => <[entry.1 := entry.2]> m) record_count m !! name
  = match last (filter (fun entry => entry.1 = name) record_count) with
    | Some entry => Some entry.2
    | None => m !! name
    end.
Proof.
  revert m. induction record_count as [|[k v] l IH]; intros m; cbn [fold_left].
  - reflexivity.
  - rewrite IH. rewrite filter_cons. cbn [fst snd].
    destruct (decide (k = name)) as [->|Hne].
    + destruct (filter _ l) as [|e l'] eqn:E.
      * cbn. apply lookup_insert_eq.
      * change (last ((name, v) :: e :: l')) with (last (e :: l')).
        destruct (last (e :: l')) eqn:El; [reflexivity|].
        apply last_None in El. discriminate.
    + destruct (last (filter _ l)); [reflexivity|].
      apply lookup_insert_ne. exact Hne.
Qed.

(** X3: left to itself, the query factory takes the Bulk class exactly when
    the API version is below 42.0 or the org counts at least 2000 records of
    the sobject (an sobject the count does not list goes to REST; of several
    entries of the sobject the last counts).  A caller who forces Bulk gets
    Bulk; a caller who forces REST gets REST from API version 42.0 on and
    Bulk below it. *)
Theorem get_query_operation_choice
    (v : Q) (sobject : string) (record_count : list (string * Z))
    (api : option DataApi) :
  let chosen := Factory.get_query_operation v sobject record_count api in
  let counted :=
    exists entry,
      last (filter (fun entry => entry.1 = sobject) record_count) = Some entry
      /\ 2000 <= entry.2 in
  ((api = None \/ api = Some SMART) ->
     (chosen = inr Factory.BulkApiQueryOperation <-> (v < 42)%Q \/ counted)
     /\ (chosen = inr Factory.RestApiQueryOperation
         <-> ~ ((v < 42)%Q \/ counted)))
  /\ (api = Some BULK -> chosen = inr Factory.BulkApiQueryOperation)
  /\ (api = Some REST ->
        ((42 <= v)%Q -> chosen = inr Factory.RestApiQueryOperation)
        /\ ((v < 42)%Q -> chosen = inr Factory.BulkApiQueryOperation)).
Proof.
  intros chosen counted. subst chosen.
  unfold Factory.get_query_operation, Factory.force_bulk_on_old_api.
  split; [|split].
  - intros Hapi. destruct (Factory.below_42 v) eqn:Ev.
    + apply below_42_true in Ev.
      destruct Hapi as [-> | ->]; cbn; split; split; intros H;
        try discriminate; try reflexivity; tauto.
    + apply below_42_false in Ev.
      assert (Hn : ~ (v < 42)%Q) by (intros H; apply (Qlt_not_le _ _ H Ev)).
      assert (Hlook : Factory.sobject_map_of record_count !! sobject
                      = match last (filter (fun entry => entry.1 = sobject)
                                      record_count) with
                        | Some entry => Some entry.2
                        | None => None
                        end).
      { unfold Factory.sobject_map_of. rewrite sobject_map_of_last.
        destruct (last _); [reflexivity|apply lookup_empty]. }
      assert (Hc : counted
                   <-> exists n, Factory.sobject_map_of record_count !! sobject
                                 = Some n /\ 2000 <= n).
      { rewrite Hlook. subst counted. split.
        - intros (e & -> & He). eauto.
        - intros (n & Hn' & Hle). destruct (last _) as [e|]; [|discriminate].
          injection Hn' as <-. eauto. }
      destruct (Factory.sobject_map_of record_count !! sobject) as [n|] eqn:En.
      * destruct (2000 <=? n) eqn:E2.
        -- apply Z.leb_le in E2.
           assert (counted) by (apply Hc; eauto).
           destruct Hapi as [-> | ->]; cbv beta iota zeta;
             cbv beta iota zeta; split; split; intros H';
             try discriminate; try reflexivity; tauto.
        -- assert (~ counted).
           { intros Hcd. apply Hc in Hcd as (m & [= <-] & Hle).
             apply Z.leb_gt in E2. lia. }
           destruct Hapi as [-> | ->]; cbv beta iota zeta;
             cbv beta iota zeta;
             split; split; intros H'; try discriminate; try reflexivity; tauto.
      * assert (~ counted).
        { intros Hcd. apply Hc in Hcd as (m & Hm & _). discriminate. }
        destruct Hapi as [-> | ->]; cbv beta iota zeta;
          cbv beta iota zeta;
          split; split; intros H'; try discriminate; try reflexivity; tauto.
  - intros ->. reflexivity.
  - intros ->. split; intros H.
    + apply below_42_false in H. rewrite H. reflexivity.
    + apply below_42_true in H. rewrite H. reflexivity.
Qed.

(** X4: neither factory ever reaches its [Unknown API] assertion: for every
    version, operation, volume, record count and requested api, each returns
    an operation class. *)
Theorem factories_never_raise
    (v : Q) (op : DataOperationType) (volume : Z) (sobject : string)
    (record_count : list (string * Z)) (api : option DataApi) :
  (exists c, Factory.get_dml_operation v op volume api = inr c)
  /\ (exists c, Factory.get_query_operation v sobject record_count api = inr c).
Proof.
  split.
  - unfold Factory.get_dml_operation, Factory.force_bulk_on_old_api.
    destruct api as [[]|]; repeat case_match; eauto; discriminate.
  - unfold Factory.get_query_operation, Factory.force_bulk_on_old_api.
    destruct api as [[]|]; repeat case_match; eauto; discriminate.
Qed.

(** ** More on the status of a Bulk job *)

(** X5: the job result depends on which batch states occur, not on their
    order or their number, and on the sums of the two counters only; and the
    state messages are handed on for a failed job alone. *)
Theorem parse_job_state_set_of_states (tree tree' : BulkJobMixin.BatchListXml) :
  (forall s, s ∈ BulkJobMixin.state_texts tree
             <-> s ∈ BulkJobMixin.state_texts tree') ->
  foldr Z.add 0 (BulkJobMixin.numberRecordsFailed tree)
  = foldr Z.add 0 (BulkJobMixin.numberRecordsFailed tree') ->
  foldr Z.add 0 (BulkJobMixin.numberRecordsProcessed tree)
  = foldr Z.add 0 (BulkJobMixin.numberRecordsProcessed tree') ->
  let r := BulkJobMixin._parse_job_state tree in
  let r' := BulkJobMixin._parse_job_state tree' in
  status r = status r'
  /\ records_processed r = records_processed r'
  /\ total_row_errors r = total_row_errors r'
  /\ (status r <> JOB_FAILURE -> job_errors r = []).
Proof.
  intros Hs Hf Hp r r'. subst r r'. unfold BulkJobMixin._parse_job_state.
  rewrite !sum_foldr, <- Hf, <- Hp.
  assert (Hc : forall x, Py.contains x (BulkJobMixin.state_texts tree)
                         = Py.contains x (BulkJobMixin.state_texts tree')).
  { intros x. unfold Py.contains. apply bool_decide_ext, Hs. }
  rewrite <- !Hc.
  repeat case_match; cbn; repeat split; auto; intros Hne; contradiction.
Qed.

Lemma parse_job_state_set_of_states_witness :
  let tree := BulkJobMixin.mkBatchList ["Completed"; "Failed"] ["boom"] [1; 2] [3] in
  let tree' :=
    BulkJobMixin.mkBatchList ["Failed"; "Completed"; "Failed"] ["late"] [3] [2; 1] in
  (forall s, s ∈ BulkJobMixin.state_texts tree
             <-> s ∈ BulkJobMixin.state_texts tree')
  /\ foldr Z.add 0 (BulkJobMixin.numberRecordsFailed tree)
     = foldr Z.add 0 (BulkJobMixin.numberRecordsFailed tree')
  /\ foldr Z.add 0 (BulkJobMixin.numberRecordsProcessed tree)
     = foldr Z.add 0 (BulkJobMixin.numberRecordsProcessed tree')
  /\ status (BulkJobMixin._parse_job_state tree)
     = status (BulkJobMixin._parse_job_state tree')
  /\ records_processed (BulkJobMixin._parse_job_state tree)
     = records_processed (BulkJobMixin._parse_job_state tree').
Proof.
  intros tree tree'.
  assert (Hs : forall s, s ∈ BulkJobMixin.state_texts tree
                         <-> s ∈ BulkJobMixin.state_texts tree').
  { intros s. cbn. rewrite !elem_of_cons, elem_of_nil. tauto. }
  destruct (parse_job_state_set_of_states tree tree' Hs eq_refl eq_refl)
    as (H1 & H2 & _).
  split; [exact Hs|]. split; [reflexivity|]. split; [reflexivity|].
  split; [exact H1|exact H2].
Defined.

(** ** More on the selection queries *)

Section Intersection.

Import Selection.

Variable query_fields : list string.
Variable i : nat.
Hypothesis id_column : index_of "Id" query_fields = inr i.

(** The dict of the select records: under a key the last record with this
    id; every record has the id column. *)
Lemma id_to_record_map_lookup (records : list Row) (m m' : gmap string Row) :
  id_to_record_map query_fields records m = inr m' ->
  Forall (fun record => is_Some (record !! i)) records
  /\ forall key,
       m' !! key
       = match last (filter (fun record => record !! i = Some key) records) with
         | Some record => Some record
         | None => m !! key
         end.
Proof.
  revert m. induction records as [|record records IH]; intros m;
    cbn [id_to_record_map].
  - intros [= <-]. split; [constructor|]. reflexivity.
  - rewrite id_column. cbn [Py.bind]. unfold item.
    destruct (record !! i) as [k|] eqn:Ek; [|discriminate].
    cbn [Py.bind Py.ret]. intros Hrec. apply IH in Hrec as [Hall Hlook].
    split; [constructor; [rewrite Ek; eauto|exact Hall]|].
    intros key. rewrite Hlook, filter_cons.
    destruct (decide (record !! i = Some key)) as [Heq|Hne].
    + destruct (filter _ records) as [|e l] eqn:E.
      * cbn. rewrite Ek in Heq. injection Heq as ->. apply lookup_insert_eq.
      * change (last (record :: e :: l)) with (last (e :: l)).
        destruct (last (e :: l)) eqn:El; [reflexivity|].
        apply last_None in El. discriminate.
    + destruct (last (filter _ records)); [reflexivity|].
      apply lookup_insert_ne. intros ->. apply Hne. exact Ek.
Qed.

End Intersection.

Lemma last_elem_of {A} (l : list A) (x : A) : last l = Some x -> x ∈ l.
Proof.
  intros H. apply last_Some in H as [l' ->]. apply elem_of_app. right.
  apply list_elem_of_here.
Qed.

(** X6: the intersection of the select query with the user query.  When it
    returns, it returns at most one record per id of the user query, in the
    order of the user query; every record it returns is a record of the
    select query whose id the user query returned; and every id of the user
    query that a select record carries is there. *)
Theorem intersect_is_the_intersection
    (query_fields : list string) (user_query_ids : list string)
    (select_query_records found : list Row) :
  Selection.intersect query_fields user_query_ids select_query_records
  = inr found ->
  (length found <= length user_query_ids)%nat
  /\ (forall row, row ∈ found -> row ∈ select_query_records)
  /\ (select_query_records <> [] ->
      exists i,
        index_of "Id" query_fields = inr i
        /\ (exists pick,
              found = omap pick user_query_ids
              /\ forall id row, pick id = Some row -> row !! i = Some id)
        /\ (forall id row, id ∈ user_query_ids -> row ∈ select_query_records ->
              row !! i = Some id ->
              exists row', row' ∈ found /\ row' !! i = Some id)).
Proof.
  unfold Selection.intersect.
  destruct (Selection.id_to_record_map query_fields select_query_records ∅)
    as [e|m] eqn:Em; cbn [Py.bind Py.ret]; [discriminate|].
  intros [= <-]. split; [|split].
  - induction user_query_ids as [|id ids IH]; cbn; [lia|].
    destruct (m !! id); cbn [length]; lia.
  - destruct select_query_records as [|r0 recs].
    { cbn in Em. injection Em as <-. intros row Hin.
      apply list_elem_of_omap in Hin as (id & _ & Hid).
      rewrite lookup_empty in Hid. discriminate. }
    cbn [Selection.id_to_record_map] in Em.
    destruct (index_of "Id" query_fields) as [e|i] eqn:Ei; [discriminate|].
    assert (Em' : Selection.id_to_record_map query_fields (r0 :: recs) ∅ = inr m).
    { cbn [Selection.id_to_record_map]. rewrite Ei. exact Em. }
    destruct (id_to_record_map_lookup query_fields i Ei _ _ _ Em') as [_ Hlook].
    intros row Hin. apply list_elem_of_omap in Hin as (id & _ & Hid).
    rewrite Hlook, lookup_empty in Hid.
    destruct (last _) as [r|] eqn:El; [|discriminate]. injection Hid as <-.
    apply last_elem_of in El. apply list_elem_of_filter in El. tauto.
  - intros Hne. destruct select_query_records as [|r0 recs]; [contradiction|].
    pose proof Em as Em'. cbn [Selection.id_to_record_map] in Em.
    destruct (index_of "Id" query_fields) as [e|i] eqn:Ei; [discriminate|].
    clear Em.
    destruct (id_to_record_map_lookup query_fields i Ei _ _ _ Em') as [_ Hlook].
    exists i. split; [reflexivity|]. split.
    + exists (fun id => m !! id). split; [reflexivity|].
      intros id row Hid. rewrite Hlook, lookup_empty in Hid.
      destruct (last _) as [r|] eqn:El; [|discriminate]. injection Hid as <-.
      apply last_elem_of in El. apply list_elem_of_filter in El. tauto.
    + intros id row Hid Hrow Hcol.
      assert (Hin : row ∈ filter (fun record => record !! i = Some id) (r0 :: recs))
        by (apply list_elem_of_filter; auto).
      destruct (last (filter (fun record => record !! i = Some id) (r0 :: recs)))
        as [r|] eqn:El.
      * exists r. split.
        -- apply list_elem_of_omap. exists id. split; [exact Hid|].
           rewrite Hlook, El. reflexivity.
        -- apply last_elem_of in El. apply list_elem_of_filter in El. tauto.
      * apply last_None in El. rewrite El in Hin. inversion Hin.
Qed.

Lemma intersect_is_the_intersection_witness :
  Selection.intersect ["Name"; "Id"] ["003B"; "003X"; "003A"]
    [["Ada"; "003A"]; ["Bob"; "003B"]; ["Cy"; "003C"]]
  = inr [["Bob"; "003B"]; ["Ada"; "003A"]]
  /\ (length [["Bob"; "003B"]; ["Ada"; "003A"]] <= 3)%nat.
Proof.
  assert (H : Selection.intersect ["Name"; "Id"] ["003B"; "003X"; "003A"]
                [["Ada"; "003A"]; ["Bob"; "003B"]; ["Cy"; "003C"]]
              = inr [["Bob"; "003B"]; ["Ada"; "003A"]])
    by (vm_compute; reflexivity).
  split; [exact H|].
  exact (proj1 (intersect_is_the_intersection _ _ _ _ H)).
Defined.

(** X7: the id column is looked up record by record.  Without [Id] among the
    query fields the intersection raises [ValueError] as soon as the select
    query returned a record, and is empty, without an error, when it returned
    none. *)
Theorem intersect_without_id_column
    (query_fields : list string) (user_query_ids : list string)
    (select_query_records : list Row) :
  "Id" ∉ query_fields ->
  Selection.intersect query_fields user_query_ids [] = inr []
  /\ (select_query_records <> [] ->
      Selection.intersect query_fields user_query_ids select_query_records
      = inl (Py.ValueError "not in list")).
Proof.
  intros Hno. split.
  - unfold Selection.intersect. cbn [Selection.id_to_record_map Py.bind Py.ret].
    f_equal. induction user_query_ids as [|id ids IH]; [reflexivity|].
    cbn. rewrite lookup_empty. exact IH.
  - intros Hne. destruct select_query_records as [|r recs]; [contradiction|].
    unfold Selection.intersect. cbn [Selection.id_to_record_map].
    assert (Hidx : index_of "Id" query_fields = inl (Py.ValueError "not in list")).
    { clear -Hno. induction query_fields as [|f fs IH]; [reflexivity|].
      cbn [index_of]. apply not_elem_of_cons in Hno as [Hf Hfs].
      destruct (String.eqb_spec "Id" f) as [Heq|_]; [exfalso; exact (Hf Heq)|].
      rewrite (IH Hfs). reflexivity. }
    rewrite Hidx. reflexivity.
Qed.

Lemma intersect_without_id_column_witness :
  ("Id" ∉ ["Name"])
  /\ Selection.intersect ["Name"] ["003A"] [] = inr []
  /\ Selection.intersect ["Name"] ["003A"] [["Ada"]]
     = inl (Py.ValueError "not in list").
Proof.
  assert (H : "Id" ∉ ["Name"]).
  { intros Hin. apply list_elem_of_singleton in Hin. discriminate. }
  destruct (intersect_without_id_column ["Name"] ["003A"] [["Ada"]] H)
    as [H1 H2].
  split; [exact H|]. split; [exact H1|]. apply H2. discriminate.
Defined.

(** ** The rows of a query *)

(** X8: [convert] turns a record of a REST answer into a row with one cell
    per requested field, in the order of the fields, the cell of a field
    being the text of its value ([null] gives the empty text); and it raises
    [KeyError] for the first requested field the record lacks. *)
Theorem rest_convert_row (rec : gmap string RestApiDml.QueryVal)
    (fields : list string) :
  match RestApiDml.convert rec fields with
  | inr row =>
      Forall2 (fun f cell =>
                 exists v, rec !! f = Some v /\ cell = RestApiDml.str_of v)
        fields row
  | inl e =>
      exists present f rest,
        fields = (present ++ f :: rest)%list
        /\ Forall (fun g => is_Some (rec !! g)) present
        /\ rec !! f = None
        /\ e = Py.KeyError f
  end.
Proof.
  induction fields as [|f fields IH]; cbn [RestApiDml.convert Py.ret].
  - constructor.
  - destruct (rec !! f) as [v|] eqn:Ef.
    + destruct (RestApiDml.convert rec fields) as [e|row];
        cbn [Py.bind Py.ret].
      * destruct IH as (present & g & rest & -> & Hall & Hg & ->).
        exists (f :: present), g, rest.
        split; [reflexivity|]. split; [|split; [exact Hg|reflexivity]].
        constructor; [rewrite Ef; eauto|exact Hall].
      * constructor; [eauto|exact IH].
    + exists [], f, fields. repeat split; auto.
Qed.

(** X9: the rows the Bulk select query gives are cut to the number of query
    fields, and each one comes from a result file that does not announce
    [Records not found for this query]. *)
Theorem bulk_select_rows_are_cut (org : BulkSelect.BulkOrg) (round : Z)
    (select_query : string) (query_fields : list string) :
  Forall (fun row =>
            (length row <= length query_fields)%nat
            /\ exists file full,
                 file ∈ BulkSelect.bulk_query org round select_query
                 /\ Py.contains "Records not found for this query"
                      (BulkSelect.headers file) = false
                 /\ full ∈ BulkSelect.rows file
                 /\ row = take (length query_fields) full)
    (BulkSelect._execute_select_query org round select_query query_fields).
Proof.
  unfold BulkSelect._execute_select_query.
  induction (BulkSelect.bulk_query org round select_query) as [|f files IH];
    cbn [BulkSelect.select_rows]; [constructor|].
  destruct (Py.contains _ (BulkSelect.headers f)) eqn:Ef; [constructor|].
  apply Forall_app. split.
  - apply Forall_forall. intros row Hin.
    apply list_elem_of_fmap in Hin as (full & -> & Hfull). split.
    + rewrite length_take. lia.
    + exists f, full. repeat split; auto. apply list_elem_of_here.
  - eapply Forall_impl; [exact IH|].
    intros row (Hlen & file & full & Hfile & Hhead & Hfull & ->).
    split; [exact Hlen|]. exists file, full. repeat split; auto.
    apply list_elem_of_further. exact Hfile.
Qed.

(** X10: a result file that announces [Records not found for this query]
    ends the reading: neither its rows nor the rows of any later file are
    returned, by the query operation and by the select query alike. *)
Theorem bulk_not_found_ends_the_results
    (before after : list BulkSelect.ResultFile) (file : BulkSelect.ResultFile)
    (width : nat) :
  Py.contains "Records not found for this query" (BulkSelect.headers file)
  = true ->
  Forall (fun f => Py.contains "Records not found for this query"
                     (BulkSelect.headers f) = false) before ->
  BulkSelect.get_results (before ++ file :: after)
  = concat (map BulkSelect.rows before)
  /\ BulkSelect.select_rows width (before ++ file :: after)
     = map (take width) (concat (map BulkSelect.rows before)).
Proof.
  intros Hfile Hbefore.
  induction Hbefore as [|f before Hf _ [IH1 IH2]];
    cbn [app BulkSelect.get_results BulkSelect.select_rows map concat].
  - rewrite Hfile. split; reflexivity.
  - rewrite Hf, IH1, IH2, map_app. split; reflexivity.
Qed.

Lemma bulk_not_found_ends_the_results_witness :
  BulkSelect.get_results
    ([BulkSelect.mkFile ["Id"] [["003A"]]]
     ++ BulkSelect.mkFile ["Records not found for this query"] [["x"]]
        :: [BulkSelect.mkFile ["Id"] [["003B"]]])
  = [["003A"]].
Proof.
  apply (bulk_not_found_ends_the_results
           [BulkSelect.mkFile ["Id"] [["003A"]]]
           [BulkSelect.mkFile ["Id"] [["003B"]]]
           (BulkSelect.mkFile ["Records not found for this query"] [["x"]])
           1%nat).
  - reflexivity.
  - repeat constructor.
Defined.

Section Composite.

Import RestApiDml.

(** What the loop over the sub-responses leaves: each local is bound iff it
    was before or a sub-response of its kind was read, and every
    sub-response read is one of the two queries, answered with 200. *)
Lemma scan_composite_bound (query_fields : list string)
    (subs : list SubResponse) (s u s' u' : option (list Row)) :
  scan_composite query_fields subs s u = inr (s', u') ->
  Forall (fun sub => httpStatusCode sub = 200
                     /\ (referenceId sub = "select_query"
                         \/ referenceId sub = "user_query")) subs
  /\ (is_Some s' -> is_Some s
                    \/ exists sub, sub ∈ subs /\ referenceId sub = "select_query")
  /\ (is_Some u' -> is_Some u
                    \/ exists sub, sub ∈ subs /\ referenceId sub = "user_query").
Proof.
  revert s u. induction subs as [|sub subs IH]; intros s u;
    cbn [scan_composite Py.ret].
  - intros [= <- <-]. split; [constructor|]. split; auto.
  - destruct (String.eqb_spec (referenceId sub) "select_query") as [Hs|Hs];
      cbn [andb].
    + destruct (Z.eqb_spec (httpStatusCode sub) 200) as [Hc|Hc].
      * destruct (convert_all (body_records sub) query_fields) as [e|rows];
          cbn [Py.bind]; [discriminate|].
        intros H. apply IH in H as (Hall & Hsel & Husr).
        split; [constructor; auto|]. split.
        -- intros _. right. exists sub. split; [apply list_elem_of_here|auto].
        -- intros H. destruct (Husr H) as [?|(x & Hx & Hr)]; [auto|].
           right. exists x. split; [apply list_elem_of_further|]; auto.
      * destruct (String.eqb_spec (referenceId sub) "user_query") as [Hu|Hu];
          cbn [andb]; [|discriminate].
        rewrite Hs in Hu. discriminate.
    + destruct (String.eqb_spec (referenceId sub) "user_query") as [Hu|Hu];
        cbn [andb]; [|discriminate].
      destruct (Z.eqb_spec (httpStatusCode sub) 200) as [Hc|Hc]; [|discriminate].
      destruct (convert_all (body_records sub) ["Id"]) as [e|rows];
        cbn [Py.bind]; [discriminate|].
      intros H. apply IH in H as (Hall & Hsel & Husr).
      split; [constructor; auto|]. split.
      * intros H. destruct (Hsel H) as [?|(x & Hx & Hr)]; [auto|].
        right. exists x. split; [apply list_elem_of_further|]; auto.
      * intros _. right. exists sub. split; [apply list_elem_of_here|auto].
Qed.

End Composite.

(** X11: the composite query of a filtered REST selection returns rows only
    if the org answered both queries and nothing else: every sub-response is
    the select query or the user query answered with status 200, and there
    is one of each. *)
Theorem composite_query_needs_both_answers (org : RestApiDml.RestOrg)
    (round : Z) (select_query user_query : string)
    (query_fields : list string) (found : list Row) :
  RestApiDml._execute_composite_query org round select_query user_query
    query_fields = inr found ->
  let subs := RestApiDml.composite org round select_query user_query in
  Forall (fun sub => RestApiDml.httpStatusCode sub = 200
                     /\ (RestApiDml.referenceId sub = "select_query"
                         \/ RestApiDml.referenceId sub = "user_query")) subs
  /\ (exists sub, sub ∈ subs /\ RestApiDml.referenceId sub = "select_query")
  /\ (exists sub, sub ∈ subs /\ RestApiDml.referenceId sub = "user_query").
Proof.
  intros H subs. unfold RestApiDml._execute_composite_query in H.
  fold subs in H.
  destruct (RestApiDml.scan_composite query_fields subs None None)
    as [e|[s u]] eqn:Es; cbn [Py.bind fst snd] in H; [discriminate|].
  apply scan_composite_bound in Es as (Hall & Hs & Hu).
  split; [exact Hall|].
  destruct u as [u|]; cbn [Py.bind Py.ret Py.raise] in H; [|discriminate].
  destruct (Selection.first_columns u) as [e|ids]; cbn [Py.bind] in H;
    [discriminate|].
  destruct s as [s|]; cbn [Py.bind Py.ret Py.raise] in H; [|discriminate].
  split.
  - destruct Hs as [[? [=]]|Hsub]; [eauto|exact Hsub].
  - destruct Hu as [[? [=]]|Hsub]; [eauto|exact Hsub].
Qed.

Lemma composite_query_needs_both_answers_witness :
  exists found,
    RestApiDml._execute_composite_query Scenario.filtered_org 0
      "SELECT Id FROM Contact" "SELECT Id FROM Contact WHERE Name != null"
      ["Id"] = inr found
    /\ exists sub,
         sub ∈ RestApiDml.composite Scenario.filtered_org 0
                 "SELECT Id FROM Contact"
                 "SELECT Id FROM Contact WHERE Name != null"
         /\ RestApiDml.referenceId sub = "user_query".
Proof.
  destruct (RestApiDml._execute_composite_query Scenario.filtered_org 0
              "SELECT Id FROM Contact"
              "SELECT Id FROM Contact WHERE Name != null" ["Id"])
    as [e|found] eqn:Hfound; [vm_compute in Hfound; discriminate|].
  exists found. split; [reflexivity|].
  exact (proj2 (proj2 (composite_query_needs_both_answers _ _ _ _ _ _ Hfound))).
Defined.

(** ** The JSON body of a REST request *)

Section RecordToJson.

Import RestApiDml.

Variable h : Helpers.

Lemma zip_fold_other (fs : list string) (rec : LoadRecord)
    (m : gmap string JsonVal) (k : string) :
  k ∉ fs ->
  fold_left (fun m kv => <[kv.1 := json_of kv.2]> m) (zip fs rec) m !! k
  = m !! k.
Proof.
  revert rec m. induction fs as [|f fs IH]; intros [|x rec] m Hk;
    cbn [zip zip_with fold_left]; try reflexivity.
  apply not_elem_of_cons in Hk as [Hf Hfs].
  rewrite IH by exact Hfs. cbn [fst snd]. apply lookup_insert_ne. congruence.
Qed.

(** With no field named twice, the dict of a record holds under the name of
    a field the value at the place of the field. *)
Lemma zip_dict_lookup (fs : list string) (rec : LoadRecord) (i : nat)
    (k : string) (x : option string) :
  NoDup fs -> fs !! i = Some k -> rec !! i = Some x ->
  zip_dict fs rec !! k = Some (json_of x).
Proof.
  unfold zip_dict. change (fun m kv => <[kv.1 := match kv.2 with
                                                 | Some s => JStr s
                                                 | None => JNull
                                                 end]> m)
    with (fun (m : gmap string JsonVal) (kv : string * option string) =>
            <[kv.1 := json_of kv.2]> m).
  generalize (∅ : gmap string JsonVal).
  revert rec i. induction fs as [|f fs IH]; intros [|y rec] [|i] m Hnd Hf Hx;
    try discriminate.
  - injection Hf as ->. injection Hx as ->. cbn [zip zip_with fold_left fst snd].
    apply NoDup_cons in Hnd as [Hk _].
    rewrite zip_fold_other by exact Hk. apply lookup_insert_eq.
  - cbn [zip zip_with fold_left]. apply NoDup_cons in Hnd as [_ Hnd].
    eapply IH; eauto.
Qed.

(** A record shorter than the field list leaves the fields beyond its end
    out of the dict. *)
Lemma zip_dict_none (fs : list string) (rec : LoadRecord) (k : string) :
  k ∉ take (length rec) fs -> zip_dict fs rec !! k = None.
Proof.
  unfold zip_dict.
  assert (H : forall (m : gmap string JsonVal),
             k ∉ take (length rec) fs ->
             fold_left (fun m kv => <[kv.1 := match kv.2 with
                                               | Some s => JStr s
                                               | None => JNull
                                               end]> m) (zip fs rec) m !! k
             = m !! k).
  { revert rec. induction fs as [|f fs IH]; intros [|x rec] m Hk;
      cbn [zip zip_with fold_left]; try reflexivity.
    cbn [length take] in Hk. apply not_elem_of_cons in Hk as [Hf Hfs].
    rewrite IH by exact Hfs. cbn [fst snd]. apply lookup_insert_ne. congruence. }
  intros Hk. rewrite H by exact Hk. apply lookup_empty.
Qed.

Lemma convert_booleans_other (bs : list string) (m m' : gmap string JsonVal)
    (k : string) :
  convert_booleans h bs m = inr m' -> k ∉ bs -> m' !! k = m !! k.
Proof.
  revert m. induction bs as [|b bs IH]; intros m; cbn [convert_booleans Py.ret].
  - intros [= <-] _. reflexivity.
  - intros H Hk. apply not_elem_of_cons in Hk as [Hb Hbs].
    destruct (m !! b) as [v|]; [|discriminate].
    destruct (process_bool_arg h (or_False v)) as [[]|x]; try discriminate.
    rewrite (IH _ H Hbs). apply lookup_insert_ne. congruence.
Qed.

Lemma convert_booleans_bool (bs : list string) (m m' : gmap string JsonVal)
    (k : string) :
  convert_booleans h bs m = inr m' -> k ∈ bs ->
  exists v b, m !! k = Some v /\ m' !! k = Some (JBool b).
Proof.
  revert m. induction bs as [|b bs IH]; intros m; cbn [convert_booleans Py.ret].
  - intros _ Hk. inversion Hk.
  - intros H Hk.
    destruct (m !! b) as [v|] eqn:Ev; [|discriminate].
    destruct (process_bool_arg h (or_False v)) as [[]|x] eqn:Ex;
      try discriminate.
    destruct (decide (k ∈ bs)) as [Hin|Hnot].
    + destruct (IH _ H Hin) as (v' & b' & Hv' & Hb').
      destruct (decide (b = k)) as [->|Hne].
      * exists v, b'. split; [exact Ev|exact Hb'].
      * rewrite lookup_insert_ne in Hv' by exact Hne. eauto.
    + apply elem_of_cons in Hk as [->|Hk]; [|contradiction].
      exists v, x. split; [exact Ev|].
      rewrite (convert_booleans_other _ _ _ _ H Hnot). apply lookup_insert_eq.
Qed.

(** An empty boolean stays false through every conversion of its field. *)
Lemma convert_booleans_empty (bs : list string) (m m' : gmap string JsonVal)
    (k : string) (v : JsonVal) :
  process_bool_arg h (ArgBool false) = inr false ->
  convert_booleans h bs m = inr m' -> k ∈ bs ->
  m !! k = Some v -> or_False v = ArgBool false ->
  m' !! k = Some (JBool false).
Proof.
  intros Hfalse. revert m v.
  induction bs as [|b bs IH]; intros m v; cbn [convert_booleans Py.ret].
  - intros _ Hk. inversion Hk.
  - intros H Hk Hv Hor.
    destruct (m !! b) as [w|] eqn:Ew; [|discriminate].
    destruct (process_bool_arg h (or_False w)) as [[]|x] eqn:Ex;
      try discriminate.
    destruct (decide (b = k)) as [->|Hne].
    + rewrite Hv in Ew. injection Ew as <-. rewrite Hor, Hfalse in Ex.
      injection Ex as <-.
      destruct (decide (k ∈ bs)) as [Hin|Hnot].
      * eapply IH; [exact H|exact Hin|apply lookup_insert_eq|reflexivity].
      * rewrite (convert_booleans_other _ _ _ _ H Hnot). apply lookup_insert_eq.
    + apply elem_of_cons in Hk as [->|Hk]; [contradiction|].
      eapply IH; [exact H|exact Hk| |exact Hor].
      rewrite lookup_insert_ne by exact Hne. exact Hv.
Qed.

(** What makes the conversion of the booleans fail. *)
Lemma convert_booleans_error (bs : list string) (m : gmap string JsonVal)
    (e : Py.exn) :
  (forall a e', process_bool_arg h a = inl e' -> exists msg, e' = Py.TypeError msg) ->
  convert_booleans h bs m = inl e ->
  (exists k, e = Py.KeyError k /\ k ∈ bs /\ m !! k = None)
  \/ (exists a msg, e = Py.BulkDataException msg
                    /\ process_bool_arg h a = inl (Py.TypeError msg)).
Proof.
  intros Honly. revert m.
  induction bs as [|b bs IH]; intros m; cbn [convert_booleans Py.ret Py.raise].
  - discriminate.
  - destruct (m !! b) as [v|] eqn:Ev.
    + destruct (process_bool_arg h (or_False v)) as [e'|x] eqn:Ex.
      * destruct (Honly _ _ Ex) as [msg ->]. intros [= <-]. right. eauto.
      * intros H. destruct (IH _ H) as [(k & -> & Hk & Hnone)|Hbad];
          [|right; exact Hbad].
        left. exists k. split; [reflexivity|]. split; [apply elem_of_cons; auto|].
        destruct (decide (b = k)) as [->|Hne].
        -- rewrite lookup_insert_eq in Hnone. discriminate.
        -- rewrite lookup_insert_ne in Hnone by exact Hne. exact Hnone.
    + intros [= <-]. left. exists b. split; [reflexivity|].
      split; [apply list_elem_of_here|exact Ev].
Qed.

End RecordToJson.

(** X12: on INSERT the body of a record carries its type under
    [attributes], no [null] and no empty string; a field that is not boolean
    is sent with its value, and left out when the value is [None] or
    empty. *)
Theorem record_to_json_insert_drops_empty_fields (h : Helpers)
    (self : DmlOperation) (rec : LoadRecord)
    (body : gmap string RestApiDml.JsonVal) :
  operation self = INSERT ->
  RestApiDml._record_to_json h self rec = inr body ->
  body !! "attributes" = Some (RestApiDml.JAttributes (sobject self))
  /\ (forall k v, body !! k = Some v ->
        v <> RestApiDml.JNull /\ v <> RestApiDml.JStr "")
  /\ (forall i k x,
        NoDup (fields self) -> fields self !! i = Some k -> rec !! i = Some x ->
        k ∉ boolean_fields self -> k <> "attributes" ->
        body !! k = match x with
                    | Some (String a s) => Some (RestApiDml.JStr (String a s))
                    | _ => None
                    end).
Proof.
  intros Hop. unfold RestApiDml._record_to_json. rewrite Hop.
  destruct (RestApiDml.convert_booleans h (boolean_fields self)
              (RestApiDml.zip_dict (fields self) rec)) as [e|m] eqn:Em;
    cbn [Py.bind Py.ret]; [discriminate|].
  intros [= <-]. split; [apply lookup_insert_eq|]. split.
  - intros k v. destruct (decide ("attributes" = k)) as [<-|Hk].
    + rewrite lookup_insert_eq. intros [= <-]. split; discriminate.
    + rewrite lookup_insert_ne by exact Hk. intros Hv.
      apply map_lookup_filter_Some in Hv as [_ Hv]. exact Hv.
  - intros i k x Hnd Hf Hx Hb Hk.
    rewrite lookup_insert_ne by congruence.
    pose proof (convert_booleans_other h _ _ _ k Em Hb) as Hm.
    rewrite (zip_dict_lookup _ _ _ _ _ Hnd Hf Hx) in Hm.
    destruct x as [[|a s]|]; cbn [json_of] in Hm.
    + apply map_lookup_filter_None. right. intros v Hv [_ Hne].
      rewrite Hm in Hv. injection Hv as <-. apply Hne. reflexivity.
    + apply map_lookup_filter_Some. split; [exact Hm|].
      split; discriminate.
    + apply map_lookup_filter_None. right. intros v Hv [Hne _].
      rewrite Hm in Hv. injection Hv as <-. apply Hne. reflexivity.
Qed.

Lemma record_to_json_insert_drops_empty_fields_witness :
  exists body,
    RestApiDml._record_to_json Sample.helpers (Scenario.lead INSERT)
      [None; Some "Hopper"; Some ""; None] = inr body
    /\ body !! "LastName" = Some (RestApiDml.JStr "Hopper")
    /\ body !! "Email" = None.
Proof.
  destruct (RestApiDml._record_to_json Sample.helpers (Scenario.lead INSERT)
              [None; Some "Hopper"; Some ""; None]) as [e|body] eqn:Hbody;
    [vm_compute in Hbody; discriminate|].
  exists body. split; [reflexivity|].
  destruct (record_to_json_insert_drops_empty_fields Sample.helpers
              (Scenario.lead INSERT) [None; Some "Hopper"; Some ""; None]
              body eq_refl Hbody) as (_ & _ & Hfield).
  assert (Hnd : NoDup (fields (Scenario.lead INSERT))).
  { vm_compute. repeat constructor; intros Hin;
      repeat (apply elem_of_cons in Hin as [Hin|Hin]; [discriminate|]);
      inversion Hin. }
  assert (Hbool : forall k, k <> "DoNotCall" ->
                    k ∉ boolean_fields (Scenario.lead INSERT)).
  { intros k Hk Hin. apply list_elem_of_singleton in Hin. contradiction. }
  split.
  - apply (Hfield 1%nat "LastName" (Some "Hopper") Hnd eq_refl eq_refl);
      [apply Hbool|]; discriminate.
  - apply (Hfield 2%nat "Email" (Some "") Hnd eq_refl eq_refl);
      [apply Hbool|]; discriminate.
Defined.

(** X13: on UPDATE and UPSERT every field stays in the body: a field that is
    not boolean is sent with its value, and as [null] when the value is
    [None] or empty; the body holds no empty string. *)
Theorem record_to_json_update_blanks_empty_fields (h : Helpers)
    (self : DmlOperation) (rec : LoadRecord)
    (body : gmap string RestApiDml.JsonVal) :
  operation self = UPDATE \/ operation self = UPSERT ->
  RestApiDml._record_to_json h self rec = inr body ->
  body !! "attributes" = Some (RestApiDml.JAttributes (sobject self))
  /\ (forall k v, body !! k = Some v -> v <> RestApiDml.JStr "")
  /\ (forall i k x,
        NoDup (fields self) -> fields self !! i = Some k -> rec !! i = Some x ->
        k ∉ boolean_fields self -> k <> "attributes" ->
        body !! k = Some match x with
                         | Some (String a s) => RestApiDml.JStr (String a s)
                         | _ => RestApiDml.JNull
                         end).
Proof.
  intros Hop. unfold RestApiDml._record_to_json.
  destruct (RestApiDml.convert_booleans h (boolean_fields self)
              (RestApiDml.zip_dict (fields self) rec)) as [e|m] eqn:Em;
    cbn [Py.bind Py.ret]; [discriminate|].
  set (blank := fun v => if decide (v = RestApiDml.JStr "")
                         then RestApiDml.JNull else v).
  assert (Hbody : body = <["attributes" := RestApiDml.JAttributes (sobject self)]>
                           (blank <$> m) ->
          body !! "attributes" = Some (RestApiDml.JAttributes (sobject self))
          /\ (forall k v, body !! k = Some v -> v <> RestApiDml.JStr "")
          /\ (forall i k x,
                NoDup (fields self) -> fields self !! i = Some k ->
                rec !! i = Some x ->
                k ∉ boolean_fields self -> k <> "attributes" ->
                body !! k = Some match x with
                                 | Some (String a s) => RestApiDml.JStr (String a s)
                                 | _ => RestApiDml.JNull
                                 end)).
  { intros ->. split; [apply lookup_insert_eq|]. split.
    - intros k v. destruct (decide ("attributes" = k)) as [<-|Hk].
      + rewrite lookup_insert_eq. intros [= <-]. discriminate.
      + rewrite lookup_insert_ne, lookup_fmap by exact Hk.
        destruct (m !! k) as [w|]; [|discriminate]. cbn. intros [= <-].
        unfold blank.
        destruct (decide (w = RestApiDml.JStr "")); [discriminate|assumption].
    - intros i k x Hnd Hf Hx Hb Hk.
      rewrite lookup_insert_ne, lookup_fmap by congruence.
      rewrite (convert_booleans_other h _ _ _ k Em Hb).
      rewrite (zip_dict_lookup _ _ _ _ _ Hnd Hf Hx).
      destruct x as [[|a s]|]; reflexivity. }
  destruct Hop as [-> | ->]; intros [= <-]; apply Hbody; reflexivity.
Qed.

Lemma record_to_json_update_blanks_empty_fields_witness :
  exists body,
    RestApiDml._record_to_json Sample.helpers (Scenario.lead UPDATE)
      [Some "00QA"; Some "Hopper"; Some ""; None] = inr body
    /\ body !! "LastName" = Some (RestApiDml.JStr "Hopper")
    /\ body !! "Email" = Some RestApiDml.JNull.
Proof.
  destruct (RestApiDml._record_to_json Sample.helpers (Scenario.lead UPDATE)
              [Some "00QA"; Some "Hopper"; Some ""; None]) as [e|body] eqn:Hbody;
    [vm_compute in Hbody; discriminate|].
  exists body. split; [reflexivity|].
  destruct (record_to_json_update_blanks_empty_fields Sample.helpers
              (Scenario.lead UPDATE) [Some "00QA"; Some "Hopper"; Some ""; None]
              body (or_introl eq_refl) Hbody) as (_ & _ & Hfield).
  assert (Hnd : NoDup (fields (Scenario.lead UPDATE))).
  { vm_compute. repeat constructor; intros Hin;
      repeat (apply elem_of_cons in Hin as [Hin|Hin]; [discriminate|]);
      inversion Hin. }
  assert (Hbool : forall k, k <> "DoNotCall" ->
                    k ∉ boolean_fields (Scenario.lead UPDATE)).
  { intros k Hk Hin. apply list_elem_of_singleton in Hin. contradiction. }
  split.
  - apply (Hfield 1%nat "LastName" (Some "Hopper") Hnd eq_refl eq_refl);
      [apply Hbool|]; discriminate.
  - apply (Hfield 2%nat "Email" (Some "") Hnd eq_refl eq_refl);
      [apply Hbool|]; discriminate.
Defined.

(** X14: whatever the operation, a boolean field is sent as a JSON boolean,
    and never left out: where [process_bool_arg] keeps [False], a boolean
    field whose value is [None] or empty is sent as [false], on INSERT
    too. *)
Theorem record_to_json_sends_every_boolean (h : Helpers)
    (self : DmlOperation) (rec : LoadRecord)
    (body : gmap string RestApiDml.JsonVal) :
  RestApiDml._record_to_json h self rec = inr body ->
  (forall k, k ∈ boolean_fields self -> k <> "attributes" ->
     exists b, body !! k = Some (RestApiDml.JBool b))
  /\ (process_bool_arg h (ArgBool false) = inr false ->
      forall i k x,
        NoDup (fields self) -> fields self !! i = Some k -> rec !! i = Some x ->
        k ∈ boolean_fields self -> k <> "attributes" ->
        x = None \/ x = Some "" ->
        body !! k = Some (RestApiDml.JBool false)).
Proof.
  unfold RestApiDml._record_to_json.
  destruct (RestApiDml.convert_booleans h (boolean_fields self)
              (RestApiDml.zip_dict (fields self) rec)) as [e|m] eqn:Em;
    cbn [Py.bind Py.ret]; [discriminate|].
  intros [= <-].
  assert (Hkeep : forall k b, k <> "attributes" ->
            m !! k = Some (RestApiDml.JBool b) ->
            <["attributes" := RestApiDml.JAttributes (sobject self)]>
              match operation self with
              | INSERT =>
                  filter (fun kv => kv.2 ≠ RestApiDml.JNull
                                    ∧ kv.2 ≠ RestApiDml.JStr "") m
              | UPDATE | UPSERT =>
                  (fun v => if decide (v = RestApiDml.JStr "")
                            then RestApiDml.JNull else v) <$> m
              | _ => m
              end !! k = Some (RestApiDml.JBool b)).
  { intros k b Hk Hm. rewrite lookup_insert_ne by congruence.
    destruct (operation self); try exact Hm.
    - apply map_lookup_filter_Some. split; [exact Hm|]. split; discriminate.
    - rewrite lookup_fmap, Hm. reflexivity.
    - rewrite lookup_fmap, Hm. reflexivity. }
  split.
  - intros k Hin Hk.
    destruct (convert_booleans_bool h _ _ _ k Em Hin) as (v & b & _ & Hb).
    exists b. apply Hkeep; assumption.
  - intros Hfalse i k x Hnd Hf Hx Hin Hk Hempty.
    apply Hkeep; [exact Hk|].
    eapply convert_booleans_empty;
      [exact Hfalse|exact Em|exact Hin|
       exact (zip_dict_lookup _ _ _ _ _ Hnd Hf Hx)|].
    destruct Hempty as [-> | ->]; reflexivity.
Qed.

Lemma record_to_json_sends_every_boolean_witness :
  exists body,
    RestApiDml._record_to_json Sample.helpers (Scenario.lead INSERT)
      [None; Some "Hopper"; Some ""; None] = inr body
    /\ body !! "DoNotCall" = Some (RestApiDml.JBool false).
Proof.
  destruct (RestApiDml._record_to_json Sample.helpers (Scenario.lead INSERT)
              [None; Some "Hopper"; Some ""; None]) as [e|body] eqn:Hbody;
    [vm_compute in Hbody; discriminate|].
  exists body. split; [reflexivity|].
  destruct (record_to_json_sends_every_boolean Sample.helpers
              (Scenario.lead INSERT) [None; Some "Hopper"; Some ""; None]
              body Hbody) as [_ Hfalse].
  apply (Hfalse eq_refl 3%nat "DoNotCall" None).
  - vm_compute. repeat constructor; intros Hin;
      repeat (apply elem_of_cons in Hin as [Hin|Hin]; [discriminate|]);
      inversion Hin.
  - reflexivity.
  - reflexivity.
  - apply list_elem_of_here.
  - discriminate.
  - left. reflexivity.
Defined.

(** X15: where [process_bool_arg] raises nothing but [TypeError], the body
    of a record fails in two ways only: with [KeyError] for a boolean field
    beyond the end of a record shorter than the field list, and with
    [BulkDataException], carrying the message of the [TypeError], for a
    value that is no boolean. *)
Theorem record_to_json_errors (h : Helpers) (self : DmlOperation)
    (rec : LoadRecord) (e : Py.exn) :
  (forall a e', process_bool_arg h a = inl e' ->
                exists msg, e' = Py.TypeError msg) ->
  RestApiDml._record_to_json h self rec = inl e ->
  (exists k, e = Py.KeyError k /\ k ∈ boolean_fields self
             /\ RestApiDml.zip_dict (fields self) rec !! k = None)
  \/ (exists a msg, e = Py.BulkDataException msg
                    /\ process_bool_arg h a = inl (Py.TypeError msg)).
Proof.
  intros Honly. unfold RestApiDml._record_to_json.
  destruct (RestApiDml.convert_booleans h (boolean_fields self)
              (RestApiDml.zip_dict (fields self) rec)) as [e'|m] eqn:Em;
    cbn [Py.bind Py.ret]; [|discriminate].
  intros [= <-]. exact (convert_booleans_error h _ _ _ Honly Em).
Qed.

Lemma sample_bool_arg_type_error (a : BoolArg) (e : Py.exn) :
  process_bool_arg Sample.helpers a = inl e -> exists msg, e = Py.TypeError msg.
Proof.
  destruct a as [b|s]; cbn; [discriminate|].
  destruct (Py.contains s _); [discriminate|].
  destruct (Py.contains s _); [discriminate|].
  intros [= <-]. eauto.
Qed.

Lemma record_to_json_errors_witness :
  RestApiDml._record_to_json Sample.helpers (Scenario.lead INSERT)
    [None; Some "Hopper"; None; Some "maybe"]
  = inl (Py.BulkDataException "Cannot interpret as boolean")
  /\ RestApiDml._record_to_json Sample.helpers (Scenario.lead INSERT)
       [None; Some "Hopper"]
     = inl (Py.KeyError "DoNotCall")
  /\ ((exists k, Py.KeyError "DoNotCall" = Py.KeyError k
                 /\ k ∈ boolean_fields (Scenario.lead INSERT)
                 /\ RestApiDml.zip_dict (fields (Scenario.lead INSERT))
                      [None; Some "Hopper"] !! k = None)
      \/ (exists a msg, Py.KeyError "DoNotCall" = Py.BulkDataException msg
                        /\ process_bool_arg Sample.helpers a
                           = inl (Py.TypeError msg))).
Proof.
  split; [vm_compute; reflexivity|].
  assert (H : RestApiDml._record_to_json Sample.helpers (Scenario.lead INSERT)
                [None; Some "Hopper"] = inl (Py.KeyError "DoNotCall"))
    by (vm_compute; reflexivity).
  split; [exact H|].
  exact (record_to_json_errors Sample.helpers (Scenario.lead INSERT)
           [None; Some "Hopper"] _ sample_bool_arg_type_error H).
Defined.

(** ** Requests and results of a REST load *)

Section DeleteRequest.

Import RestApiDml.

Variable h : Helpers.
Variable self : DmlOperation.
Variable i : nat.
Hypothesis is_delete : operation self = DELETE.
Hypothesis fields_once : NoDup (fields self).
Hypothesis id_field : fields self !! i = Some "Id".
Hypothesis id_not_boolean : "Id" ∉ boolean_fields self.

(** The [Id] of the body of a record to delete is the value of its [Id]
    column. *)
Lemma delete_body_id (rec : LoadRecord) (body : gmap string JsonVal)
    (s : string) :
  _record_to_json h self rec = inr body ->
  body !! "Id" = Some (JStr s) ->
  rec !! i = Some (Some s).
Proof.
  unfold _record_to_json. rewrite is_delete.
  destruct (convert_booleans h (boolean_fields self)
              (zip_dict (fields self) rec)) as [e|m] eqn:Em;
    cbn [Py.bind Py.ret]; [discriminate|].
  intros [= <-]. rewrite lookup_insert_ne by discriminate.
  rewrite (convert_booleans_other h _ _ _ _ Em id_not_boolean).
  destruct (rec !! i) as [x|] eqn:Ex.
  - rewrite (zip_dict_lookup _ _ _ _ _ fields_once id_field Ex).
    destruct x; cbn [json_of]; congruence.
  - rewrite zip_dict_none; [discriminate|].
    intros Hin. apply list_elem_of_lookup in Hin as [j Hj].
    apply lookup_take_Some in Hj as [Hj Hlt].
    apply lookup_ge_None in Ex.
    pose proof (NoDup_lookup _ _ _ _ fields_once Hj id_field). lia.
Qed.

Lemma ids_of_columns (chunk : list LoadRecord) (ids : list string) :
  ids_of h self chunk = inr ids ->
  Forall2 (fun rec id => rec !! i = Some (Some id)) chunk ids.
Proof.
  revert ids. induction chunk as [|rec chunk IH]; intros ids;
    cbn [ids_of Py.ret].
  - intros [= <-]. constructor.
  - destruct (_record_to_json h self rec) as [e|body] eqn:Eb;
      cbn [Py.bind]; [discriminate|].
    destruct (body !! "Id") as [[|s| |]|] eqn:Eid;
      cbn [Py.bind Py.ret Py.raise]; try discriminate.
    destruct (ids_of h self chunk) as [e|ids']; cbn [Py.bind Py.ret];
      [discriminate|].
    intros [= <-]. constructor; [|apply IH; reflexivity].
    exact (delete_body_id _ _ _ Eb Eid).
Qed.

End DeleteRequest.

(** X16: the request that deletes a chunk has no body; its URL lists, after
    [?ids=] and separated by commas, the values of the [Id] column of the
    records of the chunk, in their order.  So a record to delete has an
    [Id], a string: with [None] there, or a record that ends before the
    column, no request is made. *)
Theorem delete_request_lists_the_ids (h : Helpers) (self : DmlOperation)
    (method : string) (chunk : list LoadRecord) (i : nat)
    (req : RestApiDml.Request) :
  operation self = DELETE ->
  NoDup (fields self) -> fields self !! i = Some "Id" ->
  "Id" ∉ boolean_fields self ->
  RestApiDml.request_of h self method chunk = inr req ->
  RestApiDml.json req = None
  /\ RestApiDml.method req = method
  /\ exists ids,
       Forall2 (fun rec id => rec !! i = Some (Some id)) chunk ids
       /\ RestApiDml.url req
          = "composite/sobjects" ++ "?ids=" ++ Py.join "," ids.
Proof.
  intros Hop Hnd Hid Hbool. unfold RestApiDml.request_of.
  rewrite bool_decide_eq_true_2 by exact Hop.
  destruct (RestApiDml.ids_of h self chunk) as [e|ids] eqn:Eids;
    cbn [Py.bind Py.ret]; [discriminate|].
  intros [= <-]. cbn [RestApiDml.json RestApiDml.method RestApiDml.url].
  split; [reflexivity|]. split; [reflexivity|].
  exists ids. split; [|reflexivity].
  exact (ids_of_columns h self i Hop Hnd Hid Hbool _ _ Eids).
Qed.

Lemma delete_request_lists_the_ids_witness :
  exists req,
    RestApiDml.request_of Sample.helpers (Scenario.lead DELETE) "DELETE"
      [[Some "00QA"; None; None; None]; [Some "00QB"; None; None; None]]
    = inr req
    /\ RestApiDml.json req = None.
Proof.
  destruct (RestApiDml.request_of Sample.helpers (Scenario.lead DELETE) "DELETE"
              [[Some "00QA"; None; None; None]; [Some "00QB"; None; None; None]])
    as [e|req] eqn:Hreq; [vm_compute in Hreq; discriminate|].
  exists req. split; [reflexivity|].
  refine (proj1 (delete_request_lists_the_ids Sample.helpers
                   (Scenario.lead DELETE) "DELETE" _ 0%nat req eq_refl _
                   eq_refl _ Hreq)).
  - vm_compute. repeat constructor; intros Hin;
      repeat (apply elem_of_cons in Hin as [Hin|Hin]; [discriminate|]);
      inversion Hin.
  - intros Hin. apply list_elem_of_singleton in Hin. discriminate.
Defined.

Lemma length_filter_fmap {A B} (f : A -> B) (P : B -> Prop)
    `{forall y, Decision (P y)} (l : list A) :
  length (filter P (f <$> l)) = length (filter (fun x => P (f x)) l).
Proof.
  induction l as [|x l IH]; [reflexivity|].
  cbn [fmap list_fmap]. rewrite !filter_cons.
  destruct (decide (P (f x))); cbn [length]; rewrite IH; reflexivity.
Qed.

(** X17: after a REST load the results and the job result agree.  There is
    one result per answer of the org, in the order of the answers, with the
    id and the success of the answer; the job result counts the results
    and those without success.  A result of an INSERT says created, a
    result of an UPDATE says not created, with or without success. *)
Theorem rest_results_match_job_result (h : Helpers)
    (org : RestApiDml.RestOrg) (self : DmlOperation)
    (records : list LoadRecord) (loaded : RestApiDml.Loaded) :
  RestApiDml.load_records h org self records = inr loaded ->
  let out := RestApiDml.get_results self loaded in
  Forall2 (fun res r => res_id r = RestApiDml.r_id res
                        /\ res_success r = RestApiDml.r_success res)
    (RestApiDml.results loaded) out
  /\ records_processed (RestApiDml.job_result loaded) = Z.of_nat (length out)
  /\ total_row_errors (RestApiDml.job_result loaded)
     = Z.of_nat (length (filter (fun r => res_success r = false) out))
  /\ (operation self = INSERT ->
      Forall (fun r => res_created r = Some true) out)
  /\ (operation self = UPDATE ->
      Forall (fun r => res_created r = Some false) out).
Proof.
  unfold RestApiDml.load_records.
  destruct (RestApiDml.method_of (operation self)) as [e|method];
    cbn [Py.bind]; [discriminate|].
  destruct (RestApiDml.load_chunks h org self method 0 _ [])
    as [e|answers]; cbn [Py.bind Py.ret]; [discriminate|].
  intros [= <-]. cbv zeta. unfold RestApiDml.get_results.
  cbn [RestApiDml.results RestApiDml.job_result records_processed
       total_row_errors].
  split; [|split; [|split; [|split]]].
  - induction answers as [|res answers IH]; constructor; [|exact IH].
    split; reflexivity.
  - rewrite length_map. reflexivity.
  - change (map (RestApiDml._convert self) answers)
      with (RestApiDml._convert self <$> answers).
    rewrite (length_filter_fmap (RestApiDml._convert self)
               (fun r => res_success r = false)).
    reflexivity.
  - intros Hop. apply Forall_forall. intros r Hin.
    apply list_elem_of_fmap in Hin as (res & -> & _).
    unfold RestApiDml._convert. rewrite Hop. reflexivity.
  - intros Hop. apply Forall_forall. intros r Hin.
    apply list_elem_of_fmap in Hin as (res & -> & _).
    unfold RestApiDml._convert. rewrite Hop. reflexivity.
Qed.

Lemma rest_results_match_job_result_witness :
  exists loaded,
    RestApiDml.load_records Sample.helpers Sample.rest_org
      (Sample.contact INSERT 200) Sample.five_records = inr loaded
    /\ records_processed (RestApiDml.job_result loaded)
       = Z.of_nat (length (RestApiDml.get_results (Sample.contact INSERT 200)
                             loaded)).
Proof.
  destruct (RestApiDml.load_records Sample.helpers Sample.rest_org
              (Sample.contact INSERT 200) Sample.five_records)
    as [e|loaded] eqn:Hload; [vm_compute in Hload; discriminate|].
  exists loaded. split; [reflexivity|].
  exact (proj1 (proj2 (rest_results_match_job_result _ _ _ _ _ Hload))).
Defined.

(** ** The result file of a Bulk batch *)

(** X18: the results read from the result file of a batch are the results
    of its rows after the header, in order, up to the first row that cannot
    be read, whose exception ends the reading; without such a row every row
    gives a result.  A result with success has an id and no error, a result
    without success an error and no id; each says whether the row was
    created. *)
Theorem parse_batch_results_row_by_row (h : Helpers) (header : Row)
    (rows : list Row) :
  let g := BulkApiDml._parse_batch_results h (header :: rows) in
  let n := length (BulkApiDml.yielded g) in
  Forall2 (fun row res => BulkApiDml.parse_result_row h row = inr res)
    (take n rows) (BulkApiDml.yielded g)
  /\ match BulkApiDml.raised g with
     | None => n = length rows
     | Some e =>
         exists row, rows !! n = Some row
                     /\ BulkApiDml.parse_result_row h row = inl e
     end
  /\ Forall (fun res =>
               is_Some (res_created res)
               /\ if res_success res
                  then is_Some (res_id res) /\ res_error res = None
                  else res_id res = None /\ is_Some (res_error res))
       (BulkApiDml.yielded g).
Proof.
  cbn [BulkApiDml._parse_batch_results].
  induction rows as [|row rows IH]; cbn [BulkApiDml.parse_result_rows].
  - cbn. repeat split; constructor.
  - destruct (BulkApiDml.parse_result_row h row) as [e|res] eqn:Er.
    + cbn. split; [constructor|]. split; [|constructor]. eauto.
    + cbn [BulkApiDml.yielded BulkApiDml.raised length take lookup].
      destruct IH as (IH1 & IH2 & IH3).
      split; [constructor; [exact Er|exact IH1]|].
      split.
      * destruct (BulkApiDml.raised (BulkApiDml.parse_result_rows h rows)).
        -- exact IH2.
        -- cbn in IH2 |- *. lia.
      * constructor; [|exact IH3].
        clear -Er. unfold BulkApiDml.parse_result_row in Er.
        destruct (item row 1) as [?|r1]; cbn [Py.bind] in Er; [discriminate|].
        destruct (process_bool_arg h (ArgStr r1)) as [?|success];
          cbn [Py.bind] in Er; [discriminate|].
        destruct (item row 2) as [?|r2]; cbn [Py.bind] in Er; [discriminate|].
        destruct (process_bool_arg h (ArgStr r2)) as [?|created];
          cbn [Py.bind] in Er; [discriminate|].
        destruct success; cbn [negb Py.bind Py.ret] in Er.
        -- destruct (item row 0) as [?|r0]; cbn [Py.bind Py.ret] in Er;
             [discriminate|].
           injection Er as <-. cbn. eauto.
        -- destruct (item row 3) as [?|r3]; cbn [Py.bind Py.ret] in Er;
             [discriminate|].
           injection Er as <-. cbn. eauto.
Qed.

(** ** Waiting for a Bulk job *)

(** X19: [_wait_for_job] returns the state of the job at the first request
    at which no batch is queued or in progress any more, or a batch was not
    processed, after one sleep for each request before; given the requests
    to get there, it does return. *)
Theorem wait_for_job_returns_first_final_state
    (polls : nat -> BulkJobMixin.BatchListXml) (n fuel : nat) :
  (forall k, (k < n)%nat ->
     status (BulkJobMixin._parse_job_state (polls k)) = IN_PROGRESS) ->
  status (BulkJobMixin._parse_job_state (polls n)) <> IN_PROGRESS ->
  (n < fuel)%nat ->
  BulkJob._wait_for_job fuel polls 0
  = Some (BulkJobMixin._parse_job_state (polls n), n)
  /\ (Py.contains "Not Processed" (BulkJobMixin.state_texts (polls n)) = true
      \/ (Py.contains "InProgress" (BulkJobMixin.state_texts (polls n)) = false
          /\ Py.contains "Queued" (BulkJobMixin.state_texts (polls n)) = false)).
Proof.
  intros Hbefore Hfinal Hfuel. split.
  - assert (H : forall m j, (j <= n)%nat -> (n - j < m)%nat ->
              BulkJob._wait_for_job m polls j
              = Some (BulkJobMixin._parse_job_state (polls n), n)).
    { induction m as [|m IH]; intros j Hj Hm; [lia|].
      cbn [BulkJob._wait_for_job].
      destruct (decide (j = n)) as [->|Hne].
      - rewrite bool_decide_eq_false_2 by exact Hfinal. reflexivity.
      - rewrite bool_decide_eq_true_2 by (apply Hbefore; lia).
        apply IH; lia. }
    apply H; lia.
  - revert Hfinal. unfold BulkJobMixin._parse_job_state.
    destruct (Py.contains "Not Processed" _); [auto|].
    destruct (Py.contains "InProgress" _); cbn [orb status];
      [congruence|].
    destruct (Py.contains "Queued" _); cbn [status]; [congruence|auto].
Qed.

Lemma wait_for_job_returns_first_final_state_witness :
  BulkJob._wait_for_job 5
    (fun k => if (k <? 2)%nat
              then BulkJobMixin.mkBatchList ["Completed"; "InProgress"] [] [0; 0] [4; 1]
              else Sample.two_batches) 0
  = Some (mkJobResult ROW_FAILURE [] 7 2, 2%nat).
Proof.
  refine (proj1 (wait_for_job_returns_first_final_state
                   (fun k => if (k <? 2)%nat
                             then BulkJobMixin.mkBatchList
                                    ["Completed"; "InProgress"] [] [0; 0] [4; 1]
                             else Sample.two_batches) 2 5 _ _ _)).
  - intros k Hk. destruct k as [|[|k]]; [reflexivity|reflexivity|lia].
  - vm_compute. discriminate.
  - lia.
Defined.

(** X20: a wait that returns has seen the job in progress at every request
    but the last, and returns what the last one gave, which is not in
    progress; and [end] waits only if the operation has no job result yet:
    the job result a selection has set is kept as it is. *)
Theorem wait_for_job_result_is_final
    (polls : nat -> BulkJobMixin.BatchListXml) (fuel n : nat)
    (result : DataOperationJobResult) :
  BulkJob._wait_for_job fuel polls 0 = Some (result, n) ->
  result = BulkJobMixin._parse_job_state (polls n)
  /\ status result <> IN_PROGRESS
  /\ (forall k, (k < n)%nat ->
        status (BulkJobMixin._parse_job_state (polls k)) = IN_PROGRESS)
  /\ BulkJob.end_ fuel polls None = Some result
  /\ forall earlier, BulkJob.end_ fuel polls (Some earlier) = Some earlier.
Proof.
  intros Hwait.
  assert (H : forall m j,
            BulkJob._wait_for_job m polls j = Some (result, n) ->
            result = BulkJobMixin._parse_job_state (polls n)
            /\ status result <> IN_PROGRESS
            /\ (j <= n)%nat
            /\ forall k, (j <= k < n)%nat ->
                 status (BulkJobMixin._parse_job_state (polls k)) = IN_PROGRESS).
  { induction m as [|m IH]; intros j; cbn [BulkJob._wait_for_job];
      [discriminate|].
    destruct (decide (status (BulkJobMixin._parse_job_state (polls j))
                      = IN_PROGRESS)) as [Hin|Hout].
    - rewrite bool_decide_eq_true_2 by exact Hin. intros Hm.
      destruct (IH _ Hm) as (Hres & Hst & Hle & Hall).
      split; [exact Hres|]. split; [exact Hst|]. split; [lia|].
      intros k Hk. destruct (decide (k = j)) as [->|Hne]; [exact Hin|].
      apply Hall. lia.
    - rewrite bool_decide_eq_false_2 by exact Hout. intros [= <- <-].
      split; [reflexivity|]. split; [exact Hout|]. split; [lia|].
      intros k Hk. lia. }
  destruct (H _ _ Hwait) as (Hres & Hst & _ & Hall).
  split; [exact Hres|]. split; [exact Hst|].
  split; [intros k Hk; apply Hall; lia|].
  split; [|reflexivity].
  cbn [BulkJob.end_]. rewrite Hwait. reflexivity.
Qed.

Lemma wait_for_job_result_is_final_witness :
  exists result n,
    BulkJob._wait_for_job 3 (fun _ => Sample.two_batches) 0 = Some (result, n)
    /\ status result <> IN_PROGRESS.
Proof.
  destruct (BulkJob._wait_for_job 3 (fun _ => Sample.two_batches) 0)
    as [[result n]|] eqn:Hwait; [|vm_compute in Hwait; discriminate].
  exists result, n. split; [reflexivity|].
  exact (proj1 (proj2 (wait_for_job_result_is_final _ _ _ _ Hwait))).
Defined.

(** X21: a job that stays in progress is waited for without end: whatever
    the number of requests, [_wait_for_job] has not returned. *)
Theorem wait_for_job_never_gives_up
    (polls : nat -> BulkJobMixin.BatchListXml) (fuel : nat) :
  (forall k, Py.contains "Not Processed" (BulkJobMixin.state_texts (polls k))
             = false
             /\ (Py.contains "InProgress" (BulkJobMixin.state_texts (polls k))
                 = true
                 \/ Py.contains "Queued" (BulkJobMixin.state_texts (polls k))
                    = true)) ->
  BulkJob._wait_for_job fuel polls 0 = None.
Proof.
  intros Hbusy. generalize 0%nat.
  induction fuel as [|fuel IH]; intros k; cbn [BulkJob._wait_for_job];
    [reflexivity|].
  rewrite bool_decide_eq_true_2; [apply IH|].
  unfold BulkJobMixin._parse_job_state.
  destruct (Hbusy k) as [-> [-> | ->]]; cbn [orb status]; [reflexivity|].
  rewrite orb_true_r. reflexivity.
Qed.

Lemma wait_for_job_never_gives_up_witness :
  BulkJob._wait_for_job 100
    (fun _ => BulkJobMixin.mkBatchList ["Completed"; "Queued"] [] [0; 0] [4; 0])
    0 = None.
Proof.
  apply (wait_for_job_never_gives_up
           (fun _ => BulkJobMixin.mkBatchList ["Completed"; "Queued"] []
                       [0; 0] [4; 0]) 100).
  intros k. split; [reflexivity|]. right. reflexivity.
Defined.

(** ** The results of the batches of a Bulk job *)

(** X22: the results of a Bulk load are the results of its batches one
    after the other.  When every result file is downloaded and read to its
    end, they are all there and nothing is raised.  Otherwise the results
    end with the ones read from the first batch that fails before its
    failure, and the exception raised is a [BulkDataException] that names
    this batch and carries the text of what went wrong, be it the download
    or a row of the file. *)
Theorem get_batch_results_batch_by_batch (h : Helpers)
    (exn_text : Py.exn -> string) (batches : list BulkResults.Batch) :
  let g := BulkResults._get_batch_results h exn_text batches in
  match BulkApiDml.raised g with
  | None =>
      Forall (fun b => BulkApiDml.raised (BulkResults.batch_outcome h b) = None)
        batches
      /\ BulkApiDml.yielded g
         = concat (map (fun b => BulkApiDml.yielded (BulkResults.batch_outcome h b))
                     batches)
  | Some e =>
      exists before b after cause,
        batches = (before ++ b :: after)%list
        /\ Forall (fun b => BulkApiDml.raised (BulkResults.batch_outcome h b)
                            = None) before
        /\ BulkApiDml.raised (BulkResults.batch_outcome h b) = Some cause
        /\ e = Py.BulkDataException
                 ("Failed to download results for batch "
                  ++ BulkResults.batch_id b ++ " (" ++ exn_text cause ++ ")")
        /\ BulkApiDml.yielded g
           = concat (map (fun b => BulkApiDml.yielded
                                     (BulkResults.batch_outcome h b))
                       (before ++ [b]))
  end.
Proof.
  induction batches as [|b batches IH]; cbn [BulkResults._get_batch_results].
  - cbn. split; [constructor|reflexivity].
  - destruct (BulkResults.download b) as [e|file] eqn:Ed.
    + cbn [BulkApiDml.raised BulkApiDml.yielded].
      exists [], b, batches, e. cbn [app map concat].
      unfold BulkResults.batch_outcome. rewrite Ed.
      cbn [BulkApiDml.raised BulkApiDml.yielded app].
      repeat split; constructor.
    + destruct (BulkApiDml.raised (BulkApiDml._parse_batch_results h file))
        as [e|] eqn:Er.
      * cbn [BulkApiDml.raised BulkApiDml.yielded].
        exists [], b, batches, e. cbn [app map concat].
        unfold BulkResults.batch_outcome. rewrite Ed, Er.
        rewrite List.app_nil_r. repeat split; constructor.
      * cbn zeta in IH. cbn [BulkApiDml.raised BulkApiDml.yielded].
        assert (Hb : BulkResults.batch_outcome h b
                     = BulkApiDml._parse_batch_results h file)
          by (unfold BulkResults.batch_outcome; rewrite Ed; reflexivity).
        destruct (BulkApiDml.raised
                    (BulkResults._get_batch_results h exn_text batches))
          as [e|].
        -- destruct IH as (before & b' & after & cause & -> & Hall & Hc & -> & Hy).
           exists (b :: before), b', after, cause.
           split; [reflexivity|].
           split; [constructor; [rewrite Hb; exact Er|exact Hall]|].
           split; [exact Hc|]. split; [reflexivity|].
           cbn [app map concat]. rewrite Hb, Hy. reflexivity.
        -- destruct IH as [Hall Hy].
           split; [constructor; [rewrite Hb; exact Er|exact Hall]|].
           cbn [map concat]. rewrite Hb, Hy. reflexivity.
Qed.

(** ** The rows of a REST query *)

Section RestQueryRows.

Import RestApiDml RestApiQuery.

Variable fields : list string.

Lemma convert_row_of (rec : gmap string QueryVal) (fs : list string) :
  Forall (fun f => is_Some (rec !! f)) fs ->
  convert rec fs = inr (row_of fs rec).
Proof.
  induction 1 as [|f fs [v Hv] _ IH]; cbn [convert row_of map Py.ret];
    [reflexivity|].
  rewrite Hv, IH. reflexivity.
Qed.

Lemma convert_missing (rec : gmap string QueryVal) (fs : list string)
    (f : string) :
  f ∈ fs -> rec !! f = None ->
  exists g, convert rec fs = inl (Py.KeyError g) /\ g ∈ fs /\ rec !! g = None.
Proof.
  intros Hf Hnone. induction fs as [|f' fs IH]; [inversion Hf|].
  cbn [convert]. destruct (rec !! f') as [v|] eqn:Ev.
  - apply elem_of_cons in Hf as [->|Hf]; [congruence|].
    destruct (IH Hf) as (g & -> & Hg & Hgn). exists g.
    split; [reflexivity|]. split; [apply list_elem_of_further, Hg|exact Hgn].
  - exists f'. split; [reflexivity|]. split; [apply list_elem_of_here|exact Ev].
Qed.

Lemma convert_each_complete (recs : list (gmap string QueryVal)) :
  Forall (fun rec => Forall (fun f => is_Some (rec !! f)) fields) recs ->
  convert_each recs fields
  = BulkApiDml.mkGenerated (map (row_of fields) recs) None.
Proof.
  induction 1 as [|rec recs Hrec _ IH]; cbn [convert_each map];
    [reflexivity|].
  rewrite (convert_row_of _ _ Hrec), IH. reflexivity.
Qed.

End RestQueryRows.

(** X23: the rows of a REST query are the rows of the first answer followed
    by the rows of the answers [query_more] gives, one after the other up to
    the answer that says done, each record giving one row with the text of
    its fields; given the requests to get there, the reading ends, and
    without an error.  The size of the job result is what the first answer
    announces. *)
Theorem rest_query_results_page_by_page
    (query_more : string -> RestApiQuery.Response) (fields : list string)
    (response : RestApiQuery.Response) (pages : list RestApiQuery.Response)
    (fuel : nat) :
  RestApiQuery.chained query_more response pages ->
  Forall (RestApiQuery.complete fields) (response :: pages) ->
  (length pages < fuel)%nat ->
  RestApiQuery.get_results fuel query_more fields response
  = Some (BulkApiDml.mkGenerated
            (concat (map (fun page => map (RestApiQuery.row_of fields)
                                        (RestApiQuery.records page))
                       (response :: pages)))
            None)
  /\ records_processed (RestApiQuery.query response)
     = RestApiQuery.totalSize response.
Proof.
  intros Hchain Hall Hfuel. split; [|reflexivity].
  revert response pages Hchain Hall Hfuel.
  induction fuel as [|fuel IH]; intros response pages Hchain Hall Hfuel; [lia|].
  apply Forall_cons in Hall as [Hfirst Hrest].
  cbn [RestApiQuery.get_results].
  rewrite (convert_each_complete fields _ Hfirst).
  cbn [BulkApiDml.raised BulkApiDml.yielded].
  destruct pages as [|page pages]; cbn [RestApiQuery.chained] in Hchain.
  - rewrite Hchain. cbn [map concat]. rewrite List.app_nil_r. reflexivity.
  - destruct Hchain as (Hdone & (next & Hnext & Hpage) & Hchain).
    rewrite Hdone, Hnext, Hpage.
    cbn [length] in Hfuel.
    rewrite (IH page pages Hchain Hrest) by lia.
    cbn [BulkApiDml.raised BulkApiDml.yielded map concat]. reflexivity.
Qed.

Lemma rest_query_results_page_by_page_witness :
  let last :=
    RestApiQuery.mkResponse 3 [ {["Id" := RestApiDml.QStr "003C"]} ] true None in
  let first :=
    RestApiQuery.mkResponse 3
      [ {["Id" := RestApiDml.QStr "003A"]}; {["Id" := RestApiDml.QNull]} ]
      false (Some "/query/01g-2000") in
  RestApiQuery.get_results 2 (fun _ => last) ["Id"] first
  = Some (BulkApiDml.mkGenerated [["003A"]; [""]; ["003C"]] None).
Proof.
  intros last first.
  refine (proj1 (rest_query_results_page_by_page (fun _ => last) ["Id"] first
                   [last] 2 _ _ _)).
  - cbn. split; [reflexivity|]. split; [|reflexivity]. eauto.
  - repeat constructor; rewrite ?lookup_singleton_eq; eauto.
  - cbn. lia.
Defined.

(** X24: a REST query whose answer is not done and names no next answer
    ends with [KeyError], after the rows of the answer; and a record that
    lacks a field ends the rows with [KeyError] at this record, the rows of
    the records before it being given. *)
Theorem rest_query_results_errors
    (query_more : string -> RestApiQuery.Response) (fields : list string)
    (response : RestApiQuery.Response) (fuel : nat) :
  (0 < fuel)%nat ->
  (RestApiQuery.complete fields response ->
   RestApiQuery.done response = false ->
   RestApiQuery.nextRecordsUrl response = None ->
   RestApiQuery.get_results fuel query_more fields response
   = Some (BulkApiDml.mkGenerated
             (map (RestApiQuery.row_of fields) (RestApiQuery.records response))
             (Some (Py.KeyError "nextRecordsUrl"))))
  /\ (forall before rec after f,
        RestApiQuery.records response = (before ++ rec :: after)%list ->
        Forall (fun rec => Forall (fun f => is_Some (rec !! f)) fields) before ->
        f ∈ fields -> rec !! f = None ->
        exists g,
          RestApiQuery.get_results fuel query_more fields response
          = Some (BulkApiDml.mkGenerated
                    (map (RestApiQuery.row_of fields) before)
                    (Some (Py.KeyError g)))
          /\ g ∈ fields /\ rec !! g = None).
Proof.
  intros Hfuel. destruct fuel as [|fuel]; [lia|]. split.
  - intros Hall Hdone Hnext. cbn [RestApiQuery.get_results].
    rewrite (convert_each_complete fields _ Hall).
    cbn [BulkApiDml.raised BulkApiDml.yielded]. rewrite Hdone, Hnext.
    reflexivity.
  - intros before rec after f Hrecs Hbefore Hf Hnone.
    cbn [RestApiQuery.get_results]. rewrite Hrecs.
    assert (Hconv : exists g,
              RestApiQuery.convert_each (before ++ rec :: after) fields
              = BulkApiDml.mkGenerated
                  (map (RestApiQuery.row_of fields) before)
                  (Some (Py.KeyError g))
              /\ g ∈ fields /\ rec !! g = None).
    { clear Hrecs. induction Hbefore as [|r before Hr _ IH];
        cbn [app RestApiQuery.convert_each map].
      - destruct (convert_missing rec fields f Hf Hnone) as (g & -> & Hg).
        exists g. split; [reflexivity|exact Hg].
      - rewrite (convert_row_of _ _ Hr).
        destruct IH as (g & -> & Hg). exists g. split; [reflexivity|exact Hg]. }
    destruct Hconv as (g & -> & Hg). exists g. split; [reflexivity|exact Hg].
Qed.

Lemma rest_query_results_errors_witness :
  RestApiQuery.get_results 1
    (fun _ => RestApiQuery.mkResponse 0 [] true None) ["Id"]
    (RestApiQuery.mkResponse 2 [ {["Id" := RestApiDml.QStr "003A"]} ] false
       None)
  = Some (BulkApiDml.mkGenerated [["003A"]]
            (Some (Py.KeyError "nextRecordsUrl"))).
Proof.
  refine (proj1 (rest_query_results_errors
                   (fun _ => RestApiQuery.mkResponse 0 [] true None) ["Id"]
                   (RestApiQuery.mkResponse 2
                      [ {["Id" := RestApiDml.QStr "003A"]} ] false None)
                   1 _) _ _ _).
  - lia.
  - repeat constructor. rewrite lookup_singleton_eq. eauto.
  - reflexivity.
  - reflexivity.
Defined.

(** ** The running totals of Snowfakery *)

Lemma sum_cons (x : Z) (l : list Z) : Py.sum (x :: l) = x + Py.sum l.
Proof. rewrite !sum_foldr. reflexivity. Qed.

Lemma sum_app (l l' : list Z) : Py.sum (l ++ l') = Py.sum l + Py.sum l'.
Proof.
  induction l as [|x l IH]; [change (Py.sum []) with 0; reflexivity|].
  cbn [app]. rewrite !sum_cons, IH. lia.
Qed.

Section RunningTotals.

Import Totals.

Lemma totals_of_step (counts : gmap string RunningTotals)
    (steps : list StepResult) (name : string) :
  let mine := filter (fun result => step_sobject result = name) steps in
  totals_of (update_running_totals_from_load_step_results counts steps) name
  = mkTotals
      (errors (totals_of counts name)
       + Py.sum (map step_total_row_errors mine))
      (successes (totals_of counts name)
       + Py.sum (map (fun result => step_records_processed result
                                    - step_total_row_errors result) mine)).
Proof.
  unfold update_running_totals_from_load_step_results. cbv zeta.
  revert counts. induction steps as [|s steps IH]; intros counts.
  - cbn. rewrite !Z.add_0_r. destruct (totals_of counts name); reflexivity.
  - cbn [fold_left]. rewrite IH, filter_cons.
    destruct (decide (step_sobject s = name)) as [Heq|Hne].
    + cbn [map]. rewrite !sum_cons.
      unfold totals_of. rewrite Heq, lookup_insert_eq.
      cbn [default from_option id errors successes]. f_equal; lia.
    + unfold totals_of.
      rewrite lookup_insert_ne by exact Hne. reflexivity.
Qed.

Lemma totals_dom_step (counts : gmap string RunningTotals)
    (steps : list StepResult) (name : string) :
  is_Some (update_running_totals_from_load_step_results counts steps !! name)
  <-> is_Some (counts !! name)
      \/ exists result, result ∈ steps /\ step_sobject result = name.
Proof.
  unfold update_running_totals_from_load_step_results.
  revert counts. induction steps as [|s steps IH]; intros counts.
  - cbn. split; [auto|]. intros [H|(r & Hr & _)]; [exact H|inversion Hr].
  - cbn [fold_left]. rewrite IH. split.
    + intros [H|(r & Hr & Hn)].
      * destruct (decide (step_sobject s = name)) as [Heq|Hne].
        -- right. exists s. split; [apply list_elem_of_here|exact Heq].
        -- rewrite lookup_insert_ne in H by exact Hne. auto.
      * right. exists r. split; [apply list_elem_of_further; exact Hr|exact Hn].
    + intros [H|(r & Hr & Hn)].
      * left. destruct (decide (step_sobject s = name)) as [Heq|Hne].
        -- rewrite Heq, lookup_insert_eq. eauto.
        -- rewrite lookup_insert_ne by exact Hne. exact H.
      * apply elem_of_cons in Hr as [->|Hr].
        -- left. rewrite Hn, lookup_insert_eq. eauto.
        -- right. eauto.
Qed.

End RunningTotals.

(** X25: emptying the results queue adds up what the load steps report.
    For every sobject the errors grow by the row errors of its steps and the
    successes by their processed records less their row errors, so that
    errors and successes together grow by the processed records; nothing is
    lost and nothing counted twice, whatever the order of the messages.  A
    message without results counts for nothing and is logged as a warning;
    and a sobject has totals afterwards iff it had before or a step names
    it. *)
Theorem running_totals_add_up
    (sobject_counts : gmap string Totals.RunningTotals)
    (queue : list Totals.Report) (name : string) :
  let after := (Totals.update_running_totals sobject_counts queue).1 in
  let warnings := (Totals.update_running_totals sobject_counts queue).2 in
  let steps := Totals.steps_of name queue in
  let before := Totals.totals_of sobject_counts name in
  Totals.errors (Totals.totals_of after name)
  = Totals.errors before + Py.sum (map Totals.step_total_row_errors steps)
  /\ Totals.errors (Totals.totals_of after name)
     + Totals.successes (Totals.totals_of after name)
     = Totals.errors before + Totals.successes before
       + Py.sum (map Totals.step_records_processed steps)
  /\ (is_Some (after !! name)
      <-> is_Some (sobject_counts !! name) \/ steps <> [])
  /\ length warnings
     = length (filter (fun report => Totals.report_results report = None) queue).
Proof.
  cbv zeta. unfold Totals.steps_of.
  revert sobject_counts.
  induction queue as [|report queue IH]; intros counts.
  - cbn. rewrite !Z.add_0_r. repeat split; tauto.
  - cbn [Totals.update_running_totals omap list_omap]. rewrite filter_cons.
    destruct (Totals.report_results report) as [step_results|] eqn:Er.
    + rewrite decide_False by discriminate.
      destruct (IH (Totals.update_running_totals_from_load_step_results
                      counts step_results)) as (Herr & Hsum & Hdom & Hwarn).
      cbn [concat]. rewrite filter_app, !map_app, !sum_app.
      pose proof (totals_of_step counts step_results name) as Hstep.
      cbv zeta in Hstep. rewrite Hstep in Herr, Hsum.
      cbn [Totals.errors Totals.successes] in Herr, Hsum.
      split; [rewrite Herr; lia|].
      split.
      { rewrite Hsum.
        assert (Hsplit : forall l,
                  Py.sum (map (fun result =>
                                 Totals.step_records_processed result
                                 - Totals.step_total_row_errors result) l)
                  = Py.sum (map Totals.step_records_processed l)
                    - Py.sum (map Totals.step_total_row_errors l)).
        { induction l as [|x l IHl]; [reflexivity|].
          cbn [map]. rewrite !sum_cons, IHl. lia. }
        rewrite Hsplit. lia. }
      split; [|exact Hwarn].
      rewrite Hdom, totals_dom_step. split.
      * intros [[H|(r & Hr & Hn)]|H].
        -- left. exact H.
        -- right. intros Happ. apply app_eq_nil in Happ as [Hnil _].
           assert (Hin : r ∈ filter (fun result => Totals.step_sobject result
                                                    = name) step_results)
             by (apply list_elem_of_filter; auto).
           rewrite Hnil in Hin. inversion Hin.
        -- right. intros Happ. apply app_eq_nil in Happ as [_ Hnil]. auto.
      * intros [H|H]; [left; left; exact H|].
        destruct (filter (fun result => Totals.step_sobject result = name)
                    step_results) as [|r l] eqn:Ef.
        -- right. exact H.
        -- left. right. exists r.
           assert (Hin : r ∈ filter (fun result => Totals.step_sobject result
                                                    = name) step_results)
             by (rewrite Ef; apply list_elem_of_here).
           apply list_elem_of_filter in Hin. tauto.
    + rewrite decide_True by reflexivity.
      destruct (IH counts) as (Herr & Hsum & Hdom & Hwarn).
      destruct (Totals.update_running_totals counts queue) as [after warnings].
      cbn [fst snd length] in *.
      repeat split; try tauto; try lia.
Qed.

(** ** The shard declarations of a recipe *)

Section ShardDeclarations.

Import Sharding.

Lemma uniqify_elem_of (l seen : list string) (x : string) :
  x ∈ uniqify seen l <-> x ∈ l /\ x ∉ seen.
Proof.
  revert seen. induction l as [|y l IH]; intros seen; cbn [uniqify].
  - split; [intros H; inversion H|intros [H _]; inversion H].
  - destruct (decide (y ∈ seen)) as [Hy|Hy].
    + rewrite bool_decide_eq_true_2 by exact Hy. rewrite IH, elem_of_cons.
      split; [tauto|]. intros [[->|H] Hs]; [contradiction|auto].
    + rewrite bool_decide_eq_false_2 by exact Hy.
      rewrite !elem_of_cons, IH.
      destruct (decide (x = y)) as [->|Hne]; [tauto|].
      split.
      * intros [?|[Hl Hs]]; [contradiction|].
        apply not_elem_of_cons in Hs. tauto.
      * intros [[?|Hl] Hs]; [contradiction|]. right. split; [exact Hl|].
        apply not_elem_of_cons. auto.
Qed.

Lemma uniqify_NoDup (l seen : list string) : NoDup (uniqify seen l).
Proof.
  revert seen. induction l as [|y l IH]; intros seen; cbn [uniqify].
  - constructor.
  - destruct (bool_decide (y ∈ seen)); [apply IH|].
    constructor; [|apply IH].
    rewrite uniqify_elem_of. intros [_ H]. apply H, list_elem_of_here.
Qed.

End ShardDeclarations.

(** X26: the shard declarations of a recipe come from the one rules file
    that declares any, among the files given and the rules file beside the
    recipe, if it exists.  Naming a file twice, or naming the file beside
    the recipe, makes no difference; no file with declarations gives none;
    and declarations in two different files are a [TaskOptionsError]. *)
Theorem read_sharding_declarations_one_file {ShardDeclaration : Type}
    (implicit_rules_file : option string) (file_exists : string -> bool)
    (shard_declarations : string -> option (list ShardDeclaration))
    (loading_rules_files : list string) :
  let declares file := default [] (shard_declarations file) <> [] in
  let candidate file :=
    file ∈ loading_rules_files
    \/ (implicit_rules_file = Some file /\ file_exists file = true) in
  match Sharding.read_sharding_declarations implicit_rules_file file_exists
          shard_declarations loading_rules_files with
  | inr [] => forall file, candidate file -> ~ declares file
  | inr (decl :: decls) =>
      exists file,
        candidate file /\ shard_declarations file = Some (decl :: decls)
        /\ forall other, candidate other -> declares other -> other = file
  | inl (Sharding.MultipleShardDeclarations files) =>
      exists file other,
        candidate file /\ candidate other /\ file <> other
        /\ declares file /\ declares other
        /\ Forall (fun entry => candidate entry.1
                                /\ shard_declarations entry.1 = Some entry.2
                                /\ entry.2 <> []) files
  end.
Proof.
  intros declares candidate. unfold Sharding.read_sharding_declarations.
  set (listed := match implicit_rules_file with
                 | Some file =>
                     if file_exists file
                     then (loading_rules_files ++ [file])%list
                     else loading_rules_files
                 | None => loading_rules_files
                 end).
  assert (Hlisted : forall file, file ∈ listed <-> candidate file).
  { intros file. unfold listed, candidate.
    destruct implicit_rules_file as [f|].
    - destruct (file_exists f) eqn:Ef.
      + rewrite elem_of_app, list_elem_of_singleton. split.
        * intros [H| ->]; auto.
        * intros [H|[[= ->] _]]; auto.
      + split; [auto|]. intros [H|[[= ->] Hex]]; [exact H|congruence].
    - split; [auto|]. intros [H|[[=] _]]. exact H. }
  set (files := Sharding.uniqify [] listed).
  assert (Hfiles : forall file, file ∈ files <-> candidate file).
  { intros file. unfold files. rewrite uniqify_elem_of, Hlisted.
    split; [tauto|]. intros H. split; [exact H|]. intros Hin. inversion Hin. }
  assert (Hnd : NoDup files) by apply uniqify_NoDup.
  set (entry_of := fun file : string =>
                     (file, default [] (shard_declarations file))).
  set (rules_lists := filter (fun rules_list : string * list ShardDeclaration =>
                                rules_list.2 <> []) (map entry_of files)).
  assert (Hin : forall entry,
            entry ∈ rules_lists
            <-> candidate entry.1 /\ declares entry.1
                /\ entry.2 = default [] (shard_declarations entry.1)).
  { intros [file rules]. unfold rules_lists.
    rewrite list_elem_of_filter. cbn [fst snd].
    change (map entry_of files) with (entry_of <$> files).
    rewrite list_elem_of_fmap. unfold declares, entry_of. split.
    - intros (Hne & f & [= -> ->] & Hf). rewrite <- Hfiles. auto.
    - intros (Hc & Hd & ->). split; [exact Hd|].
      exists file. split; [reflexivity|]. apply Hfiles. exact Hc. }
  assert (Hnd' : NoDup (map fst rules_lists)).
  { unfold rules_lists. clear -Hnd.
    induction Hnd as [|f fs Hf _ IH]; cbn [map]; [constructor|].
    rewrite filter_cons. destruct (decide _); cbn [map fst]; [|exact IH].
    constructor; [|exact IH]. intros Hin'.
    apply list_elem_of_fmap in Hin' as ([g r] & Heq & Hg).
    apply list_elem_of_filter in Hg as [_ Hg].
    apply list_elem_of_fmap in Hg as (g' & [= -> ->] & Hg').
    cbn in Heq. subst g'. contradiction. }
  assert (Hsome : forall entry : string * list ShardDeclaration,
            entry.2 <> [] ->
            entry.2 = default [] (shard_declarations entry.1) ->
            shard_declarations entry.1 = Some entry.2).
  { intros [file rules]. cbn [fst snd]. intros Hne ->.
    destruct (shard_declarations file); [reflexivity|]. contradiction. }
  destruct rules_lists as [|e1 [|e2 rest]] eqn:Er.
  - intros file Hc Hd.
    assert (H : (file, default [] (shard_declarations file))
                ∈ ([] : list (string * list ShardDeclaration))).
    { apply Hin. cbn [fst snd]. auto. }
    inversion H.
  - destruct (Hin e1) as [(Hc & Hd & He) _]; [apply list_elem_of_here|].
    destruct e1 as [file rules]. cbn [fst snd] in *.
    destruct rules as [|decl decls]; [unfold declares in Hd; rewrite <- He in Hd;
                                      contradiction|].
    exists file. split; [exact Hc|]. split.
    + apply (Hsome (file, decl :: decls)); [discriminate|exact He].
    + intros other Hco Hdo.
      assert (H : (other, default [] (shard_declarations other))
                  ∈ [(file, decl :: decls)]).
      { apply Hin. cbn [fst snd]. auto. }
      apply list_elem_of_singleton in H. congruence.
  - destruct (Hin e1) as [(Hc1 & Hd1 & He1) _]; [apply list_elem_of_here|].
    destruct (Hin e2) as [(Hc2 & Hd2 & He2) _];
      [apply list_elem_of_further, list_elem_of_here|].
    exists e1.1, e2.1.
    split; [exact Hc1|]. split; [exact Hc2|]. split.
    { cbn [map] in Hnd'. apply NoDup_cons in Hnd' as [Hnot _].
      intros Heq. apply Hnot. rewrite Heq. apply list_elem_of_here. }
    split; [exact Hd1|]. split; [exact Hd2|].
    apply Forall_forall. intros entry Hentry.
    apply Hin in Hentry as (Hc & Hd & He).
    split; [exact Hc|].
    assert (Hne : entry.2 <> []) by (rewrite He; exact Hd).
    split; [apply Hsome; assumption|exact Hne].
Qed.

(** ** The CSV form of a record *)

Section CsvInjective.

Import Csv.

Lemma writerow_cons (x : option string) (rest : LoadRecord) :
  writerow (x :: rest)
  = String dquote (escape (default "" x) ++ String dquote (after_field rest)).
Proof.
  unfold writerow, after_field. destruct rest as [|y rest].
  - cbn [map Py.join]. unfold quote_field. sapp. rewrite sapp_assoc. sapp.
    reflexivity.
  - cbn [map Py.join]. unfold quote_field at 1. sapp.
    rewrite !sapp_assoc. sapp. rewrite ?sapp_assoc. reflexivity.
Qed.

Lemma after_field_head (rest : LoadRecord) :
  exists c t, after_field rest = String c t /\ c <> dquote.
Proof.
  destruct rest as [|y rest]; unfold after_field.
  - eexists _, _. split; [reflexivity|]. discriminate.
  - sapp. eexists _, _. split; [reflexivity|]. discriminate.
Qed.

(** A quoted text ends at the first quote that is not doubled. *)
Lemma escape_ends (s1 s2 t1 t2 : string) (c1 c2 : ascii) :
  c1 <> dquote -> c2 <> dquote ->
  escape s1 ++ String dquote (String c1 t1)
  = escape s2 ++ String dquote (String c2 t2) ->
  s1 = s2 /\ String c1 t1 = String c2 t2.
Proof.
  intros H1 H2. revert s2.
  induction s1 as [|a s1 IH]; intros [|b s2]; cbn [escape]; sapp.
  - intros [= -> ->]. auto.
  - destruct (Ascii.eqb_spec b dquote) as [->|Hb]; sapp.
    + intros [= Hc _]. congruence.
    + intros [= Hc _]. congruence.
  - destruct (Ascii.eqb_spec a dquote) as [->|Ha]; sapp.
    + intros [= Hc _]. congruence.
    + intros [= Hc _]. congruence.
  - destruct (Ascii.eqb_spec a dquote) as [->|Ha];
      destruct (Ascii.eqb_spec b dquote) as [->|Hb]; sapp.
    + intros [= H]. destruct (IH _ H) as [-> Ht]. auto.
    + intros [= Hc _]. congruence.
    + intros [= Hc _]. congruence.
    + intros [= -> H]. destruct (IH _ H) as [-> Ht]. auto.
Qed.

Lemma writerow_injective (r1 r2 : LoadRecord) :
  writerow r1 = writerow r2 -> map (default "") r1 = map (default "") r2.
Proof.
  revert r2. induction r1 as [|x1 r1 IH]; intros [|x2 r2].
  - reflexivity.
  - rewrite writerow_cons. unfold writerow. cbn [map Py.join]. sapp.
    unfold crlf. discriminate.
  - rewrite writerow_cons. unfold writerow. cbn [map Py.join]. sapp.
    unfold crlf. discriminate.
  - rewrite !writerow_cons. intros [= H].
    destruct (after_field_head r1) as (c1 & t1 & E1 & Hc1).
    destruct (after_field_head r2) as (c2 & t2 & E2 & Hc2).
    rewrite E1, E2 in H.
    destruct (escape_ends _ _ _ _ _ _ Hc1 Hc2 H) as [Hx Ht].
    rewrite <- E1, <- E2 in Ht. cbn [map]. rewrite Hx. f_equal.
    destruct r1 as [|y1 r1]; destruct r2 as [|y2 r2]; unfold after_field in Ht.
    + reflexivity.
    + sapp. unfold crlf in Ht. discriminate.
    + sapp. unfold crlf in Ht. discriminate.
    + sapp. injection Ht as Ht. apply IH. exact Ht.
Qed.

Lemma String_inj (a b : ascii) (s t : string) :
  String a s = String b t -> a = b /\ s = t.
Proof. intros [= -> ->]. auto. Qed.

Lemma encode_utf8_cons (c : ascii) (s : string) :
  encode_utf8 (String c s)
  = if (nat_of_ascii c <? 128)%nat then String c (encode_utf8 s)
    else String (ascii_of_nat (192 + nat_of_ascii c / 64))
           (String (ascii_of_nat (128 + nat_of_ascii c mod 64))
              (encode_utf8 s)).
Proof. reflexivity. Qed.

(** The bytes of a character. *)
Lemma encode_utf8_head (c1 c2 : ascii) (s1 s2 : string) :
  encode_utf8 (String c1 s1) = encode_utf8 (String c2 s2) ->
  c1 = c2 /\ encode_utf8 s1 = encode_utf8 s2.
Proof.
  rewrite !encode_utf8_cons.
  pose proof (nat_ascii_bounded c1) as B1.
  pose proof (nat_ascii_bounded c2) as B2.
  assert (Hlead : forall n, (n < 256)%nat ->
            nat_of_ascii (ascii_of_nat (192 + n / 64)) = (192 + n / 64)%nat).
  { intros n Hn. apply nat_ascii_embedding.
    assert (n / 64 < 4)%nat by (apply Nat.Div0.div_lt_upper_bound; lia). lia. }
  assert (Hnext : forall n,
            nat_of_ascii (ascii_of_nat (128 + n mod 64)) = (128 + n mod 64)%nat).
  { intros n. apply nat_ascii_embedding.
    pose proof (Nat.mod_upper_bound n 64). lia. }
  destruct (Nat.ltb_spec (nat_of_ascii c1) 128) as [L1|L1];
    destruct (Nat.ltb_spec (nat_of_ascii c2) 128) as [L2|L2].
  - intros H. apply String_inj in H as [-> H]. auto.
  - intros H. apply String_inj in H as [Hc _].
    apply (f_equal nat_of_ascii) in Hc.
    rewrite Hlead in Hc by exact B2. lia.
  - intros H. apply String_inj in H as [Hc _].
    apply (f_equal nat_of_ascii) in Hc.
    rewrite Hlead in Hc by exact B1. lia.
  - intros H. apply String_inj in H as [Ha H].
    apply String_inj in H as [Hb H]. split; [|exact H].
    apply (f_equal nat_of_ascii) in Ha, Hb.
    rewrite !Hlead in Ha by assumption. rewrite !Hnext in Hb.
    assert (Hn : nat_of_ascii c1 = nat_of_ascii c2).
    { rewrite (Nat.div_mod_eq (nat_of_ascii c1) 64),
              (Nat.div_mod_eq (nat_of_ascii c2) 64). lia. }
    rewrite <- (ascii_nat_embedding c1), <- (ascii_nat_embedding c2), Hn.
    reflexivity.
Qed.

Lemma encode_utf8_injective (s1 s2 : string) :
  encode_utf8 s1 = encode_utf8 s2 -> s1 = s2.
Proof.
  revert s2. induction s1 as [|c1 s1 IH]; intros [|c2 s2].
  - reflexivity.
  - rewrite encode_utf8_cons. destruct (_ <? _)%nat; discriminate.
  - rewrite encode_utf8_cons. destruct (_ <? _)%nat; discriminate.
  - intros H. apply encode_utf8_head in H as [-> H]. f_equal. apply IH, H.
Qed.

End CsvInjective.

(** X27: the CSV form of a record tells the records apart: two records with
    the same bytes have the same number of cells and the same text in each,
    [None] standing for the empty text.  Commas, quotes and line ends
    inside a value cannot be taken for the end of a cell or of the
    record. *)
Theorem serialize_csv_record_injective (record1 record2 : LoadRecord) :
  BulkApiDml._serialize_csv_record record1
  = BulkApiDml._serialize_csv_record record2 ->
  map (default "") record1 = map (default "") record2.
Proof.
  unfold BulkApiDml._serialize_csv_record. intros H.
  apply writerow_injective, encode_utf8_injective, H.
Qed.

Lemma serialize_csv_record_injective_witness :
  map (default "") [Some "a,b"; None] = map (default "") [Some "a,b"; Some ""]
  /\ BulkApiDml._serialize_csv_record [Some "a"; Some "b"]
     <> BulkApiDml._serialize_csv_record [Some "a,b"].
Proof.
  split.
  - apply (serialize_csv_record_injective [Some "a,b"; None]
             [Some "a,b"; Some ""]).
    vm_compute. reflexivity.
  - vm_compute. discriminate.
Defined.

(** ** The rounds of a Bulk selection *)

(** X28: a Bulk selection does not page through the org: no round passes an
    offset, so two rounds that ask for a full batch send the same queries.
    With an org whose answers depend on the query alone, every full round
    adds the same records to the candidates, whatever its offset. *)
Theorem bulk_select_rounds_repeat (h : Helpers) (org : BulkSelect.BulkOrg)
    (self : DmlOperation) (total_num_records offset offset' : Z)
    (query_records : list Row) :
  (forall round query,
     BulkSelect.bulk_query org round query = BulkSelect.bulk_query org 0 query) ->
  api_batch_size self <= total_num_records - offset ->
  api_batch_size self <= total_num_records - offset' ->
  BulkSelect.select_round h org self total_num_records offset query_records
  = BulkSelect.select_round h org self total_num_records offset' query_records
  /\ match BulkSelect.select_round h org self total_num_records offset [] with
     | inr (added, num_records) =>
         num_records = api_batch_size self
         /\ BulkSelect.select_round h org self total_num_records offset'
              query_records
            = inr ((query_records ++ added)%list, num_records)
     | inl e =>
         BulkSelect.select_round h org self total_num_records offset'
           query_records = inl e
     end.
Proof.
  intros Horg Hfull Hfull'. unfold BulkSelect.select_round.
  rewrite !Z.min_l by assumption.
  destruct (select_generate_query h (selection_strategy self) (sobject self)
              (fields self) (api_batch_size self) None)
    as [select_query query_fields].
  unfold BulkSelect._execute_select_query.
  rewrite !(Horg offset), !(Horg offset'). split; [reflexivity|].
  destruct (truthy (selection_filter self)).
  - destruct (Selection.first_columns _) as [e|ids]; cbn [Py.bind];
      [reflexivity|].
    destruct (Selection.intersect query_fields ids _) as [e|found];
      cbn [Py.bind Py.ret app]; [reflexivity|].
    split; reflexivity.
  - cbn [Py.bind Py.ret app]. split; reflexivity.
Qed.

Lemma bulk_select_rounds_repeat_witness :
  BulkSelect.select_round Sample.helpers Sample.one_contact
    (Sample.contact SELECT 2) 5 0 []
  = BulkSelect.select_round Sample.helpers Sample.one_contact
      (Sample.contact SELECT 2) 5 2 [].
Proof.
  refine (proj1 (bulk_select_rounds_repeat Sample.helpers Sample.one_contact
                   (Sample.contact SELECT 2) 5 0 2 [] _ _ _)).
  - reflexivity.
  - cbn. lia.
  - cbn. lia.
Defined.

(** ** Waiting for the queues to empty *)

Section FinishWait.

Import Snowfakery FinishLoop.

Lemma last_logged_cons_some (old : option string) (msg : string)
    (log : list (option string)) :
  last_logged old (Some msg :: log) = last_logged (Some msg) log.
Proof.
  unfold last_logged. cbn [omap list_omap id].
  destruct (omap id log) as [|m l] eqn:E; [reflexivity|].
  change (last (msg :: m :: l)) with (last (m :: l)).
  destruct (last (m :: l)) eqn:El; [reflexivity|].
  apply last_None in El. discriminate.
Qed.

Lemma finish_loop_length (statuses : list QueueManagerStatus)
    (old : option string) (c : Z) :
  length (finish_loop statuses old c) = length statuses.
Proof.
  revert old c. induction statuses as [|s statuses IH]; intros old c;
    cbn [finish_loop length]; [reflexivity|].
  destruct (_ || _); cbn [length]; rewrite IH; reflexivity.
Qed.

Lemma finish_loop_current (statuses : list QueueManagerStatus)
    (old : option string) (c : Z) (i : nat) (status : QueueManagerStatus) :
  statuses !! i = Some status ->
  last_logged old (take (S i) (finish_loop statuses old c))
  = Some (waiting_message status).
Proof.
  revert old c i. induction statuses as [|s statuses IH]; intros old c i;
    [discriminate|].
  cbn [finish_loop].
  destruct (decide (old = Some (waiting_message s))) as [Hold|Hold].
  - rewrite bool_decide_eq_true_2 by exact Hold. cbn [negb orb].
    destruct (c <? 1).
    + destruct i as [|i]; cbn [lookup take].
      * intros [= <-]. reflexivity.
      * intros Hi. cbn. rewrite last_logged_cons_some. apply IH, Hi.
    + destruct i as [|i].
      * intros [= <-]. exact Hold.
      * intros Hi.
        change (take (S (S i)) (None :: finish_loop statuses old (c - 1)))
          with (None :: take (S i) (finish_loop statuses old (c - 1))).
        unfold last_logged. cbn [omap list_omap]. apply IH, Hi.
  - rewrite bool_decide_eq_false_2 by exact Hold. cbn [negb orb].
    destruct i as [|i].
    + intros [= <-]. reflexivity.
    + intros Hi.
      change (take (S (S i)) (Some (waiting_message s)
                              :: finish_loop statuses
                                   (Some (waiting_message s)) 5))
        with (Some (waiting_message s)
              :: take (S i) (finish_loop statuses (Some (waiting_message s)) 5)).
      rewrite last_logged_cons_some. apply IH, Hi.
Qed.

Lemma finish_loop_speaks (statuses : list QueueManagerStatus)
    (old : option string) (c : Z) :
  0 <= c <= 5 -> (Z.to_nat c < length statuses)%nat ->
  exists k msg, (k <= Z.to_nat c)%nat
                /\ finish_loop statuses old c !! k = Some (Some msg).
Proof.
  revert old c. induction statuses as [|s statuses IH]; intros old c Hc Hlen;
    cbn [length] in Hlen; [lia|].
  cbn [finish_loop].
  destruct (negb (bool_decide (old = Some (waiting_message s)))); cbn [orb].
  - exists 0%nat, (waiting_message s). split; [lia|reflexivity].
  - destruct (Z.ltb_spec c 1) as [Hlt|Hge].
    + exists 0%nat, (waiting_message s). split; [lia|reflexivity].
    + destruct (IH old (c - 1)) as (k & msg & Hk & Hlog); [lia|lia|].
      exists (S k), msg. split; [lia|exact Hlog].
Qed.

Lemma finish_loop_drop (i : nat) (statuses : list QueueManagerStatus)
    (old : option string) (c : Z) :
  0 <= c <= 5 ->
  exists old' c',
    0 <= c' <= 5
    /\ drop i (finish_loop statuses old c)
       = finish_loop (drop i statuses) old' c'.
Proof.
  revert statuses old c. induction i as [|i IH]; intros statuses old c Hc.
  - exists old, c. split; [exact Hc|reflexivity].
  - destruct statuses as [|s statuses].
    + exists old, c. split; [exact Hc|reflexivity].
    + cbn [finish_loop].
      destruct (negb (bool_decide (old = Some (waiting_message s)))); cbn [orb].
      * cbn [drop]. apply IH. lia.
      * destruct (Z.ltb_spec c 1); cbn [drop]; apply IH; lia.
Qed.

End FinishWait.

(** X29: while [finish] waits for the queues, its log tells the state of the
    queues: after every turn the message last logged is the message of that
    turn, so a change is logged at once; and a message that stays the same
    is not repeated at every turn, yet no six turns in a row pass without
    one. *)
Theorem finish_log_follows_the_queues
    (statuses : list Snowfakery.QueueManagerStatus) :
  let log := FinishLoop.finish_loop statuses None 5 in
  length log = length statuses
  /\ (forall i status, statuses !! i = Some status ->
        FinishLoop.last_logged None (take (S i) log)
        = Some (FinishLoop.waiting_message status))
  /\ (forall i status status',
        statuses !! i = Some status -> statuses !! S i = Some status' ->
        log !! S i = Some None ->
        FinishLoop.waiting_message status' = FinishLoop.waiting_message status)
  /\ (forall i, (i + 6 <= length statuses)%nat ->
        exists k msg, (k < 6)%nat /\ log !! (i + k)%nat = Some (Some msg)).
Proof.
  intros log. split; [apply finish_loop_length|]. split; [|split].
  - intros i status Hi. apply finish_loop_current, Hi.
  - intros i status status' Hi Hi' Hsilent.
    pose proof (finish_loop_current statuses None 5 i status Hi) as Hcur.
    pose proof (finish_loop_current statuses None 5 (S i) status' Hi') as Hcur'.
    fold log in Hcur, Hcur'.
    rewrite (take_S_r _ _ _ Hsilent) in Hcur'.
    unfold FinishLoop.last_logged in Hcur, Hcur'.
    rewrite omap_app in Hcur'. cbn [omap list_omap] in Hcur'.
    rewrite List.app_nil_r in Hcur'. congruence.
  - intros i Hi.
    destruct (finish_loop_drop i statuses None 5) as (old & c & Hc & Hdrop);
      [lia|].
    destruct (finish_loop_speaks (drop i statuses) old c Hc)
      as (k & msg & Hk & Hlog).
    { rewrite length_drop. lia. }
    exists k, msg. split; [lia|].
    rewrite <- Hdrop, lookup_drop in Hlog. exact Hlog.
Qed.
